(** * The replay scheduler of [data_simulator.py]

    A shallow embedding of [DataSimulator] (corpus indexing, cyclic batch
    scheduling, batch copy and the driver loop) together with the parts of
    the Python library its behaviour depends on: [str.replace], [str.split],
    [int], [datetime.strptime], list slicing, the stable [list.sort], and
    [os.path.basename] / [os.path.join] / [shutil.copy2].

    The second part embeds the file naming and the loops of [DataGenerator]
    ([generate_sample_data.py]), which writes the files the simulator
    replays, with [str], zero-padded formatting, [strftime],
    [strptime(s, '%Y-%m-%d')] and day arithmetic on dates.

    Conventions.
    - Python [int] is [Z]; [len] results are cast from [nat].
    - Python [str] is [string].  File names are read as ASCII text: a byte
      above 127 is an ordinary character that is neither a digit nor white
      space.
    - A Python exception is a value of [exn]; a computation that may raise
      returns a [result].
    - The file system is a finite map from path to content; directories are
      not represented.
    - The logger is a chronological list of [record]s. *)

From Stdlib Require Import ZArith List String Ascii Lia Permutation Sorted.
From Stdlib Require Import DecimalString DecimalPos.
From stdpp Require Import gmap strings list sorting.

Open Scope string_scope.
Open Scope list_scope.
Open Scope Z_scope.

(** ** Exceptions *)

Inductive exn : Type :=
| ValueError
| IndexError
| ZeroDivisionError
| FileNotFoundError
| SameFileError.

Inductive result (A : Type) : Type :=
| Ok (a : A)
| Raise (e : exn).

Arguments Ok {A} a.
Arguments Raise {A} e.

#[global] Instance result_ret : MRet result := @Ok.
#[global] Instance result_bind : MBind result :=
  λ A B f m, match m with Ok a => f a | Raise e => Raise e end.

Definition is_ok {A} (r : result A) : bool :=
  match r with Ok _ => true | Raise _ => false end.

(** ** Python built-ins *)

Module Py.

(** [a // b] on integers: floor division, [ZeroDivisionError] on [b = 0]. *)
Definition floordiv (a b : Z) : result Z :=
  if b =? 0 then Raise ZeroDivisionError else Ok (a / b).

(** [l[i]] for a non-negative index. *)
Definition getitem {A} (l : list A) (i : nat) : result A :=
  match l !! i with
  | Some x => Ok x
  | None => Raise IndexError
  end.

(** The clamping of one slice bound ([PySlice_AdjustIndices], step 1). *)
Definition adjust_index (len i : Z) : Z :=
  if i <? 0 then Z.max (i + len) 0 else Z.min i len.

(** [l[start:stop]]. *)
Definition slice {A} (l : list A) (start stop : Z) : list A :=
  let len := Z.of_nat (length l) in
  let a := adjust_index len start in
  let b := adjust_index len stop in
  take (Z.to_nat (b - a)) (drop (Z.to_nat a) l).

(** [s.replace(old, new)] for a non-empty [old]: every non-overlapping
    occurrence, scanning from the left.  [skip] counts the characters of a
    matched occurrence that are still to be dropped. *)
Fixpoint replace_from (old new : string) (skip : nat) (s : string) : string :=
  match s with
  | EmptyString => EmptyString
  | String c s' =>
      match skip with
      | S k => replace_from old new k s'
      | O =>
          if String.prefix old s
          then new +:+ replace_from old new (String.length old - 1) s'
          else String c (replace_from old new 0 s')
      end
  end.

Definition replace (old new s : string) : string := replace_from old new 0 s.

(** [s.split(sep)] for a one-character separator. *)
Fixpoint split (sep : ascii) (s : string) : list string :=
  match s with
  | EmptyString => [EmptyString]
  | String c s' =>
      if Ascii.eqb c sep then EmptyString :: split sep s'
      else match split sep s' with
           | w :: ws => String c w :: ws
           | [] => [String c EmptyString]
           end
  end.

(** [os.path.basename(p)]: what follows the last slash. *)
Definition basename (p : string) : string :=
  List.last (split "/" p) EmptyString.

Fixpoint endswith_slash (s : string) : bool :=
  match s with
  | EmptyString => false
  | String c EmptyString => Ascii.eqb c "/"
  | String _ s' => endswith_slash s'
  end.

(** [os.path.join(a, b)] (posixpath). *)
Definition join (a b : string) : string :=
  if String.prefix "/" b then b
  else if String.eqb a EmptyString || endswith_slash a then a +:+ b
  else a +:+ "/" +:+ b.

(** White space and digits as [int] sees them in ASCII text
    ([Py_ISSPACE], [_PyLong_DigitValue]). *)
Definition isspace (c : ascii) : bool :=
  let n := nat_of_ascii c in
  ((9 <=? n) && (n <=? 13))%nat || (n =? 32)%nat.

Definition isdigit (c : ascii) : bool :=
  let n := nat_of_ascii c in ((48 <=? n) && (n <=? 57))%nat.

Definition digit_value (c : ascii) : Z := Z.of_nat (nat_of_ascii c) - 48.

Fixpoint lstrip (s : string) : string :=
  match s with
  | String c s' => if isspace c then lstrip s' else s
  | EmptyString => EmptyString
  end.

(** The digit run of [PyLong_FromString] in base 10: digits with single
    underscores between them.  [prev] tells that the previous character
    was an underscore. *)
Fixpoint scan_digits (acc : Z) (prev : bool) (s : string) : result (Z * string) :=
  match s with
  | EmptyString => if prev then Raise ValueError else Ok (acc, EmptyString)
  | String c s' =>
      if isdigit c then scan_digits (10 * acc + digit_value c) false s'
      else if Ascii.eqb c "_" then
        (if prev then Raise ValueError else scan_digits acc true s')
      else if prev then Raise ValueError else Ok (acc, s)
  end.

(** [int(s)]: white space, an optional sign, the digit run, white space.
    (The limit on the number of digits of recent interpreters is far above
    the length of a file name.) *)
Definition int (s : string) : result Z :=
  let s1 := lstrip s in
  let '(sign, s2) :=
    match s1 with
    | String "+" r => (1, r)
    | String "-" r => (-1, r)
    | _ => (1, s1)
    end in
  match s2 with
  | EmptyString => Raise ValueError
  | String c _ =>
      if isdigit c then
        '(n, rest) ← scan_digits 0 false s2;
        match lstrip rest with
        | EmptyString => Ok (sign * n)
        | String _ _ => Raise ValueError
        end
      else Raise ValueError
  end.

End Py.

(** ** [datetime.strptime(s, "%Y%m%d-%H")] *)

Module Strptime.

(** The library turns the format into the regular expression
    [(?P<Y>\d\d\d\d)(?P<m>1[0-2]|0[1-9]|[1-9])(?P<d>3[0-1]|[1-2]\d|0[1-9]|[1-9]| [1-9])-(?P<H>2[0-3]|[0-1]\d|\d)],
    matches it at the start of the text with a backtracking matcher, and
    rejects the text when the match does not cover it. *)

Definition cls : Type := ascii → bool.

Definition chr (c : ascii) : cls := Ascii.eqb c.

Definition rng (lo hi : ascii) : cls :=
  λ c, ((nat_of_ascii lo <=? nat_of_ascii c) && (nat_of_ascii c <=? nat_of_ascii hi))%nat.

Definition dig : cls := Py.isdigit.

(** One alternative: a sequence of character classes.  The result is the
    matched text and what follows it. *)
Fixpoint match_seq (p : list cls) (s : string) : option (string * string) :=
  match p with
  | [] => Some (EmptyString, s)
  | k :: p' =>
      match s with
      | String c s' =>
          if k c then
            match match_seq p' s' with
            | Some (m, r) => Some (String c m, r)
            | None => None
            end
          else None
      | EmptyString => None
      end
  end.

(** A group: its alternatives in the order the matcher tries them. *)
Definition group (alts : list (list cls)) (s : string) : list (string * string) :=
  omap (λ p, match_seq p s) alts.

Definition re_Y : list (list cls) := [[dig; dig; dig; dig]].
Definition re_m : list (list cls) :=
  [[chr "1"; rng "0" "2"]; [chr "0"; rng "1" "9"]; [rng "1" "9"]].
Definition re_d : list (list cls) :=
  [[chr "3"; rng "0" "1"]; [rng "1" "2"; dig]; [chr "0"; rng "1" "9"];
   [rng "1" "9"]; [chr " "; rng "1" "9"]].
Definition re_dash : list (list cls) := [[chr "-"]].
Definition re_H : list (list cls) :=
  [[chr "2"; rng "0" "3"]; [rng "0" "1"; dig]; [dig]].

(** Every way the expression matches a prefix of [s], first match first. *)
Definition matches (s : string) : list (string * string * string * string * string) :=
  '(Y, r1) ← group re_Y s;
  '(m, r2) ← group re_m r1;
  '(d, r3) ← group re_d r2;
  '(_, r4) ← group re_dash r3;
  '(H, r5) ← group re_H r4;
  [(Y, m, d, H, r5)].

End Strptime.

(** A naive [datetime] at hour granularity (the other fields are zero). *)
Record datetime : Type := Datetime { year : Z; month : Z; day : Z; hour : Z }.

Definition is_leap (y : Z) : bool :=
  (y mod 4 =? 0) && (negb (y mod 100 =? 0) || (y mod 400 =? 0)).

Definition days_in_month (y m : Z) : Z :=
  if m =? 2 then (if is_leap y then 29 else 28)
  else if (m =? 4) || (m =? 6) || (m =? 9) || (m =? 11) then 30
  else 31.

Definition strptime (s : string) : result datetime :=
  match Strptime.matches s with
  | [] => Raise ValueError
  | (Y, m, d, H, rest) :: _ =>
      match rest with
      | String _ _ => Raise ValueError
      | EmptyString =>
          y ← Py.int Y;
          mo ← Py.int m;
          da ← Py.int d;
          h ← Py.int H;
          if (1 <=? y) && (da <=? days_in_month y mo)
          then Ok (Datetime y mo da h)
          else Raise ValueError
      end
  end.

(** [datetime.__lt__] and [__eq__]. *)
Definition datetime_lt (a b : datetime) : bool :=
  (year a <? year b) || ((year a =? year b) &&
  ((month a <? month b) || ((month a =? month b) &&
  ((day a <? day b) || ((day a =? day b) && (hour a <? hour b)))))).

Definition datetime_eq (a b : datetime) : bool :=
  (year a =? year b) && (month a =? month b) && (day a =? day b) && (hour a =? hour b).

(** Comparison of the sort keys [(timestamp, shop_id)]: tuples compare at
    their first differing component. *)
Definition key : Type := datetime * Z.

Definition key_lt (a b : key) : bool :=
  if datetime_eq a.1 b.1 then a.2 <? b.2 else datetime_lt a.1 b.1.

(** ** [list.sort(key=...)]

    The sort is stable and compares keys with [<] only.  It is modelled by
    the stable insertion sort; [sorted_stable_unique] below shows that the
    result does not depend on this choice. *)
Section Sort.
Context {A K : Type} (lt : K → K → bool) (keyof : A → K).

Fixpoint insert_by (x : A) (l : list A) : list A :=
  match l with
  | [] => [x]
  | y :: l' =>
      if lt (keyof y) (keyof x) then y :: insert_by x l' else x :: y :: l'
  end.

Fixpoint sort_by (l : list A) : list A :=
  match l with
  | [] => []
  | x :: l' => insert_by x (sort_by l')
  end.
End Sort.

(** ** The simulator *)

(** Messages handed to the logger, one constructor per call site. *)
Inductive record : Type :=
| Info_initialized (total_files total_batches : Z)
| Warning_skipping (filename : string) (e : exn)
| Warning_restart
| Error_no_files
| Info_copying (batch : Z) (date hour : string)
| Debug_copied (filename : string)
| Error_failed (filename : string) (e : exn)
| Info_completed (success_count total : Z)
| Info_starting
| Info_result (success : bool)
| Info_continuous (num_shops interval_seconds : Z)
| Info_batch_number (batch_number : Z)
| Info_waiting (interval_seconds : Z)
| Info_stopped
| Error_simulation (e : exn).

Record DataSimulator : Type := {
  source_dir : string;
  dest_dir : string;
  num_shops : Z;
  interval_seconds : Z;
  current_index : Z;
  all_files : list (datetime * string);
  total_batches : Z
}.

(** What a method call can touch: the object, the file system, the log. *)
Record state : Type := {
  self : DataSimulator;
  disk : gmap string string;
  log : list record
}.

Definition M (A : Type) : Type := state → result A * state.

#[global] Instance M_ret : MRet M := λ A a st, (Ok a, st).
#[global] Instance M_bind : MBind M :=
  λ A B f m st,
    match m st with
    | (Ok a, st') => f a st'
    | (Raise e, st') => (Raise e, st')
    end.

Definition lift {A} (r : result A) : M A := λ st, (r, st).

Definition get_self : M DataSimulator := λ st, (Ok (self st), st).

Definition set_self (s : DataSimulator) : M unit :=
  λ st, (Ok tt, {| self := s; disk := disk st; log := log st |}).

Definition logger (r : record) : M unit :=
  λ st, (Ok tt, {| self := self st; disk := disk st; log := log st ++ [r] |}).

(** [try: body except Exception as e: handler e]. *)
Definition try_except {A} (body : M A) (handler : exn → M A) : M A :=
  λ st,
    match body st with
    | (Ok a, st') => (Ok a, st')
    | (Raise e, st') => handler e st'
    end.

Definition set_current_index (i : Z) : M unit :=
  s ← get_self;
  set_self {| source_dir := source_dir s; dest_dir := dest_dir s;
              num_shops := num_shops s; interval_seconds := interval_seconds s;
              current_index := i; all_files := all_files s;
              total_batches := total_batches s |}.

Definition set_all_files (l : list (datetime * string)) : M unit :=
  s ← get_self;
  set_self {| source_dir := source_dir s; dest_dir := dest_dir s;
              num_shops := num_shops s; interval_seconds := interval_seconds s;
              current_index := current_index s; all_files := l;
              total_batches := total_batches s |}.

Definition set_total_batches (n : Z) : M unit :=
  s ← get_self;
  set_self {| source_dir := source_dir s; dest_dir := dest_dir s;
              num_shops := num_shops s; interval_seconds := interval_seconds s;
              current_index := current_index s; all_files := all_files s;
              total_batches := n |}.

Definition len {A} (l : list A) : Z := Z.of_nat (length l).

(** *** [_get_sorted_files] *)

(** The body of the [try] block: the timestamp and the shop id read off a
    file name of the form [Shop-k-YYYYMMDD-hh.csv]. *)
Definition parse_filename (filename : string) : result (datetime * Z) :=
  let parts := Py.split "-" (Py.replace ".csv" EmptyString filename) in
  p1 ← Py.getitem parts 1;
  shop_id ← Py.int p1;
  date_str ← Py.getitem parts 2;
  hour_str ← Py.getitem parts 3;
  timestamp ← strptime (date_str +:+ "-" +:+ hour_str);
  Ok (timestamp, shop_id).

(** The loop over the paths returned by [glob.glob]: a path whose name
    parses is appended to [file_timestamps], any other is reported and
    skipped. *)
Fixpoint scan_files (files : list string)
    (file_timestamps : list (datetime * Z * string))
  : M (list (datetime * Z * string)) :=
  match files with
  | [] => mret file_timestamps
  | filepath :: files' =>
      let filename := Py.basename filepath in
      match parse_filename filename with
      | Ok (timestamp, shop_id) =>
          scan_files files' (file_timestamps ++ [(timestamp, shop_id, filepath)])
      | Raise e =>
          _ ← logger (Warning_skipping filename e);
          scan_files files' file_timestamps
      end
  end.

Definition sort_key (x : datetime * Z * string) : key := (x.1.1, x.1.2).

(** [files] is the result of [glob.glob(pattern)]: the paths of the source
    directory that match [Shop-*-*.csv], in the order the operating system
    lists them. *)
Definition _get_sorted_files (files : list string) : M (list (datetime * string)) :=
  file_timestamps ← scan_files files [];
  let file_timestamps := sort_by key_lt sort_key file_timestamps in
  mret ((λ x, (x.1.1, x.2)) <$> file_timestamps).

(** *** [__init__]

    [os.makedirs(dest_dir, exist_ok=True)] has no counterpart: directories
    are not represented.  [files] is the listing that [glob.glob] returns
    inside [_get_sorted_files]. *)

Definition __init__ (source_dir dest_dir : string) (num_shops interval_seconds : Z)
    (files : list string) : M unit :=
  _ ← set_self {| source_dir := source_dir; dest_dir := dest_dir;
                  num_shops := num_shops; interval_seconds := interval_seconds;
                  current_index := 0; all_files := []; total_batches := 0 |};
  sorted ← _get_sorted_files files;
  _ ← set_all_files sorted;
  n ← lift (Py.floordiv (len sorted) num_shops);
  _ ← set_total_batches n;
  logger (Info_initialized (len sorted) n).

(** *** [_get_next_batch] *)

Definition _get_next_batch : M (list string) :=
  s ← get_self;
  let start_idx := current_index s in
  let end_idx := start_idx + num_shops s in
  '(start_idx, end_idx) ←
    (if len (all_files s) <? end_idx then
       _ ← logger Warning_restart;
       _ ← set_current_index 0;
       mret (0, num_shops s)
     else mret (start_idx, end_idx));
  let batch := snd <$> Py.slice (all_files s) start_idx end_idx in
  _ ← set_current_index end_idx;
  mret batch.

(** *** [copy_batch] *)

(** [shutil.copy2(src, dst)] on the flat file system. *)
Definition copy2 (src dst : string) : M unit :=
  λ st,
    match disk st !! src with
    | None => (Raise FileNotFoundError, st)
    | Some content =>
        if String.eqb src dst then (Raise SameFileError, st)
        else (Ok tt, {| self := self st;
                        disk := <[dst := content]> (disk st);
                        log := log st |})
    end.

(** One round of the [for source_path in batch_files] loop; the result
    tells whether [success_count] is incremented. *)
Definition copy_file (source_path : string) : M bool :=
  s ← get_self;
  let filename := Py.basename source_path in
  try_except
    (let dest_path := Py.join (dest_dir s) filename in
     _ ← copy2 source_path dest_path;
     _ ← logger (Debug_copied filename);
     mret true)
    (λ e, _ ← logger (Error_failed filename e); mret false).

Fixpoint copy_files (batch_files : list string) (success_count : Z) : M Z :=
  match batch_files with
  | [] => mret success_count
  | source_path :: rest =>
      ok ← copy_file source_path;
      copy_files rest (if ok : bool then success_count + 1 else success_count)
  end.

(** What [copy_batch] does with the batch once it has it. *)
Definition dispatch (batch_files : list string) : M bool :=
  match batch_files with
  | [] => _ ← logger Error_no_files; mret false
  | first :: _ =>
      let first_file := Py.basename first in
      let timestamp_info :=
        Py.slice (Py.split "-" (Py.replace ".csv" EmptyString first_file)) 2 4 in
      s ← get_self;
      n ← lift (Py.floordiv (current_index s) (num_shops s));
      date ← lift (Py.getitem timestamp_info 0);
      hour ← lift (Py.getitem timestamp_info 1);
      _ ← logger (Info_copying n date hour);
      success_count ← copy_files batch_files 0;
      _ ← logger (Info_completed success_count (len batch_files));
      mret (success_count =? len batch_files)
  end.

Definition copy_batch : M bool :=
  batch_files ← _get_next_batch;
  dispatch batch_files.

(** *** [run_once] and [run_continuous] *)

Definition run_once : M bool :=
  _ ← logger Info_starting;
  success ← copy_batch;
  _ ← logger (Info_result success);
  mret success.

(** [time.sleep] changes nothing that is modelled. *)
Definition sleep (seconds : Z) : M unit := mret tt.

(** The first [ticks] rounds of the [while True] loop. *)
Fixpoint loop (ticks : nat) (batch_number : Z) : M unit :=
  match ticks with
  | O => mret tt
  | S ticks' =>
      let batch_number := batch_number + 1 in
      _ ← logger (Info_batch_number batch_number);
      _ ← copy_batch;
      s ← get_self;
      _ ← logger (Info_waiting (interval_seconds s));
      _ ← sleep (interval_seconds s);
      loop ticks' batch_number
  end.

(** [run_continuous] when the keyboard interrupt arrives after [ticks]
    rounds: the interrupt is logged and the method returns; an exception
    leaving a round is logged and raised again. *)
Definition run_continuous (ticks : nat) : M unit :=
  s ← get_self;
  _ ← logger (Info_continuous (num_shops s) (interval_seconds s));
  _ ← try_except (loop ticks 0)
        (λ e, _ ← logger (Error_simulation e); lift (Raise e));
  logger Info_stopped.

(** The file names [glob] can return for the pattern [Shop-*-*.csv]. *)
Fixpoint endswith (suffix s : string) : bool :=
  String.eqb suffix s ||
  match s with
  | EmptyString => false
  | String _ s' => endswith suffix s'
  end.

Fixpoint contains (c : ascii) (s : string) : bool :=
  match s with
  | EmptyString => false
  | String d s' => Ascii.eqb c d || contains c s'
  end.

Definition glob_match (filename : string) : bool :=
  match filename with
  | String "S" (String "h" (String "o" (String "p" (String "-" rest)))) =>
      endswith ".csv" rest &&
      contains "-" (String.substring 0 (String.length rest - 4) rest) &&
      negb (contains "/" filename)
  | _ => false
  end.

(** A state before the constructor has run. *)
Definition boot (d : gmap string string) : state :=
  {| self := {| source_dir := EmptyString; dest_dir := EmptyString; num_shops := 0;
                interval_seconds := 0; current_index := 0; all_files := [];
                total_batches := 0 |};
     disk := d; log := [] |}.

(** [k] calls of [_get_next_batch] in a row; the batches, first call first. *)
Fixpoint next_batches (k : nat) : M (list (list string)) :=
  match k with
  | O => mret []
  | S k' =>
      b ← _get_next_batch;
      bs ← next_batches k';
      mret (b :: bs)
  end.

(** The object with its cursor moved, everything else as it was. *)
Definition with_index (s : DataSimulator) (i : Z) : DataSimulator :=
  {| source_dir := source_dir s; dest_dir := dest_dir s;
     num_shops := num_shops s; interval_seconds := interval_seconds s;
     current_index := i; all_files := all_files s;
     total_batches := total_batches s |}.

Definition at_index (st : state) (i : Z) : state :=
  {| self := with_index (self st) i; disk := disk st; log := log st |}.

Definition logged (st : state) (rs : list record) : state :=
  {| self := self st; disk := disk st; log := log st ++ rs |}.

(** The segment [[i, i+n)] of a list. *)
Definition segment {A} (i n : nat) (l : list A) : list A := take n (drop i l).

(** The cursor sits on a whole number of batches inside the corpus. *)
Definition aligned (st : state) : Prop :=
  ∃ j : Z, 0 ≤ j ∧ current_index (self st) = j * num_shops (self st)
           ∧ j * num_shops (self st) ≤ len (all_files (self st)).

(** [st'] differs from [st] in the cursor and the log only. *)
Definition same_corpus (st st' : state) : Prop :=
  self st' = with_index (self st) (current_index (self st')) ∧ disk st' = disk st.

(** *** Vocabulary for the statements *)

#[global] Instance exn_eq_dec : EqDecision exn.
Proof. solve_decision. Defined.

#[global] Instance datetime_eq_dec : EqDecision datetime.
Proof. solve_decision. Defined.

(** What one scanned path contributes to [file_timestamps], and to the log. *)
Definition entry_of (filepath : string) : list (datetime * Z * string) :=
  match parse_filename (Py.basename filepath) with
  | Ok (timestamp, shop_id) => [(timestamp, shop_id, filepath)]
  | Raise _ => []
  end.

Definition warning_of (filepath : string) : list record :=
  match parse_filename (Py.basename filepath) with
  | Ok _ => []
  | Raise e => [Warning_skipping (Py.basename filepath) e]
  end.

(** The successfully parsed entries of a listing, in scan order. *)
Definition parsed (files : list string) : list (datetime * Z * string) :=
  files ≫= entry_of.

Definition warnings (files : list string) : list record :=
  files ≫= warning_of.

(** The pair kept in the corpus. *)
Definition strip (x : datetime * Z * string) : datetime * string := (x.1.1, x.2).

(** Ascending order of the keys under a comparison [lt]: [y] is not below [x]. *)
Definition ascending_by {A K} (lt : K → K → bool) (keyof : A → K) (x y : A) : Prop :=
  lt (keyof y) (keyof x) = false.

(** The entries of [l] whose key is [k], in the order of [l]. *)
Definition with_key (k : key) (l : list (datetime * Z * string))
  : list (datetime * Z * string) :=
  filter (λ x, sort_key x = k) l.

(** The corpus built from a listing. *)
Definition corpus_of (files : list string) : list (datetime * string) :=
  strip <$> sort_by key_lt sort_key (parsed files).

(** The object a successful constructor call leaves behind. *)
Definition constructed (source_dir dest_dir : string) (num_shops interval_seconds : Z)
    (files : list string) : DataSimulator :=
  {| source_dir := source_dir; dest_dir := dest_dir; num_shops := num_shops;
     interval_seconds := interval_seconds; current_index := 0;
     all_files := corpus_of files;
     total_batches := len (corpus_of files) / num_shops |}.

(** An example object: five artifacts, two shops. *)
Definition five_files : list string :=
  ["/data/Shop-1-20210104-06.csv"; "/data/Shop-2-20210104-06.csv";
   "/data/Shop-1-20210104-07.csv"; "/data/Shop-2-20210104-07.csv";
   "/data/Shop-1-20210104-08.csv"].

Definition five_two : state :=
  {| self := constructed "/data" "/realtime" 2 3600 five_files;
     disk := ∅; log := [] |}.

(** An example object: one artifact, two shops. *)
Definition one_of_two : state :=
  {| self := constructed "/data" "/realtime" 2 3600 ["/data/Shop-1-20210104-06.csv"];
     disk := {[ "/data/Shop-1-20210104-06.csv" := "OrderID,ProductID" ]};
     log := [] |}.

(** Ascending order as the sort produces it: by timestamp first, by shop id
    among equal timestamps. *)
Definition ascending (x y : datetime * Z * string) : Prop :=
  datetime_lt x.1.1 y.1.1 = true ∨ (x.1.1 = y.1.1 ∧ x.1.2 ≤ y.1.2).

(** The segments of a file name that the parser looks at. *)
Definition segments (filename : string) : list string :=
  Py.split "-" (Py.replace ".csv" EmptyString filename).

(** A name the parser rejects: fewer than four segments, a second segment
    that [int] refuses, or a third and fourth that [strptime] refuses. *)
Definition unparsable (filename : string) : Prop :=
  (length (segments filename) < 4)%nat ∨
  (∃ p1, segments filename !! 1%nat = Some p1 ∧ is_ok (Py.int p1) = false) ∨
  (∃ d h, segments filename !! 2%nat = Some d ∧ segments filename !! 3%nat = Some h ∧
          is_ok (strptime (d +:+ "-" +:+ h)) = false).

(** A malformed name in the words of the specification: a segment count
    other than the four of [Shop-k-YYYYMMDD-hh], a shop id that is not a
    number, or an invalid date or hour. *)
Definition spec_malformed (filename : string) : Prop :=
  length (segments filename) ≠ 4%nat ∨
  (∃ p1, segments filename !! 1%nat = Some p1 ∧ is_ok (Py.int p1) = false) ∨
  (∃ d h, segments filename !! 2%nat = Some d ∧ segments filename !! 3%nat = Some h ∧
          is_ok (strptime (d +:+ "-" +:+ h)) = false).

(** An example listing: out of order, with one name whose shop id is not a
    number. *)
Definition mixed_listing : list string :=
  ["/data/Shop-2-20210101-00.csv"; "/data/Shop-abc-20210101-00.csv";
   "/data/Shop-1-20210101-01.csv"; "/data/Shop-1-20210101-00.csv"].

(** A name with a fifth segment. *)
Definition five_segments : string := "/data/Shop-1-20210104-06-copy.csv".

(** Two names of one directory that parse to the same timestamp and shop. *)
Definition twin_a : string := "/data/Shop-1-20210104-06.csv".
Definition twin_b : string := "/data/Shop-01-20210104-06.csv".

(** All the artifacts of a batch carry one timestamp in the corpus. *)
Definition same_tick (corpus : list (datetime * string)) (batch : list string) : Prop :=
  ∀ t1 t2 p1 p2,
    (t1, p1) ∈ corpus → (t2, p2) ∈ corpus → p1 ∈ batch → p2 ∈ batch → t1 = t2.

(** Every timestamp of the corpus has exactly [N] artifacts. *)
Definition complete_ticks (N : Z) (corpus : list (datetime * string)) : Prop :=
  ∀ t, t ∈ fst <$> corpus → len (filter (λ t', t' = t) (fst <$> corpus)) = N.

(** An example listing: one shop, two hours. *)
Definition two_hours : list string :=
  ["/data/Shop-1-20210104-06.csv"; "/data/Shop-1-20210104-07.csv"].

Definition two_hours_two_shops : state :=
  {| self := constructed "/data" "/realtime" 2 3600 two_hours;
     disk := ∅; log := [] |}.

(** An example listing: two shops, two hours. *)
Definition four_files : list string :=
  ["/data/Shop-2-20210104-07.csv"; "/data/Shop-1-20210104-06.csv";
   "/data/Shop-2-20210104-06.csv"; "/data/Shop-1-20210104-07.csv"].

(** Where [copy_batch] writes the copy of [source_path]. *)
Definition destination (dest : string) (source_path : string) : string :=
  Py.join dest (Py.basename source_path).

(** The state with [content] written at [path]. *)
Definition written (st : state) (path content : string) : state :=
  {| self := self st; disk := <[path := content]> (disk st); log := log st |}.

(** The effect of one transfer on the file system. *)
Definition copy_step (dest : string) (d : gmap string string) (source_path : string)
  : gmap string string :=
  match d !! source_path with
  | Some content =>
      if String.eqb source_path (destination dest source_path) then d
      else <[destination dest source_path := content]> d
  | None => d
  end.

(** The log line of an attempted transfer of [source_path]. *)
Definition attempt (source_path : string) (r : record) : Prop :=
  r = Debug_copied (Py.basename source_path) ∨
  ∃ e, r = Error_failed (Py.basename source_path) e.

Definition copied (r : record) : bool :=
  match r with Debug_copied _ => true | _ => false end.

Definition successes (rs : list record) : Z :=
  len (filter (λ r, copied r = true) rs).

(** Every path of the corpus has a name that parses, as after [__init__]. *)
Definition indexed (st : state) : Prop :=
  ∀ t p, (t, p) ∈ all_files (self st) →
         is_ok (parse_filename (Py.basename p)) = true.

(** An example: two artifacts, the source of the first one missing. *)
Definition one_missing : state :=
  {| self := constructed "/data" "/realtime" 2 3600
               ["/data/Shop-1-20210104-06.csv"; "/data/Shop-2-20210104-06.csv"];
     disk := {[ "/data/Shop-2-20210104-06.csv" := "OrderID,ProductID" ]};
     log := [] |}.

(** The write a transfer of [p] performs when sources are read from [d0]. *)
Definition write_of (dest : string) (d0 : gmap string string) (p : string)
  : option (string * string) :=
  match d0 !! p with
  | Some content =>
      if String.eqb p (destination dest p) then None
      else Some (destination dest p, content)
  | None => None
  end.

Definition inserts (kvs : list (string * string)) (d : gmap string string)
  : gmap string string :=
  foldl (λ m kv, <[kv.1 := kv.2]> m) d kvs.


(** *** [main]

    [args] are the parsed command-line arguments ([--source], [--dest],
    [--shops], [--interval], [--once]); [files] is the listing [glob.glob]
    returns in the constructor, [ticks] the number of rounds before the
    keyboard interrupt in continuous mode. *)
Record arguments : Type := {
  source : string;
  dest : string;
  shops : Z;
  interval : Z;
  once : bool
}.

Definition main (args : arguments) (files : list string) (ticks : nat) : M unit :=
  _ ← __init__ (source args) (dest args) (shops args) (interval args) files;
  if once args then (_ ← run_once; mret tt) else run_continuous ticks.

(** An artifact the copy loop can transfer from the file system [d]: its
    source is there and is not the destination itself. *)
Definition transferable (d : gmap string string) (dest source_path : string) : Prop :=
  is_Some (d !! source_path) ∧ destination dest source_path ≠ source_path.

#[global] Instance transferable_dec (d : gmap string string) (dest p : string) :
  Decision (transferable d dest p).
Proof. unfold transferable. apply _. Defined.

(** The paths a simulator can write to: [dest_dir/filename] for the files
    of its corpus. *)
Definition destinations (s : DataSimulator) : list string :=
  destination (dest_dir s) <$> (snd <$> all_files s).

(** [d'] has every file of [d], and differs from [d] at the paths [ws] only. *)
Definition only_writes (ws : list string) (d d' : gmap string string) : Prop :=
  (∀ x, x ∉ ws → d' !! x = d !! x) ∧ (∀ x, is_Some (d !! x) → is_Some (d' !! x)).

(** A method call that leaves the configuration and the corpus as they
    were and writes to destination paths only. *)
Definition frames (st st' : state) : Prop :=
  self st' = with_index (self st) (current_index (self st')) ∧
  only_writes (destinations (self st)) (disk st) (disk st').

(** A string of decimal digits, and the number it denotes when read from the
    left with [acc] already accumulated: what [int] computes on such a
    string. *)
Fixpoint all_digits (s : string) : bool :=
  match s with
  | EmptyString => true
  | String c s' => Py.isdigit c && all_digits s'
  end.

Fixpoint digits_value (acc : Z) (s : string) : Z :=
  match s with
  | EmptyString => acc
  | String c s' => digits_value (10 * acc + Py.digit_value c) s'
  end.

(** ** Text formatting *)

Module Format.

(** [str(n)] for an integer. *)
Definition str (n : Z) : string := NilZero.string_of_int (Z.to_int n).

Fixpoint zeros (n : nat) : string :=
  match n with
  | O => EmptyString
  | S n' => String "0" (zeros n')
  end.

(** [f"{n:0{width}d}"]: the sign, zeros up to the width, the digits. *)
Definition zero_padded (width : nat) (n : Z) : string :=
  let digits := str (Z.abs n) in
  let sign := if n <? 0 then "-" else EmptyString in
  sign +:+ zeros (width - String.length sign - String.length digits) +:+ digits.

(** [t.strftime('%Y%m%d')].  The C library writes the year as a plain
    decimal number, without padding. *)
Definition strftime (t : datetime) : string :=
  str (year t) +:+ zero_padded 2 (month t) +:+ zero_padded 2 (day t).

End Format.

(** [range(start, stop)]. *)
Definition range (start stop : Z) : list Z :=
  (λ i, start + Z.of_nat i) <$> seq 0 (Z.to_nat (stop - start)).

(** ** Dates *)

(** [datetime.strptime(s, '%Y-%m-%d')]: the regular expression is
    [(?P<Y>\d\d\d\d)-(?P<m>1[0-2]|0[1-9]|[1-9])-(?P<d>3[0-1]|[1-2]\d|0[1-9]|[1-9]| [1-9])],
    the time of day is midnight. *)
Definition matches_date (s : string) : list (string * string * string * string) :=
  '(Y, r1) ← Strptime.group Strptime.re_Y s;
  '(_, r2) ← Strptime.group Strptime.re_dash r1;
  '(m, r3) ← Strptime.group Strptime.re_m r2;
  '(_, r4) ← Strptime.group Strptime.re_dash r3;
  '(d, r5) ← Strptime.group Strptime.re_d r4;
  [(Y, m, d, r5)].

Definition strptime_date (s : string) : result datetime :=
  match matches_date s with
  | [] => Raise ValueError
  | (Y, m, d, rest) :: _ =>
      match rest with
      | String _ _ => Raise ValueError
      | EmptyString =>
          y ← Py.int Y;
          mo ← Py.int m;
          da ← Py.int d;
          if (1 <=? y) && (da <=? days_in_month y mo)
          then Ok (Datetime y mo da 0)
          else Raise ValueError
      end
  end.

(** [t + timedelta(days=1)]; [None] stands for [OverflowError] (there is no
    date after 31 December 9999). *)
Definition next_day (t : datetime) : option datetime :=
  if day t <? days_in_month (year t) (month t)
  then Some (Datetime (year t) (month t) (day t + 1) (hour t))
  else if month t <? 12 then Some (Datetime (year t) (month t + 1) 1 (hour t))
  else if year t <? 9999 then Some (Datetime (year t + 1) 1 1 (hour t))
  else None.

(** [t + timedelta(days=n)] for [n ≥ 0]. *)
Fixpoint add_days (t : datetime) (n : nat) : option datetime :=
  match n with
  | O => Some t
  | S n' => t' ← add_days t n'; next_day t'
  end.

(** The timestamp a file name stands for: a date and an hour. *)
Definition at_hour (t : datetime) (h : Z) : datetime :=
  Datetime (year t) (month t) (day t) h.

(** A date of the calendar. *)
Definition valid_date (t : datetime) : Prop :=
  1 ≤ year t ≤ 9999 ∧ 1 ≤ month t ≤ 12 ∧ 1 ≤ day t ≤ days_in_month (year t) (month t).

(** ** The generator of [generate_sample_data.py]

    The content of a file is drawn at random and is not represented: a run
    of the generator is the list of the paths it writes, in the order it
    writes them, and the way it ends. *)

Module Generator.

Inductive outcome : Type :=
| Returned
| OverflowError.

Record DataGenerator : Type := {
  output_dir : string;
  num_shops : Z;
  start_date : datetime;
  days : Z;
  total_files : Z
}.

Definition __init__ (output_dir : string) (num_shops : Z) (start_date : string)
    (days : Z) : result DataGenerator :=
  start_date ← strptime_date start_date;
  Ok {| output_dir := output_dir; num_shops := num_shops; start_date := start_date;
        days := days; total_files := num_shops * 24 * days |}.

(** The name and the path of the file of one shop and hour (the same
    expressions in [generate_all] and [generate_sample]). *)
Definition filename (shop_id : Z) (current_date : datetime) (hour : Z) : string :=
  "Shop-" +:+ Format.str shop_id +:+ "-" +:+ Format.strftime current_date +:+ "-"
    +:+ Format.zero_padded 2 hour +:+ ".csv".

Definition filepath (self : DataGenerator) (shop_id : Z) (current_date : datetime)
    (hour : Z) : string :=
  Py.join (output_dir self) (filename shop_id current_date hour).

(** A run that writes [written] and then goes on as [run]. *)
Definition after (written : list string) (run : list string * outcome)
  : list string * outcome :=
  (written ++ run.1, run.2).

(** *** [generate_all] *)

(** The innermost loop, over the shops, and the loop over the hours. *)
Definition hour_files (self : DataGenerator) (current_date : datetime) (hour : Z)
  : list string :=
  (λ shop_id, filepath self shop_id current_date hour) <$> range 1 (num_shops self + 1).

Definition day_files (self : DataGenerator) (current_date : datetime) : list string :=
  range 0 24 ≫= hour_files self current_date.

(** The loop over the days: [day] runs through [range(self.days)]. *)
Fixpoint all_loop (self : DataGenerator) (days : list Z) : list string * outcome :=
  match days with
  | [] => ([], Returned)
  | day :: days' =>
      match add_days (start_date self) (Z.to_nat day) with
      | None => ([], OverflowError)
      | Some current_date =>
          after (day_files self current_date) (all_loop self days')
      end
  end.

Definition generate_all (self : DataGenerator) : list string * outcome :=
  all_loop self (range 0 (days self)).

(** *** [generate_sample]

    The [while] loop: [remaining] is [num_files - files_created]. *)
Fixpoint sample_loop (self : DataGenerator) (remaining : nat) (shop_id hour : Z)
    (current_date : datetime) : list string * outcome :=
  match remaining with
  | O => ([], Returned)
  | S remaining' =>
      let file := filepath self shop_id current_date hour in
      let shop_id := shop_id + 1 in
      if num_shops self <? shop_id then
        let hour := hour + 1 in
        if 24 <=? hour then
          match next_day current_date with
          | None => ([file], OverflowError)
          | Some current_date =>
              after [file] (sample_loop self remaining' 1 0 current_date)
          end
        else after [file] (sample_loop self remaining' 1 hour current_date)
      else after [file] (sample_loop self remaining' shop_id hour current_date)
  end.

Definition generate_sample (self : DataGenerator) (num_files : Z)
  : list string * outcome :=
  sample_loop self (Z.to_nat num_files) 1 0 (start_date self).

(** *** [main] *)

Record arguments : Type := {
  output : string;
  shops : Z;
  start : string;
  ndays : Z;
  sample : Z
}.

Definition main (args : arguments) : result (list string * outcome) :=
  generator ← __init__ (output args) (shops args) (start args) (ndays args);
  if 0 <? sample args then Ok (generate_sample generator (sample args))
  else Ok (generate_all generator).

End Generator.

(** The dates [generate_all] goes through, and the entries the indexer is
    to read off the files of an hour, of a day and of a run. *)
Definition generated_dates (self : Generator.DataGenerator) : list datetime :=
  omap (add_days (Generator.start_date self))
       (seq 0 (Z.to_nat (Generator.days self))).

Definition stamped_hour (self : Generator.DataGenerator) (d : datetime) (h : Z)
  : list (datetime * Z * string) :=
  (λ shop_id, (at_hour d h, shop_id, Generator.filepath self shop_id d h))
    <$> range 1 (Generator.num_shops self + 1).

Definition stamped_day (self : Generator.DataGenerator) (d : datetime)
  : list (datetime * Z * string) :=
  range 0 24 ≫= stamped_hour self d.

(** Strictly ascending keys. *)
Definition before (x y : datetime * Z * string) : Prop :=
  key_lt (sort_key x) (sort_key y) = true.

(** The files of [generate_all], hour by hour. *)
Definition generated_hours (self : Generator.DataGenerator) : list (list string) :=
  generated_dates self ≫= (λ d, Generator.hour_files self d <$> range 0 24).

(** An example run: two shops, the last day of 2021 and the day after. *)
Definition new_year_args : Generator.arguments :=
  {| Generator.output := "/data"; Generator.shops := 2;
     Generator.start := "2021-12-31"; Generator.ndays := 2; Generator.sample := 0 |}.

Definition new_year_generator : Generator.DataGenerator :=
  {| Generator.output_dir := "/data"; Generator.num_shops := 2;
     Generator.start_date := Datetime 2021 12 31 0; Generator.days := 2;
     Generator.total_files := 96 |}.

Definition new_year_files : list string :=
  (Generator.generate_all new_year_generator).1.

(** * Properties *)

(** ** The library functions on sample inputs *)

Example int_leading_zero : Py.int "01" = Ok 1.
Proof. reflexivity. Qed.

Example int_spaces_and_underscore : Py.int " 1_0 " = Ok 10.
Proof. reflexivity. Qed.

Example int_letters : Py.int "abc" = Raise ValueError.
Proof. reflexivity. Qed.

Example int_double_underscore : Py.int "1__0" = Raise ValueError.
Proof. reflexivity. Qed.

Example int_empty : Py.int EmptyString = Raise ValueError.
Proof. reflexivity. Qed.

Example replace_is_one_pass : Py.replace ".csv" EmptyString "..csvcsv" = ".csv".
Proof. reflexivity. Qed.

Example segments_of_name :
  segments "Shop-6-20210104-06.csv" = ["Shop"; "6"; "20210104"; "06"].
Proof. reflexivity. Qed.

Example slice_negative_stop : Py.slice [1; 2; 3; 4; 5] 0 (-1) = [1; 2; 3; 4].
Proof. reflexivity. Qed.

Example slice_past_the_end : Py.slice [1; 2; 3; 4; 5] 3 7 = [4; 5].
Proof. reflexivity. Qed.

Example slice_crossed : Py.slice [1; 2; 3; 4; 5] 2 1 = [].
Proof. reflexivity. Qed.

Example basename_of_path : Py.basename "/data/Shop-1-20210104-06.csv" = "Shop-1-20210104-06.csv".
Proof. reflexivity. Qed.

Example join_plain : Py.join "/realtime" "a.csv" = "/realtime/a.csv".
Proof. reflexivity. Qed.

Example join_trailing_slash : Py.join "/realtime/" "a.csv" = "/realtime/a.csv".
Proof. reflexivity. Qed.

Example strptime_plain : strptime "20210104-06" = Ok (Datetime 2021 1 4 6).
Proof. reflexivity. Qed.

Example strptime_backtracks : strptime "2021120-06" = Ok (Datetime 2021 1 20 6).
Proof. reflexivity. Qed.

Example strptime_hour_24 : strptime "20210104-24" = Raise ValueError.
Proof. reflexivity. Qed.

Example strptime_february_29 : strptime "20210229-00" = Raise ValueError.
Proof. reflexivity. Qed.

Example strptime_leap_day : strptime "20200229-00" = Ok (Datetime 2020 2 29 0).
Proof. reflexivity. Qed.

Example strptime_year_zero : strptime "00000101-00" = Raise ValueError.
Proof. reflexivity. Qed.

Example glob_needs_two_dashes : glob_match "Shop-1.csv" = false.
Proof. reflexivity. Qed.

(** The scenario of two shops and two hours: the third call wraps. *)
Example two_by_two_scenario :
  (next_batches 3 {| self := constructed "/data" "/realtime" 2 3600 four_files;
                     disk := ∅; log := [] |}).1 =
  Ok [["/data/Shop-1-20210104-06.csv"; "/data/Shop-2-20210104-06.csv"];
      ["/data/Shop-1-20210104-07.csv"; "/data/Shop-2-20210104-07.csv"];
      ["/data/Shop-1-20210104-06.csv"; "/data/Shop-2-20210104-06.csv"]].
Proof. reflexivity. Qed.

(** ** Slices *)

Lemma slice_segment {A} (l : list A) (a n : Z) :
  0 ≤ a → 0 ≤ n → a + n ≤ len l →
  Py.slice l a (a + n) = segment (Z.to_nat a) (Z.to_nat n) l.
Proof.
  intros Ha Hn Hl. unfold Py.slice, Py.adjust_index, segment, len in *.
  destruct (Z.ltb_spec a 0); [lia|].
  destruct (Z.ltb_spec (a + n) 0); [lia|].
  rewrite !Z.min_l by lia. f_equal. lia.
Qed.

Lemma slice_short {A} (l : list A) (n : Z) :
  len l ≤ n → Py.slice l 0 n = l.
Proof.
  intros Hl. unfold Py.slice, Py.adjust_index, len in *.
  destruct (Z.ltb_spec n 0); [lia|].
  rewrite Z.min_r by lia. simpl. rewrite Z.min_l by lia.
  rewrite Z.sub_0_r, Nat2Z.id. simpl. apply take_ge. lia.
Qed.

Lemma slice_subseteq {A} (l : list A) (a b : Z) : Py.slice l a b ⊆ l.
Proof.
  unfold Py.slice. intros x Hx.
  apply (subseteq_drop (Z.to_nat (Py.adjust_index (Z.of_nat (length l)) a)) l).
  eapply subseteq_take, Hx.
Qed.

(** ** The scheduler *)

Lemma get_next_batch_unfold (st : state) :
  let s := self st in
  _get_next_batch st =
    if len (all_files s) <? current_index s + num_shops s
    then (Ok (snd <$> Py.slice (all_files s) 0 (num_shops s)),
          at_index (logged st [Warning_restart]) (num_shops s))
    else (Ok (snd <$> Py.slice (all_files s) (current_index s)
                        (current_index s + num_shops s)),
          at_index st (current_index s + num_shops s)).
Proof.
  destruct st as [[] ? ?]; simpl.
  unfold _get_next_batch, mbind, M_bind; simpl.
  destruct (_ <? _); reflexivity.
Qed.

Lemma get_next_batch_advance (st : state) :
  let s := self st in
  0 ≤ current_index s → 0 ≤ num_shops s →
  current_index s + num_shops s ≤ len (all_files s) →
  _get_next_batch st =
    (Ok (snd <$> segment (Z.to_nat (current_index s)) (Z.to_nat (num_shops s))
                   (all_files s)),
     at_index st (current_index s + num_shops s)).
Proof.
  intros s Hc Hn Hle. rewrite get_next_batch_unfold. fold s.
  destruct (Z.ltb_spec (len (all_files s)) (current_index s + num_shops s)); [lia|].
  by rewrite slice_segment.
Qed.

Lemma get_next_batch_wrap (st : state) :
  let s := self st in
  0 ≤ num_shops s → num_shops s ≤ len (all_files s) →
  len (all_files s) < current_index s + num_shops s →
  _get_next_batch st =
    (Ok (snd <$> segment 0 (Z.to_nat (num_shops s)) (all_files s)),
     at_index (logged st [Warning_restart]) (num_shops s)).
Proof.
  intros s Hn Hle Hlt. rewrite get_next_batch_unfold. fold s.
  destruct (Z.ltb_spec (len (all_files s)) (current_index s + num_shops s)); [|lia].
  by rewrite (slice_segment _ 0 (num_shops s)).
Qed.

Lemma at_index_same (st : state) : at_index st (current_index (self st)) = st.
Proof. by destruct st as [[] ? ?]. Qed.

Lemma at_index_twice (st : state) (i j : Z) :
  at_index (at_index st i) j = at_index st j.
Proof. reflexivity. Qed.

Lemma same_corpus_refl (st : state) : same_corpus st st.
Proof. split; [by destruct st as [[] ? ?]|done]. Qed.

Lemma same_corpus_trans (st1 st2 st3 : state) :
  same_corpus st1 st2 → same_corpus st2 st3 → same_corpus st1 st3.
Proof.
  intros [H1 D1] [H2 D2]. split; [|congruence].
  rewrite H2, H1. reflexivity.
Qed.

Lemma same_corpus_fields (st st' : state) :
  same_corpus st st' →
  num_shops (self st') = num_shops (self st) ∧
  all_files (self st') = all_files (self st) ∧
  dest_dir (self st') = dest_dir (self st).
Proof. intros [-> _]. done. Qed.

Lemma get_next_batch_aligned (st : state) :
  0 < num_shops (self st) →
  num_shops (self st) ≤ len (all_files (self st)) →
  aligned st →
  ∃ batch st',
    _get_next_batch st = (Ok batch, st') ∧ same_corpus st st' ∧
    (∃ j : Z, 0 < j ∧ current_index (self st') = j * num_shops (self st)
              ∧ j * num_shops (self st) ≤ len (all_files (self st))
              ∧ batch = snd <$> segment (Z.to_nat ((j - 1) * num_shops (self st)))
                                  (Z.to_nat (num_shops (self st)))
                                  (all_files (self st))).
Proof.
  intros HN HM (j & Hj & Hc & Hle).
  destruct (Z_le_gt_dec (current_index (self st) + num_shops (self st))
              (len (all_files (self st)))) as [Hin|Hout].
  - eexists _, _. split; [apply get_next_batch_advance; lia|].
    split; [by split|]. exists (j + 1). simpl.
    repeat split; try lia.
    by replace ((j + 1 - 1) * num_shops (self st)) with (current_index (self st)) by lia.
  - eexists _, _. split; [apply get_next_batch_wrap; lia|].
    split; [by split|]. exists 1. simpl.
    repeat split; try lia.
Qed.

Lemma next_batches_aligned (k : nat) (st : state) :
  0 < num_shops (self st) →
  num_shops (self st) ≤ len (all_files (self st)) →
  aligned st →
  ∃ bs st',
    next_batches k st = (Ok bs, st') ∧ length bs = k ∧ same_corpus st st' ∧
    aligned st' ∧ (k ≠ 0%nat → 0 < current_index (self st')).
Proof.
  revert st. induction k as [|k IH]; intros st HN HM Hal.
  - exists [], st. repeat split; try done. apply same_corpus_refl.
  - destruct (get_next_batch_aligned st HN HM Hal)
      as (b & st1 & Hb & Hsc & j & Hj & Hc & Hle & _).
    destruct (same_corpus_fields _ _ Hsc) as (HN1 & HF1 & _).
    destruct (IH st1) as (bs & st2 & Hbs & Hlen & Hsc2 & Hal2 & Hpos).
    { by rewrite HN1. } { by rewrite HN1, HF1. }
    { exists j. rewrite HN1, HF1. repeat split; lia. }
    exists (b :: bs), st2. split.
    { simpl. unfold mbind, M_bind at 1. rewrite Hb.
      unfold mbind, M_bind. rewrite Hbs. reflexivity. }
    split; [simpl; lia|]. split; [by eapply same_corpus_trans|].
    split; [done|]. intros _.
    destruct k; [|by apply Hpos].
    simpl in Hbs. injection Hbs as _ <-. nia.
Qed.

Lemma aligned_start (st : state) : current_index (self st) = 0 → aligned st.
Proof. intros H. exists 0. rewrite H. unfold len. lia. Qed.

(** ** The indexer *)

Lemma scan_files_spec (files : list string) (acc : list (datetime * Z * string))
    (st : state) :
  scan_files files acc st = (Ok (acc ++ parsed files), logged st (warnings files)).
Proof.
  revert acc st. induction files as [|fp files IH]; intros acc st.
  - simpl. rewrite app_nil_r. unfold logged. rewrite app_nil_r. by destruct st.
  - simpl. unfold parsed, warnings. simpl.
    unfold entry_of at 1, warning_of at 1.
    destruct (parse_filename (Py.basename fp)) as [[ts sid]|e].
    + rewrite IH. by rewrite <- app_assoc.
    + unfold mbind at 1, M_bind. simpl. rewrite IH. unfold logged. simpl.
      by rewrite <- app_assoc.
Qed.

Lemma get_sorted_files_spec (files : list string) (st : state) :
  _get_sorted_files files st =
    (Ok (corpus_of files), logged st (warnings files)).
Proof.
  unfold _get_sorted_files, mbind, M_bind. by rewrite scan_files_spec.
Qed.

(** ** The stable sort *)

Section SortFacts.
Context {A K : Type} `{!EqDecision K} (lt : K → K → bool) (keyof : A → K).
Hypothesis lt_irrefl : ∀ a, lt a a = false.
Hypothesis lt_trans : ∀ a b c, lt a b = true → lt b c = true → lt a c = true.
Hypothesis lt_connex : ∀ a b, lt a b = false → lt b a = false → a = b.

Local Abbreviation le := (ascending_by lt keyof).

Lemma lt_asym a b : lt a b = true → lt b a = false.
Proof.
  intros Hab. destruct (lt b a) eqn:Hba; [|done].
  pose proof (lt_irrefl a) as Hi. by rewrite (lt_trans _ _ _ Hab Hba) in Hi.
Qed.

Lemma le_trans x y z : le x y → le y z → le x z.
Proof.
  unfold le. intros Hxy Hyz.
  destruct (lt (keyof z) (keyof x)) eqn:Hzx; [|done].
  destruct (lt (keyof x) (keyof y)) eqn:Hxy'.
  - by rewrite (lt_trans _ _ _ Hzx Hxy') in Hyz.
  - rewrite (lt_connex _ _ Hxy' Hxy) in Hzx. congruence.
Qed.

Lemma insert_by_perm x l : insert_by lt keyof x l ≡ₚ x :: l.
Proof.
  induction l as [|y l IH]; simpl; [done|].
  destruct (lt (keyof y) (keyof x)); [|done].
  rewrite IH. apply Permutation_swap.
Qed.

Lemma sort_by_perm l : sort_by lt keyof l ≡ₚ l.
Proof.
  induction l as [|x l IH]; simpl; [done|].
  by rewrite insert_by_perm, IH.
Qed.

Lemma insert_by_sorted x l :
  StronglySorted le l → StronglySorted le (insert_by lt keyof x l).
Proof.
  induction 1 as [|y l Hs IH Hy]; simpl.
  - repeat constructor.
  - destruct (lt (keyof y) (keyof x)) eqn:Hyx.
    + constructor; [done|].
      rewrite Forall_forall in Hy |- *. intros z Hz.
      rewrite insert_by_perm in Hz.
      apply elem_of_cons in Hz as [->|Hz]; [by apply lt_asym|by apply Hy].
    + constructor; [by constructor|].
      constructor; [done|].
      rewrite Forall_forall in Hy |- *. intros z Hz.
      eapply le_trans; [exact Hyx|by apply Hy].
Qed.

Lemma sort_by_sorted l : StronglySorted le (sort_by lt keyof l).
Proof.
  induction l; simpl; [constructor|by apply insert_by_sorted].
Qed.

Lemma insert_by_stable k x l :
  filter (λ y, keyof y = k) (insert_by lt keyof x l)
  = filter (λ y, keyof y = k) (x :: l).
Proof.
  induction l as [|y l IH]; simpl; [done|].
  destruct (lt (keyof y) (keyof x)) eqn:Hyx; [|done].
  rewrite (filter_cons _ y), IH, !filter_cons.
  destruct (decide (keyof y = k)) as [Hy|]; [|done].
  destruct (decide (keyof x = k)) as [Hx|]; [|done].
  rewrite Hy, Hx, lt_irrefl in Hyx. done.
Qed.

Lemma sort_by_stable k l :
  filter (λ y, keyof y = k) (sort_by lt keyof l) = filter (λ y, keyof y = k) l.
Proof.
  induction l as [|x l IH]; simpl; [done|].
  by rewrite insert_by_stable, !filter_cons, IH.
Qed.

(** Two ascending lists with the same entries under every key, in the
    same order, are the same list. *)
Lemma sorted_stable_unique l1 l2 :
  StronglySorted le l1 → StronglySorted le l2 →
  (∀ k, filter (λ y, keyof y = k) l1 = filter (λ y, keyof y = k) l2) →
  l1 = l2.
Proof.
  intros H1. revert l2. induction H1 as [|x l1 Hs1 IH Hx]; intros l2 H2 Hf.
  - destruct l2 as [|y l2]; [done|].
    specialize (Hf (keyof y)). rewrite filter_cons_True in Hf by done. done.
  - destruct H2 as [|y l2 Hs2 Hy].
    { specialize (Hf (keyof x)). rewrite filter_cons_True in Hf by done. done. }
    assert (keyof x = keyof y) as Hk.
    { apply lt_connex.
      - assert (x ∈ y :: l2) as Hin.
        { eapply (list_elem_of_filter (λ z, keyof z = keyof x)).
          rewrite <- Hf, filter_cons_True by done. left. }
        apply elem_of_cons in Hin as [->|Hin]; [apply lt_irrefl|].
        rewrite Forall_forall in Hy. by apply (Hy x).
      - assert (y ∈ x :: l1) as Hin.
        { eapply (list_elem_of_filter (λ z, keyof z = keyof y)).
          rewrite Hf, filter_cons_True by done. left. }
        apply elem_of_cons in Hin as [->|Hin]; [apply lt_irrefl|].
        rewrite Forall_forall in Hx. by apply (Hx y). }
    pose proof (Hf (keyof x)) as Hh.
    rewrite filter_cons_True in Hh by done.
    rewrite filter_cons_True in Hh by done.
    injection Hh as -> Hh. f_equal. apply IH; [done|].
    intros k. specialize (Hf k). rewrite !filter_cons in Hf.
    destruct (decide (keyof y = k)); [by injection Hf|done].
Qed.
End SortFacts.

(** ** The order of the sort keys *)

Ltac bool_to_Z :=
  repeat match goal with
  | H : _ = false |- _ => apply not_true_iff_false in H
  | |- _ = false => apply not_true_iff_false
  end;
  rewrite ?andb_true_iff, ?orb_true_iff, ?Z.ltb_lt, ?Z.eqb_eq in *.

Lemma datetime_eq_spec (a b : datetime) : datetime_eq a b = true ↔ a = b.
Proof.
  destruct a, b. unfold datetime_eq. simpl. bool_to_Z.
  split; [intros [[[-> ->] ->] ->]; done|]. intros [= -> -> -> ->]. done.
Qed.

Lemma datetime_lt_irrefl (a : datetime) : datetime_lt a a = false.
Proof. destruct a. unfold datetime_lt. simpl. bool_to_Z. lia. Qed.

Lemma datetime_lt_trans (a b c : datetime) :
  datetime_lt a b = true → datetime_lt b c = true → datetime_lt a c = true.
Proof.
  destruct a, b, c. unfold datetime_lt. simpl. bool_to_Z. lia.
Qed.

Lemma datetime_lt_connex (a b : datetime) :
  datetime_lt a b = false → datetime_lt b a = false → a = b.
Proof.
  destruct a, b. unfold datetime_lt. simpl. intros H1 H2. bool_to_Z.
  assert (year0 = year1 ∧ month0 = month1 ∧ day0 = day1 ∧ hour0 = hour1)
    as (-> & -> & -> & ->) by lia.
  done.
Qed.

Lemma key_lt_irrefl (a : key) : key_lt a a = false.
Proof.
  unfold key_lt. destruct (datetime_eq a.1 a.1); [apply Z.ltb_irrefl|].
  apply datetime_lt_irrefl.
Qed.

Lemma key_lt_trans (a b c : key) :
  key_lt a b = true → key_lt b c = true → key_lt a c = true.
Proof.
  destruct a as [ta ia], b as [tb ib], c as [tc ic]. unfold key_lt. simpl.
  destruct (datetime_eq ta tb) eqn:Hab.
  { apply datetime_eq_spec in Hab as ->.
    destruct (datetime_eq tb tc) eqn:Hbc; [|done].
    rewrite !Z.ltb_lt. lia. }
  destruct (datetime_eq tb tc) eqn:Hbc.
  { apply datetime_eq_spec in Hbc as ->. by rewrite Hab. }
  intros H1 H2. pose proof (datetime_lt_trans _ _ _ H1 H2) as H3.
  destruct (datetime_eq ta tc) eqn:Hac; [|done].
  apply datetime_eq_spec in Hac as ->.
  pose proof (datetime_lt_trans _ _ _ H2 H1) as H4.
  by rewrite datetime_lt_irrefl in H4.
Qed.

Lemma key_lt_connex (a b : key) :
  key_lt a b = false → key_lt b a = false → a = b.
Proof.
  destruct a as [ta ia], b as [tb ib]. unfold key_lt. simpl.
  destruct (datetime_eq ta tb) eqn:Hab.
  - apply datetime_eq_spec in Hab as ->.
    replace (datetime_eq tb tb) with true by (symmetry; by apply datetime_eq_spec).
    intros H1 H2. bool_to_Z. f_equal. lia.
  - destruct (datetime_eq tb ta) eqn:Hba.
    { apply datetime_eq_spec in Hba as ->.
      assert (datetime_eq ta ta = true) by by apply datetime_eq_spec. congruence. }
    intros H1 H2. pose proof (datetime_lt_connex _ _ H1 H2) as ->.
    assert (datetime_eq tb tb = true) by by apply datetime_eq_spec. congruence.
Qed.

(** ** The constructor *)

Lemma init_spec (source dest : string) (N T : Z) (files : list string) (st : state) :
  N ≠ 0 →
  __init__ source dest N T files st =
    (Ok tt,
     {| self := constructed source dest N T files;
        disk := disk st;
        log := log st ++ warnings files
               ++ [Info_initialized (len (corpus_of files))
                     (len (corpus_of files) / N)] |}).
Proof.
  intros HN. unfold __init__, mbind, M_bind. simpl.
  rewrite get_sorted_files_spec. simpl.
  unfold lift, Py.floordiv. destruct (Z.eqb_spec N 0); [done|]. simpl.
  unfold logger, constructed. simpl. by rewrite <- app_assoc.
Qed.

Lemma init_zero_shops (source dest : string) (T : Z) (files : list string) (st : state) :
  (__init__ source dest 0 T files st).1 = Raise ZeroDivisionError.
Proof.
  unfold __init__, mbind, M_bind. simpl.
  rewrite get_sorted_files_spec. reflexivity.
Qed.

(** C1. For a scheduler with shard count [N > 0] over a corpus of length
    [M >= N], started with the cursor at 0, every call of [_get_next_batch]
    (the call that follows any number [k] of earlier calls) obeys the two-state
    rule: when [cursor + N <= M] it returns the segment [[cursor, cursor+N)]
    of the corpus and leaves the cursor at [cursor + N]; when
    [cursor + N > M] it logs the restart, returns the segment [[0, N)] and
    leaves the cursor at [N].  Nothing else of the object changes. *)
Theorem next_batch_two_state_rule (st0 : state) (k : nat) :
  let N := num_shops (self st0) in
  let corpus := all_files (self st0) in
  0 < N → N ≤ len corpus → current_index (self st0) = 0 →
  let st := (next_batches k st0).2 in
  let cursor := current_index (self st) in
  0 ≤ cursor ∧ num_shops (self st) = N ∧ all_files (self st) = corpus ∧
  (cursor + N ≤ len corpus →
     _get_next_batch st =
       (Ok (snd <$> segment (Z.to_nat cursor) (Z.to_nat N) corpus),
        at_index st (cursor + N))) ∧
  (cursor + N > len corpus →
     _get_next_batch st =
       (Ok (snd <$> segment 0 (Z.to_nat N) corpus),
        at_index (logged st [Warning_restart]) N)).
Proof.
  intros N corpus HN HM H0 st cursor.
  destruct (next_batches_aligned k st0 HN HM (aligned_start _ H0))
    as (bs & st' & Hrun & _ & Hsc & (j & Hj & Hc & _) & _).
  assert (st = st') as Hst by (unfold st; by rewrite Hrun).
  destruct (same_corpus_fields _ _ Hsc) as (HN' & HF' & _).
  rewrite <- Hst in *. fold N in HN'. fold corpus in HF'.
  assert (0 ≤ cursor) by (unfold cursor; rewrite Hc, HN'; nia).
  repeat split; try done.
  - intros Hle. rewrite <- HN', <- HF'.
    apply get_next_batch_advance; rewrite ?HN', ?HF'; fold cursor; lia.
  - intros Hgt. rewrite <- HN', <- HF'.
    apply get_next_batch_wrap; rewrite ?HN', ?HF'; fold cursor; lia.
Qed.

Lemma next_batch_two_state_rule_witness :
  let st := (next_batches 2 five_two).2 in
  current_index (self st) = 4 ∧
  _get_next_batch st =
    (Ok ["/data/Shop-1-20210104-06.csv"; "/data/Shop-2-20210104-06.csv"],
     at_index (logged st [Warning_restart]) 2).
Proof.
  split; [reflexivity|].
  destruct (next_batch_two_state_rule five_two 2) as (_ & _ & _ & _ & Hwrap).
  - reflexivity.
  - vm_compute. discriminate.
  - reflexivity.
  - exact (Hwrap eq_refl).
Defined.

Lemma next_batches_snoc (k : nat) (st : state) :
  next_batches (S k) st =
    match next_batches k st with
    | (Ok bs, st') =>
        match _get_next_batch st' with
        | (Ok b, st'') => (Ok (bs ++ [b]), st'')
        | (Raise e, st'') => (Raise e, st'')
        end
    | (Raise e, st') => (Raise e, st')
    end.
Proof.
  revert st. induction k as [|k IH]; intros st.
  - simpl. unfold mbind, M_bind. simpl.
    by destruct (_get_next_batch st) as [[b|e] st1].
  - change (next_batches (S (S k)) st)
      with ((b ← _get_next_batch; bs ← next_batches (S k); mret (b :: bs)) st).
    change (next_batches (S k) st)
      with ((b ← _get_next_batch; bs ← next_batches k; mret (b :: bs)) st).
    unfold mbind, M_bind.
    destruct (_get_next_batch st) as [[b|e] st1]; [|done].
    rewrite IH. destruct (next_batches k st1) as [[bs|e] st2]; [|done].
    unfold mret, M_ret. simpl.
    by destruct (_get_next_batch st2) as [[b'|e] st3].
Qed.

(** C10. For shard count [N > 0] and a corpus of length [M >= N]: the
    constructor leaves the cursor at 0; started from cursor 0, after every
    call of [_get_next_batch] (here the call number [k+1]) the cursor is a
    positive multiple of [N] and at most [M]; and the batch that call
    returned starts at an index of the corpus that is a multiple of [N]. *)
Theorem cursor_alignment (st0 : state) (k : nat) :
  let N := num_shops (self st0) in
  let corpus := all_files (self st0) in
  0 < N → N ≤ len corpus → current_index (self st0) = 0 →
  (∀ source dest T files st,
     current_index (self (__init__ source dest N T files st).2) = 0) ∧
  let st := (next_batches (S k) st0).2 in
  (∃ j : Z, 0 < j ∧ current_index (self st) = j * N) ∧
  current_index (self st) ≤ len corpus ∧
  ∃ (i : Z) (earlier : list (list string)) (batch : list string),
    (next_batches (S k) st0).1 = Ok (earlier ++ [batch]) ∧
    length earlier = k ∧ 0 ≤ i ∧
    batch = snd <$> segment (Z.to_nat (i * N)) (Z.to_nat N) corpus.
Proof.
  intros N corpus HN HM H0. split.
  { intros. rewrite init_spec by lia. reflexivity. }
  rewrite next_batches_snoc.
  destruct (next_batches_aligned k st0 HN HM (aligned_start _ H0))
    as (bs & st1 & -> & Hlen & Hsc & Hal & _).
  destruct (same_corpus_fields _ _ Hsc) as (HN' & HF' & _).
  destruct (get_next_batch_aligned st1) as (b & st2 & -> & _ & j & Hj & Hc & Hle & Hb);
    rewrite ?HN', ?HF'; try done.
  rewrite HN', HF' in *. simpl. fold N corpus in Hc, Hle, Hb |- *.
  split; [by exists j|]. split; [lia|].
  exists (j - 1), bs, b. repeat split; try done. lia.
Qed.

Lemma cursor_alignment_witness :
  let st := (next_batches 3 five_two).2 in
  (∃ j : Z, 0 < j ∧ current_index (self st) = j * 2) ∧
  current_index (self st) ≤ 5.
Proof.
  destruct (cursor_alignment five_two 2) as (_ & Hj & Hle & _).
  - reflexivity.
  - vm_compute. discriminate.
  - reflexivity.
  - split; [exact Hj | exact Hle].
Defined.

(** ** One cycle through the corpus *)

Lemma fmap_segment {A B} (f : A → B) (i n : nat) (l : list A) :
  f <$> segment i n l = segment i n (f <$> l).
Proof. unfold segment. by rewrite fmap_take, fmap_drop. Qed.

Lemma segment_app {A} (i n m : nat) (l : list A) :
  segment i n l ++ segment (i + n) m l = segment i (n + m) l.
Proof.
  unfold segment. rewrite <- (take_take_drop (drop i l) n m).
  by rewrite drop_drop.
Qed.

Lemma concat_segments {A} (n j k : nat) (l : list A) :
  concat ((λ i, segment (i * n) n l) <$> seq j k) = segment (j * n) (k * n) l.
Proof.
  revert j. induction k as [|k IH]; intros j; simpl.
  - unfold segment. by rewrite take_0.
  - rewrite IH. replace (S j * n)%nat with (j * n + n)%nat by lia.
    apply segment_app.
Qed.

Lemma next_batches_tiling (k j : nat) (st : state) :
  let N := num_shops (self st) in
  let n := Z.to_nat N in
  0 < N →
  current_index (self st) = Z.of_nat j * N →
  (Z.of_nat j + Z.of_nat k) * N ≤ len (all_files (self st)) →
  next_batches k st =
    (Ok ((λ i, snd <$> segment (i * n) n (all_files (self st))) <$> seq j k),
     at_index st ((Z.of_nat j + Z.of_nat k) * N)).
Proof.
  intros N n HN. revert j st N n HN. induction k as [|k IH]; intros j st N n HN Hc Hle.
  - simpl. unfold mret, M_ret. f_equal.
    rewrite Z.add_0_r, <- Hc. symmetry. apply at_index_same.
  - change (next_batches (S k) st)
      with ((b ← _get_next_batch; bs ← next_batches k; mret (b :: bs)) st).
    unfold mbind, M_bind.
    rewrite get_next_batch_advance by (fold N; nia).
    rewrite (IH (S j)); simpl; fold N; try done; try nia.
    unfold mret, M_ret. f_equal.
    + f_equal. f_equal. f_equal. fold N. rewrite Hc. unfold n.
      rewrite Z2Nat.inj_mul, Nat2Z.id by lia. reflexivity.
    + unfold at_index. simpl. f_equal. f_equal. nia.
Qed.

(** C3. For a corpus of length [M >= N > 0] and the cursor at 0, a cycle has
    [q = floor(M/N)] complete ticks: the first [q] calls return the
    consecutive segments [[i*N, (i+1)*N)], [i < q], each of [N] paths, which
    tile the first [q*N] paths of the corpus; the call after them returns
    the first batch [[0, N)] again; and the [M mod N] paths that follow the
    tiled part are in none of the [q] batches (as positions of the corpus,
    and as paths when the corpus lists every path once). *)
Theorem wraparound_cycle (st0 : state) :
  let N := num_shops (self st0) in
  let paths := snd <$> all_files (self st0) in
  let M := len (all_files (self st0)) in
  let n := Z.to_nat N in
  let q := Z.to_nat (M / N) in
  0 < N → N ≤ M → current_index (self st0) = 0 →
  ∃ (batches : list (list string)) (st1 : state),
    next_batches q st0 = (Ok batches, st1) ∧
    batches = (λ i, segment (i * n) n paths) <$> seq 0 q ∧
    Forall (λ b, length b = n) batches ∧
    concat batches = take (q * n) paths ∧
    (_get_next_batch st1).1 = Ok (segment 0 n paths) ∧
    head batches = Some (segment 0 n paths) ∧
    paths = concat batches ++ drop (q * n) paths ∧
    length (drop (q * n) paths) = Z.to_nat (M mod N) ∧
    (NoDup paths →
       NoDup (concat batches) ∧
       ∀ p, p ∈ drop (q * n) paths → p ∉ concat batches).
Proof.
  intros N paths M n q HN HM H0.
  assert (Z.of_nat q = M / N) as Hq.
  { unfold q. rewrite Z2Nat.id; [done|]. apply Z.div_pos; unfold M, len; lia. }
  assert (M = N * (M / N) + M mod N) as Hdiv by (apply Z.div_mod; lia).
  pose proof (Z.mod_pos_bound M N HN) as Hmod.
  assert (length paths = length (all_files (self st0))) as Hlp
    by (unfold paths; by rewrite length_fmap).
  assert (Z.of_nat (q * n) = (M / N) * N) as Hqn.
  { rewrite Nat2Z.inj_mul, Hq. unfold n. rewrite Z2Nat.id by lia. done. }
  assert (q * n ≤ length paths)%nat as Hfit by (unfold M, len in *; nia).
  assert (1 ≤ q)%nat as Hq1 by nia.
  assert ((λ i, snd <$> segment (i * n) n (all_files (self st0))) <$> seq 0 q
          = (λ i, segment (i * n) n paths) <$> seq 0 q) as Hbs.
  { apply list_fmap_ext. intros _ i _. apply fmap_segment. }
  assert (concat ((λ i, segment (i * n) n paths) <$> seq 0 q)
          = take (q * n) paths) as Hcat.
  { rewrite concat_segments. reflexivity. }
  exists ((λ i, segment (i * n) n paths) <$> seq 0 q),
         (at_index st0 ((Z.of_nat 0 + Z.of_nat q) * N)).
  split.
  { rewrite <- Hbs. apply (next_batches_tiling q 0 st0); fold N; fold M; try done.
    simpl. rewrite Hq. nia. }
  split; [done|]. split.
  { apply Forall_fmap, Forall_forall. intros i Hi. simpl.
    apply elem_of_seq in Hi. unfold segment.
    rewrite length_take, length_drop. nia. }
  split; [done|]. split.
  { rewrite get_next_batch_wrap; simpl; fold N; fold M; try lia.
    fold n. by rewrite fmap_segment. }
  split. { destruct q; [lia|]. reflexivity. }
  split. { rewrite Hcat. by rewrite take_drop. }
  split. { rewrite length_drop. unfold M, len in *. nia. }
  intros Hnd. rewrite Hcat.
  rewrite <- (take_drop (q * n) paths) in Hnd.
  apply NoDup_app in Hnd as (Hnd1 & Hdisj & _).
  split; [done|]. intros p Hp Hp'. by apply (Hdisj p).
Qed.

Lemma wraparound_cycle_witness :
  ∃ st1,
    next_batches 2 five_two =
      (Ok [["/data/Shop-1-20210104-06.csv"; "/data/Shop-2-20210104-06.csv"];
           ["/data/Shop-1-20210104-07.csv"; "/data/Shop-2-20210104-07.csv"]], st1) ∧
    (_get_next_batch st1).1 =
      Ok ["/data/Shop-1-20210104-06.csv"; "/data/Shop-2-20210104-06.csv"] ∧
    drop 4 (snd <$> all_files (self five_two)) = ["/data/Shop-1-20210104-08.csv"].
Proof.
  destruct (wraparound_cycle five_two) as (bs & st1 & Hrun & -> & _ & _ & Hnext & _).
  - reflexivity.
  - vm_compute. discriminate.
  - reflexivity.
  - exists st1. split; [exact Hrun|]. split; [exact Hnext|]. reflexivity.
Defined.

(** ** A corpus shorter than one batch *)

(** C2, refuted as stated.  With one artifact and two shops the first call
    raises nothing: it returns a batch of one path, which [copy_batch]
    copies and reports as a success. *)
Lemma short_corpus_returns_partial_batch :
  current_index (self one_of_two) = 0 ∧
  len (all_files (self one_of_two)) < num_shops (self one_of_two) ∧
  (_get_next_batch one_of_two).1 = Ok ["/data/Shop-1-20210104-06.csv"] ∧
  (∀ e, (_get_next_batch one_of_two).1 ≠ Raise e) ∧
  (copy_batch one_of_two).1 = Ok true.
Proof.
  split; [reflexivity|]. split; [reflexivity|]. split; [reflexivity|].
  split; [intros e; vm_compute; discriminate|]. vm_compute. reflexivity.
Qed.

(** C2, amended.  For [N > 0] a scheduling call never fails: it returns a
    batch of [min(N, M)] paths.  When [M < N] (the empty corpus included)
    the call wraps: it logs the restart, returns every path of the corpus
    (fewer than [N]) and leaves the cursor at [N].  Only the empty batch is
    reported, and by [copy_batch]: it logs "No files to copy!" and returns
    [False], and the file system is as before. *)
Theorem short_corpus_no_error (st : state) :
  let N := num_shops (self st) in
  let corpus := all_files (self st) in
  0 < N → 0 ≤ current_index (self st) →
  ∃ (batch : list string) (st' : state),
    _get_next_batch st = (Ok batch, st') ∧
    len batch = Z.min N (len corpus) ∧
    (len corpus < N →
       batch = snd <$> corpus ∧
       st' = at_index (logged st [Warning_restart]) N) ∧
    (len corpus = 0 →
       copy_batch st = (Ok false, logged st' [Error_no_files])).
Proof.
  intros N corpus HN Hc.
  destruct (Z_le_gt_dec (current_index (self st) + N) (len corpus)) as [Hin|Hout].
  - eexists _, _. split; [apply get_next_batch_advance; fold N; fold corpus; lia|].
    fold N corpus. split.
    { unfold len, segment in *. rewrite length_fmap, length_take, length_drop. lia. }
    split; [lia|]. unfold len in *. lia.
  - assert (_get_next_batch st =
              (Ok (snd <$> Py.slice corpus 0 N), at_index (logged st [Warning_restart]) N))
      as Hnext.
    { rewrite get_next_batch_unfold. fold N corpus.
      destruct (Z.ltb_spec (len corpus) (current_index (self st) + N)); [done|lia]. }
    eexists _, _. split; [exact Hnext|].
    destruct (Z_lt_le_dec (len corpus) N) as [Hshort|Hlong].
    + rewrite slice_short by lia. split.
      { unfold len. rewrite length_fmap. fold (len corpus). lia. }
      split; [done|]. intros HM.
      unfold copy_batch, mbind, M_bind. rewrite Hnext, slice_short by lia.
      destruct corpus; [reflexivity|]. unfold len in HM. simpl in HM. lia.
    + pose proof (slice_segment corpus 0 N) as Hs. change (0 + N) with N in Hs.
      rewrite Hs by lia. split.
      { unfold len, segment in *. rewrite length_fmap, length_take, length_drop. lia. }
      split; [lia|]. lia.
Qed.

Lemma short_corpus_no_error_witness :
  _get_next_batch one_of_two =
    (Ok ["/data/Shop-1-20210104-06.csv"],
     at_index (logged one_of_two [Warning_restart]) 2).
Proof.
  destruct (short_corpus_no_error one_of_two) as (b & st' & Hb & _ & Hshort & _).
  - reflexivity.
  - vm_compute. discriminate.
  - destruct Hshort as [-> ->]; [reflexivity|]. exact Hb.
Defined.

(** ** The corpus is the stable sort of the parsed entries *)

Lemma ascending_iff (x y : datetime * Z * string) :
  ascending x y ↔ key_lt (sort_key y) (sort_key x) = false.
Proof.
  destruct x as [[tx ix] px], y as [[ty iy] py].
  unfold ascending, key_lt, sort_key. simpl. split.
  - intros [Hlt|[-> Hle]].
    + destruct (datetime_eq ty tx) eqn:He.
      * apply datetime_eq_spec in He as ->. by rewrite datetime_lt_irrefl in Hlt.
      * destruct (datetime_lt ty tx) eqn:Hgt; [|done].
        pose proof (datetime_lt_trans _ _ _ Hlt Hgt) as Hc.
        by rewrite datetime_lt_irrefl in Hc.
    + replace (datetime_eq ty ty) with true by (symmetry; by apply datetime_eq_spec).
      apply Z.ltb_ge. lia.
  - destruct (datetime_eq ty tx) eqn:He.
    + apply datetime_eq_spec in He as ->. intros H%Z.ltb_ge. right. by split.
    + intros Hge. left. destruct (datetime_lt tx ty) eqn:Hlt; [done|].
      pose proof (datetime_lt_connex _ _ Hge Hlt) as ->.
      assert (datetime_eq tx tx = true) by by apply datetime_eq_spec. congruence.
Qed.

Lemma StronglySorted_ascending (l : list (datetime * Z * string)) :
  StronglySorted ascending l ↔
  StronglySorted (λ x y, key_lt (sort_key y) (sort_key x) = false) l.
Proof.
  split; induction 1 as [|x l Hs IH Hx]; constructor; try done;
    (eapply Forall_impl; [exact Hx|]); intros y Hy; by apply ascending_iff.
Qed.

Lemma elem_of_parsed (files : list string) (ts : datetime) (sid : Z) (fp : string) :
  (ts, sid, fp) ∈ parsed files ↔
  fp ∈ files ∧ parse_filename (Py.basename fp) = Ok (ts, sid).
Proof.
  unfold parsed. rewrite list_elem_of_bind. split.
  - intros (fp' & Hin & Hfp). unfold entry_of in Hin.
    destruct (parse_filename (Py.basename fp')) as [[ts' sid']|e] eqn:Hp.
    + apply list_elem_of_singleton in Hin. injection Hin as -> -> ->. done.
    + by apply elem_of_nil in Hin.
  - intros [Hin Hp]. exists fp. split; [|done].
    unfold entry_of. rewrite Hp. apply list_elem_of_singleton. done.
Qed.

(** C4. For every listing, the corpus is the list [sorted] of the
    successfully parsed entries with the shop id dropped, where [sorted]
    has exactly the parsed entries, each as often as it was scanned (a
    permutation: nothing is merged or dropped), is in ascending order of
    timestamp and then of shop id, and keeps the entries of equal
    (timestamp, shop id) in their scan order.  These three properties
    determine [sorted]. *)
Theorem corpus_is_stable_sort (files : list string) (st : state) :
  ∃ sorted : list (datetime * Z * string),
    _get_sorted_files files st = (Ok (strip <$> sorted), logged st (warnings files)) ∧
    sorted ≡ₚ parsed files ∧
    StronglySorted ascending sorted ∧
    (∀ k, with_key k sorted = with_key k (parsed files)) ∧
    (∀ other,
       StronglySorted ascending other →
       (∀ k, with_key k other = with_key k (parsed files)) →
       other = sorted).
Proof.
  exists (sort_by key_lt sort_key (parsed files)).
  split; [apply get_sorted_files_spec|].
  split; [apply sort_by_perm|].
  assert (StronglySorted ascending (sort_by key_lt sort_key (parsed files))) as Hs.
  { apply StronglySorted_ascending, sort_by_sorted.
    - apply key_lt_irrefl. - apply key_lt_trans. - apply key_lt_connex. }
  split; [done|].
  split; [intros k; apply sort_by_stable, key_lt_irrefl|].
  intros other Ho Hk.
  eapply (sorted_stable_unique key_lt sort_key key_lt_irrefl key_lt_connex).
  - by apply StronglySorted_ascending.
  - by apply StronglySorted_ascending.
  - intros k. rewrite (sort_by_stable _ _ key_lt_irrefl). apply Hk.
Qed.

Lemma corpus_is_stable_sort_witness :
  ∃ sorted : list (datetime * Z * string),
    (_get_sorted_files mixed_listing (boot ∅)).1 = Ok (strip <$> sorted) ∧
    sorted ≡ₚ parsed mixed_listing ∧
    StronglySorted ascending sorted.
Proof.
  destruct (corpus_is_stable_sort mixed_listing (boot ∅))
    as (sorted & Hrun & Hperm & Hsorted & _).
  exists sorted. rewrite Hrun. split; [reflexivity|]. split; assumption.
Defined.

(** ** Names the parser rejects *)

Lemma parse_filename_raise_iff (filename : string) :
  is_ok (parse_filename filename) = false ↔ unparsable filename.
Proof.
  unfold unparsable, parse_filename, segments.
  destruct (Py.split "-" (Py.replace ".csv" EmptyString filename))
    as [|p0 [|p1 [|p2 [|p3 rest]]]]; simpl.
  - split; [intros _; left; lia|done].
  - split; [intros _; left; lia|done].
  - destruct (Py.int p1) as [sid|e] eqn:Hint; simpl.
    + split; [intros _; left; lia|done].
    + split; [intros _; left; lia|done].
  - destruct (Py.int p1) as [sid|e] eqn:Hint; simpl.
    + split; [intros _; left; lia|done].
    + split; [intros _; left; lia|done].
  - destruct (Py.int p1) as [sid|e] eqn:Hint; simpl.
    + destruct (strptime (p2 +:+ "-" +:+ p3)) as [ts|e] eqn:Htime; simpl.
      * split; [done|].
        intros [Hlen|[(q1 & [= <-] & Hq)|(d & h & [= <-] & [= <-] & Hq)]];
          [lia|by rewrite Hint in Hq|by rewrite Htime in Hq].
      * split; [|done]. intros _. right. right. exists p2, p3.
        by rewrite Htime.
    + split; [|done]. intros _. right. left. exists p1. by rewrite Hint.
Qed.

Lemma entry_of_unparsable (fp : string) :
  unparsable (Py.basename fp) → entry_of fp = [].
Proof.
  intros H%parse_filename_raise_iff. unfold entry_of.
  by destruct (parse_filename (Py.basename fp)) as [[]|].
Qed.

Lemma elem_of_corpus (files : list string) (t : datetime) (fp : string) :
  (t, fp) ∈ corpus_of files ↔
  fp ∈ files ∧ ∃ sid, parse_filename (Py.basename fp) = Ok (t, sid).
Proof.
  unfold corpus_of. rewrite list_elem_of_fmap. split.
  - intros ([[t' sid] fp'] & [= -> ->] & Hin).
    rewrite (sort_by_perm key_lt sort_key) in Hin.
    apply elem_of_parsed in Hin as [Hin Hp]. eauto.
  - intros (Hin & sid & Hp). exists (t, sid, fp). split; [done|].
    rewrite (sort_by_perm key_lt sort_key). by apply elem_of_parsed.
Qed.

Lemma length_parsed (files : list string) :
  length (parsed files) =
  length (filter (λ fp, is_ok (parse_filename (Py.basename fp)) = true) files).
Proof.
  unfold parsed. induction files as [|fp files IH]; [done|].
  rewrite filter_cons. csimpl. rewrite length_app, IH. unfold entry_of.
  destruct (parse_filename (Py.basename fp)) as [[]|]; simpl; reflexivity.
Qed.

(** Every name the parser rejects is malformed in the specification's sense;
    the converse fails for names with more than four segments. *)
Lemma unparsable_is_malformed (filename : string) :
  unparsable filename → spec_malformed filename.
Proof. intros [Hlen|[Hid|Htime]]; [left; lia|right; by left|right; by right]. Qed.

(** C5, refuted as stated.  A name with five segments has the wrong segment
    count, yet it is indexed and no warning is recorded. *)
Lemma extra_segment_is_indexed :
  glob_match (Py.basename five_segments) = true ∧
  spec_malformed (Py.basename five_segments) ∧
  _get_sorted_files [five_segments] (boot ∅) =
    (Ok [(Datetime 2021 1 4 6, five_segments)], boot ∅).
Proof.
  split; [reflexivity|]. split; [|reflexivity].
  left. vm_compute. lia.
Qed.

(** C5, amended.  Indexing never raises.  A scanned name that the parser
    rejects (fewer than four segments, a shop id that [int] refuses, or a
    date and hour that [strptime] refuses) is left out of the corpus and a
    warning naming it is logged, and the scan goes on: the corpus holds
    exactly the scanned paths whose name parses, with the timestamp parsed
    from the name, as many as there are such paths in the listing.
    Segments after the fourth are not looked at. *)
Theorem malformed_names_are_skipped (files : list string) (st : state) :
  _get_sorted_files files st = (Ok (corpus_of files), logged st (warnings files)) ∧
  (∀ fp, fp ∈ files → unparsable (Py.basename fp) →
     (∀ t, (t, fp) ∉ corpus_of files) ∧
     ∃ e, Warning_skipping (Py.basename fp) e ∈ warnings files) ∧
  (∀ t fp, (t, fp) ∈ corpus_of files ↔
     fp ∈ files ∧ ¬ unparsable (Py.basename fp) ∧
     ∃ sid, parse_filename (Py.basename fp) = Ok (t, sid)) ∧
  length (corpus_of files) =
    length (filter (λ fp, is_ok (parse_filename (Py.basename fp)) = true) files).
Proof.
  split; [apply get_sorted_files_spec|]. split; [|split].
  - intros fp Hin Hbad. split.
    + intros t (_ & sid & Hp)%elem_of_corpus.
      apply parse_filename_raise_iff in Hbad. by rewrite Hp in Hbad.
    + apply parse_filename_raise_iff in Hbad.
      destruct (parse_filename (Py.basename fp)) as [|e] eqn:Hp; [done|].
      exists e. unfold warnings. apply list_elem_of_bind. exists fp.
      split; [|done]. unfold warning_of. rewrite Hp. by apply list_elem_of_singleton.
  - intros t fp. rewrite elem_of_corpus. split.
    + intros (Hin & sid & Hp). split; [done|]. split; [|by exists sid].
      intros Hbad%parse_filename_raise_iff. by rewrite Hp in Hbad.
    + intros (Hin & _ & Hp). done.
  - unfold corpus_of.
    rewrite length_fmap, (Permutation_length (sort_by_perm key_lt sort_key _)).
    apply length_parsed.
Qed.

Lemma malformed_names_are_skipped_witness :
  (∀ t, (t, "/data/Shop-abc-20210101-00.csv") ∉ corpus_of mixed_listing) ∧
  (∃ e, Warning_skipping "Shop-abc-20210101-00.csv" e ∈ warnings mixed_listing) ∧
  length (corpus_of mixed_listing) = 3%nat.
Proof.
  destruct (malformed_names_are_skipped mixed_listing (boot ∅))
    as (_ & Hskip & _ & Hlen).
  destruct (Hskip "/data/Shop-abc-20210101-00.csv") as [Hout Hwarn].
  - apply list_elem_of_In. vm_compute. tauto.
  - right. left. exists "abc". split; reflexivity.
  - split; [exact Hout|]. split; [exact Hwarn|]. rewrite Hlen. reflexivity.
Defined.

(** ** The corpus and the order of the listing *)

Lemma filter_key_short {A K} `{!EqDecision K} (f : A → K) (k : K) (l : list A) :
  NoDup (f <$> l) → (length (filter (λ x, f x = k) l) ≤ 1)%nat.
Proof.
  induction l as [|x l IH]; [simpl; lia|].
  rewrite fmap_cons, NoDup_cons. intros [Hx Hnd].
  rewrite filter_cons. destruct (decide (f x = k)) as [<-|]; [|by apply IH].
  replace (filter (λ y, f y = f x) l) with (@nil A); [simpl; lia|].
  symmetry. apply elem_of_nil_inv. intros y [Hy Hin]%list_elem_of_filter.
  apply Hx. rewrite <- Hy. by apply list_elem_of_fmap_2.
Qed.

Lemma Permutation_short_eq {A} (l1 l2 : list A) :
  l1 ≡ₚ l2 → (length l1 ≤ 1)%nat → l1 = l2.
Proof.
  intros Hp Hlen. destruct l1 as [|x [|y l1]]; simpl in Hlen; [| |lia].
  - by apply Permutation_nil_l.
  - by apply Permutation_singleton_l.
Qed.

(** C9, refuted as stated.  Two listings of the same two paths in different
    orders give different corpora. *)
Lemma listing_order_shows_in_corpus :
  glob_match (Py.basename twin_a) = true ∧
  glob_match (Py.basename twin_b) = true ∧
  [twin_a; twin_b] ≡ₚ [twin_b; twin_a] ∧
  (_get_sorted_files [twin_a; twin_b] (boot ∅)).1 =
    Ok [(Datetime 2021 1 4 6, twin_a); (Datetime 2021 1 4 6, twin_b)] ∧
  (_get_sorted_files [twin_b; twin_a] (boot ∅)).1 =
    Ok [(Datetime 2021 1 4 6, twin_b); (Datetime 2021 1 4 6, twin_a)] ∧
  (_get_sorted_files [twin_a; twin_b] (boot ∅)).1 ≠
    (_get_sorted_files [twin_b; twin_a] (boot ∅)).1.
Proof.
  split; [reflexivity|]. split; [reflexivity|]. split; [apply Permutation_swap|].
  split; [reflexivity|]. split; [reflexivity|]. vm_compute. discriminate.
Qed.

(** C9, amended.  Two listings with the same paths, in any order, give the
    same corpus provided no two parsed entries have the same
    (timestamp, shop id) key. *)
Theorem corpus_independent_of_listing_order
    (files1 files2 : list string) (st1 st2 : state) :
  files1 ≡ₚ files2 →
  NoDup (sort_key <$> parsed files1) →
  (_get_sorted_files files1 st1).1 = (_get_sorted_files files2 st2).1.
Proof.
  intros Hperm Hnd. rewrite !get_sorted_files_spec. simpl. f_equal.
  unfold corpus_of. f_equal.
  assert (parsed files1 ≡ₚ parsed files2) as Hpp
    by (unfold parsed; by rewrite Hperm).
  apply (sorted_stable_unique key_lt sort_key key_lt_irrefl key_lt_connex).
  - apply sort_by_sorted; [apply key_lt_irrefl|apply key_lt_trans|apply key_lt_connex].
  - apply sort_by_sorted; [apply key_lt_irrefl|apply key_lt_trans|apply key_lt_connex].
  - intros k. rewrite !(sort_by_stable _ _ key_lt_irrefl).
    apply Permutation_short_eq; [by rewrite Hpp|].
    by apply filter_key_short.
Qed.

Lemma corpus_independent_of_listing_order_witness :
  (_get_sorted_files ["/data/Shop-2-20210101-00.csv"; "/data/Shop-1-20210101-00.csv"]
     (boot ∅)).1 =
  (_get_sorted_files ["/data/Shop-1-20210101-00.csv"; "/data/Shop-2-20210101-00.csv"]
     (boot ∅)).1.
Proof.
  apply corpus_independent_of_listing_order.
  - apply Permutation_swap.
  - vm_compute. repeat constructor; rewrite ?list_elem_of_In; simpl; intuition congruence.
Defined.

(** ** Ticks *)

Section Blocks.
Context {T : Type} `{!EqDecision T} (lt : T → T → bool).
Hypothesis lt_connex : ∀ a b, lt a b = false → lt b a = false → a = b.

Local Abbreviation le := (ascending_by lt id).

(** An ascending list starts with all the copies of its first element. *)
Lemma sorted_head_run (a : T) (l : list T) :
  StronglySorted le (a :: l) →
  ∃ c rest,
    a :: l = replicate (S c) a ++ rest ∧ (a ∉ rest) ∧ StronglySorted le rest.
Proof.
  induction l as [|b l IH]; intros Hs.
  - exists 0%nat, []. repeat split; [apply not_elem_of_nil|constructor].
  - apply StronglySorted_inv in Hs as [Hs' Hall].
    destruct (decide (b = a)) as [->|Hne].
    + destruct (IH Hs') as (c & rest & Heq & Hnot & Hrest).
      exists (S c), rest. split; [|done]. simpl in *. by rewrite Heq.
    + exists 0%nat, (b :: l). split; [done|]. split; [|done].
      intros [->|Hin]%elem_of_cons; [done|].
      apply StronglySorted_inv in Hs' as [_ Hb].
      rewrite Forall_forall in Hb. apply Forall_inv in Hall.
      apply Hne. symmetry. apply lt_connex; [by apply Hb|done].
Qed.

Lemma filter_eq_replicate (a : T) (c : nat) :
  filter (λ b, b = a) (replicate c a) = replicate c a.
Proof. induction c; [done|]. simpl. rewrite filter_cons_True by done. by f_equal. Qed.

Lemma filter_eq_absent (a : T) (l : list T) : a ∉ l → filter (λ b, b = a) l = [].
Proof.
  intros Hnot. apply elem_of_nil_inv. intros b [-> Hin]%list_elem_of_filter. done.
Qed.

(** An ascending list in which every element occurs [n] times is a
    sequence of runs of length [n]. *)
Lemma complete_blocks (n : nat) (ts : list T) :
  StronglySorted le ts →
  (∀ a, a ∈ ts → length (filter (λ b, b = a) ts) = n) →
  ∃ us, ts = us ≫= replicate n.
Proof.
  remember (length ts) as m eqn:Hm. revert ts Hm.
  induction m as [m IH] using lt_wf_ind. intros ts Hm Hs Hcount.
  destruct ts as [|a l]; [by exists []|].
  destruct (sorted_head_run a l Hs) as (c & rest & Heq & Hnot & Hrest).
  assert (S c = n) as Hc.
  { rewrite <- (Hcount a) by left. rewrite Heq, filter_app.
    rewrite (filter_eq_replicate a (S c)), filter_eq_absent by done.
    by rewrite app_nil_r, length_replicate. }
  destruct (IH (length rest)) with (ts := rest) as [us Hus]; try done.
  { rewrite Hm, Heq, length_app, length_replicate. lia. }
  { intros b Hb. rewrite <- (Hcount b) by (rewrite Heq, elem_of_app; by right).
    rewrite Heq, filter_app. replace (filter (λ b0, b0 = b) (replicate (S c) a))
      with (@nil T); [done|].
    symmetry. apply elem_of_nil_inv. intros x [-> Hx]%list_elem_of_filter.
    apply elem_of_replicate_inv in Hx as ->. done. }
  exists (a :: us). rewrite Heq, Hc, Hus. reflexivity.
Qed.

Lemma segment_of_blocks (n : nat) (us : list T) (i : nat) :
  segment (i * n) n (us ≫= replicate n) = from_option (replicate n) [] (us !! i).
Proof.
  revert i. induction us as [|a us IH]; intros i.
  - csimpl. unfold segment. by rewrite drop_nil, take_nil.
  - csimpl. destruct i as [|i]; unfold segment; simpl.
    + rewrite drop_0. by rewrite take_app_length' by (by rewrite length_replicate).
    + rewrite drop_app_add' by (by rewrite length_replicate). apply IH.
Qed.
End Blocks.

Lemma next_batches_Forall (P : list string → Prop) (I : state → Prop) :
  (∀ st, I st → ∃ b st', _get_next_batch st = (Ok b, st') ∧ I st' ∧ P b) →
  ∀ k st, I st →
    ∃ bs st', next_batches k st = (Ok bs, st') ∧ length bs = k ∧ I st' ∧ Forall P bs.
Proof.
  intros Hstep k. induction k as [|k IH]; intros st HI.
  - by exists [], st.
  - destruct (Hstep st HI) as (b & st1 & Hb & HI1 & HP).
    destruct (IH st1 HI1) as (bs & st2 & Hbs & Hlen & HI2 & HPs).
    exists (b :: bs), st2. split.
    { change (next_batches (S k) st)
        with ((b ← _get_next_batch; bs ← next_batches k; mret (b :: bs)) st).
      unfold mbind, M_bind. by rewrite Hb, Hbs. }
    split; [simpl; lia|]. split; [done|]. by constructor.
Qed.

Lemma corpus_timestamps_sorted (files : list string) :
  StronglySorted (λ a b, datetime_lt b a = false) (fst <$> corpus_of files).
Proof.
  unfold corpus_of. rewrite <- list_fmap_compose.
  eapply StronglySorted_fmap; [|apply (sort_by_sorted key_lt sort_key);
    [apply key_lt_irrefl|apply key_lt_trans|apply key_lt_connex]].
  intros x y Hxy. apply ascending_iff in Hxy as [Hlt|[Heq _]]; simpl.
  - destruct (datetime_lt y.1.1 x.1.1) eqn:Hgt; [|done].
    pose proof (datetime_lt_trans _ _ _ Hlt Hgt) as Hc.
    by rewrite datetime_lt_irrefl in Hc.
  - rewrite Heq. apply datetime_lt_irrefl.
Qed.

Lemma corpus_timestamp_unique (files : list string) (t1 t2 : datetime) (p : string) :
  (t1, p) ∈ corpus_of files → (t2, p) ∈ corpus_of files → t1 = t2.
Proof.
  intros (_ & s1 & H1)%elem_of_corpus (_ & s2 & H2)%elem_of_corpus. congruence.
Qed.

Lemma tick_segment (files : list string) (n i : nat) :
  complete_ticks (Z.of_nat n) (corpus_of files) →
  same_tick (corpus_of files) (snd <$> segment (i * n) n (corpus_of files)).
Proof.
  intros Hticks.
  destruct (complete_blocks datetime_lt datetime_lt_connex n (fst <$> corpus_of files))
    as [us Hus].
  { apply corpus_timestamps_sorted. }
  { intros t Ht. specialize (Hticks t Ht). unfold len in Hticks. lia. }
  assert (∃ t, Forall (λ e, e.1 = t) (segment (i * n) n (corpus_of files))) as [t Ht].
  { pose proof (fmap_segment fst (i * n) n (corpus_of files)) as Hseg.
    rewrite Hus, segment_of_blocks in Hseg.
    destruct (us !! i) as [t|]; simpl in Hseg.
    - exists t. apply (Forall_fmap fst (λ t', t' = t)). rewrite Hseg.
      apply Forall_forall. intros x Hx. by apply elem_of_replicate_inv in Hx.
    - exists (Datetime 0 0 0 0). apply fmap_nil_inv in Hseg. rewrite Hseg. constructor. }
  rewrite Forall_forall in Ht.
  assert (∀ t' p, (t', p) ∈ corpus_of files →
            p ∈ snd <$> segment (i * n) n (corpus_of files) → t' = t) as Hone.
  { intros t' p Hin ([t'' p'] & -> & Hp)%list_elem_of_fmap.
    rewrite <- (Ht _ Hp). simpl. apply (corpus_timestamp_unique files _ _ p'); [done|].
    simpl. unfold segment in Hp. by apply subseteq_take, subseteq_drop in Hp. }
  intros t1 t2 p1 p2 H1 H2 Hb1 Hb2.
  by rewrite (Hone t1 p1), (Hone t2 p2).
Qed.

(** C8, refuted as stated.  With two shops configured and one shop's files
    in the source directory, the first batch holds the artifacts of two
    different hours. *)
Lemma batch_spans_two_ticks :
  Forall (λ p, glob_match (Py.basename p) = true) two_hours ∧
  all_files (self two_hours_two_shops) =
    [(Datetime 2021 1 4 6, "/data/Shop-1-20210104-06.csv");
     (Datetime 2021 1 4 7, "/data/Shop-1-20210104-07.csv")] ∧
  (_get_next_batch two_hours_two_shops).1 =
    Ok ["/data/Shop-1-20210104-06.csv"; "/data/Shop-1-20210104-07.csv"] ∧
  ¬ same_tick (all_files (self two_hours_two_shops))
      ["/data/Shop-1-20210104-06.csv"; "/data/Shop-1-20210104-07.csv"].
Proof.
  split; [by repeat constructor|]. split; [reflexivity|]. split; [reflexivity|].
  intros Hsame.
  specialize (Hsame (Datetime 2021 1 4 6) (Datetime 2021 1 4 7)
                "/data/Shop-1-20210104-06.csv" "/data/Shop-1-20210104-07.csv").
  assert (Datetime 2021 1 4 6 = Datetime 2021 1 4 7) as Heq; [|discriminate Heq].
  apply Hsame.
  - change (all_files (self two_hours_two_shops))
      with [(Datetime 2021 1 4 6, "/data/Shop-1-20210104-06.csv");
            (Datetime 2021 1 4 7, "/data/Shop-1-20210104-07.csv")]. left.
  - change (all_files (self two_hours_two_shops))
      with [(Datetime 2021 1 4 6, "/data/Shop-1-20210104-06.csv");
            (Datetime 2021 1 4 7, "/data/Shop-1-20210104-07.csv")]. right. left.
  - left.
  - right. left.
Qed.

(** C8, amended.  For a corpus produced by the indexer in which every
    timestamp has exactly [N] artifacts, [N > 0], and the cursor starting at
    0, the artifacts of every batch returned by any sequence of calls share
    one timestamp. *)
Theorem batches_share_tick (files : list string) (st0 : state) (k : nat) :
  let N := num_shops (self st0) in
  all_files (self st0) = corpus_of files →
  current_index (self st0) = 0 →
  0 < N →
  complete_ticks N (corpus_of files) →
  ∃ batches,
    (next_batches k st0).1 = Ok batches ∧ length batches = k ∧
    Forall (same_tick (corpus_of files)) batches.
Proof.
  intros N Hfiles H0 HN Hticks.
  destruct (corpus_of files) as [|e corpus] eqn:Hcorpus.
  - destruct (next_batches_Forall (same_tick [])
                (λ st, all_files (self st) = [] ∧ 0 < num_shops (self st)
                       ∧ 0 ≤ current_index (self st))) with (k := k) (st := st0)
      as (bs & st' & Hrun & Hlen & _ & HP).
    + intros st (Hf & Hn & Hc). rewrite get_next_batch_unfold, Hf.
      assert (∀ a b, @Py.slice (datetime * string) [] a b = []) as Hnil.
      { intros a b. unfold Py.slice. by rewrite drop_nil, take_nil. }
      rewrite !Hnil. simpl.
      destruct (_ <? _); eexists _, _; (split; [reflexivity|]); simpl;
        (split; [repeat split; try done; lia|]);
        intros t1 t2 p1 p2 _ _ Hp; by apply elem_of_nil in Hp.
    + repeat split; try done. lia.
    + exists bs. by rewrite Hrun.
  - rewrite <- Hcorpus in *.
    assert (N ≤ len (corpus_of files)) as HM.
    { rewrite <- (Hticks e.1) by (rewrite Hcorpus; left).
      unfold len. rewrite <- (length_fmap fst (corpus_of files)).
      apply inj_le, length_filter. }
    destruct (next_batches_Forall (same_tick (corpus_of files))
                (λ st, all_files (self st) = corpus_of files ∧ num_shops (self st) = N
                       ∧ aligned st)) with (k := k) (st := st0)
      as (bs & st' & Hrun & Hlen & _ & HP).
    + intros st (Hf & Hn & Hal).
      destruct (get_next_batch_aligned st) as (b & st1 & Hb & Hsc & j & Hj & Hc & Hle & Hbatch);
        rewrite ?Hn, ?Hf; try done.
      destruct (same_corpus_fields _ _ Hsc) as (HN1 & HF1 & _).
      exists b, st1. split; [done|]. split.
      { rewrite HN1, HF1. repeat split; try done.
        exists j. rewrite HN1, HF1. repeat split; lia. }
      rewrite Hbatch, Hn, Hf.
      replace (Z.to_nat ((j - 1) * N)) with (Z.to_nat (j - 1) * Z.to_nat N)%nat
        by (rewrite Z2Nat.inj_mul; lia).
      apply tick_segment. by rewrite Z2Nat.id by lia.
    + split; [done|]. split; [done|]. by apply aligned_start.
    + exists bs. by rewrite Hrun.
Qed.

Lemma batches_share_tick_witness :
  ∃ batches,
    (next_batches 3 {| self := constructed "/data" "/realtime" 2 3600 four_files;
                       disk := ∅; log := [] |}).1 = Ok batches ∧
    length batches = 3%nat ∧
    Forall (same_tick (corpus_of four_files)) batches.
Proof.
  apply batches_share_tick.
  - reflexivity.
  - reflexivity.
  - reflexivity.
  - intros t Ht. apply list_elem_of_In in Ht. vm_compute in Ht.
    destruct Ht as [<-|[<-|[<-|[<-|[]]]]]; reflexivity.
Defined.

(** ** Paths *)

Lemma split_nonempty (sep : ascii) (s : string) : Py.split sep s ≠ [].
Proof.
  destruct s as [|c s]; simpl; [done|].
  destruct (Ascii.eqb c sep); [done|]. by destruct (Py.split sep s).
Qed.

Lemma split_without_sep (sep : ascii) (s : string) :
  Forall (λ w, contains sep w = false) (Py.split sep s).
Proof.
  induction s as [|c s IH]; simpl; [by repeat constructor|].
  destruct (Ascii.eqb c sep) eqn:Hc; [by constructor|].
  destruct (Py.split sep s) as [|w ws] eqn:Hsp; [by apply split_nonempty in Hsp|].
  apply Forall_cons in IH as [Hw Hws]. constructor; [|done].
  simpl. by rewrite Ascii.eqb_sym, Hc.
Qed.

Lemma split_no_sep (sep : ascii) (s : string) :
  contains sep s = false → Py.split sep s = [s].
Proof.
  induction s as [|c s IH]; simpl; [done|].
  intros [Hc Hs]%orb_false_elim. rewrite Ascii.eqb_sym, Hc, IH; done.
Qed.

Lemma split_app_sep (sep : ascii) (a b : string) :
  Py.split sep (a +:+ String sep b) = Py.split sep a ++ Py.split sep b.
Proof.
  induction a as [|c a IH]; simpl.
  - by rewrite Ascii.eqb_refl.
  - destruct (Ascii.eqb c sep); [by rewrite IH|].
    rewrite IH. destruct (Py.split sep a) eqn:Ha; [by apply split_nonempty in Ha|done].
Qed.

Lemma basename_no_slash (p : string) : contains "/" (Py.basename p) = false.
Proof.
  unfold Py.basename. pose proof (split_without_sep "/" p) as Hall.
  pose proof (split_nonempty "/" p) as Hne.
  destruct (exists_last Hne) as (l & w & Heq). rewrite Heq in *.
  rewrite last_last. apply Forall_app in Hall as [_ Hw]. by apply Forall_inv in Hw.
Qed.

Lemma endswith_slash_inv (a : string) :
  Py.endswith_slash a = true → ∃ a0, a = a0 +:+ "/".
Proof.
  induction a as [|c a IH]; [done|]. simpl. destruct a as [|c' a].
  - intros ->%Ascii.eqb_eq. by exists EmptyString.
  - intros [a0 ->]%IH. by exists (String c a0).
Qed.

Lemma append_assoc (a b c : string) : (a +:+ b) +:+ c = a +:+ (b +:+ c).
Proof.
  induction a as [|x a IH]; [done|].
  change (String x ((a +:+ b) +:+ c) = String x (a +:+ (b +:+ c))). by rewrite IH.
Qed.

Lemma basename_join (a b : string) :
  contains "/" b = false → Py.basename (Py.join a b) = b.
Proof.
  intros Hb. assert (Py.basename b = b) as Hbb.
  { unfold Py.basename. by rewrite split_no_sep. }
  assert (∀ a0, Py.basename (a0 +:+ String "/" b) = b) as Hsep.
  { intros a0. unfold Py.basename.
    rewrite split_app_sep, (split_no_sep "/" b) by done. apply last_last. }
  unfold Py.join. destruct (String.prefix "/" b); [done|].
  destruct (String.eqb a EmptyString) eqn:Ha; simpl.
  - apply String.eqb_eq in Ha as ->. done.
  - destruct (Py.endswith_slash a) eqn:Hs; [|apply Hsep].
    apply endswith_slash_inv in Hs as [a0 ->]. rewrite append_assoc. apply Hsep.
Qed.

(** Copying to the destination of a destination changes nothing new: the
    destination of a path is its own destination. *)
Lemma destination_idem (dest p : string) :
  destination dest (destination dest p) = destination dest p.
Proof.
  unfold destination. by rewrite basename_join by apply basename_no_slash.
Qed.

(** ** Transfers on the file system *)

Lemma destination_not_source (dest p q : string) :
  destination dest q ≠ q → destination dest p ≠ q.
Proof. intros Hq <-. apply Hq, destination_idem. Qed.

Lemma copy_step_keeps_sources (dest : string) (d : gmap string string) (p q : string) :
  destination dest q ≠ q → copy_step dest d p !! q = d !! q.
Proof.
  intros Hq. unfold copy_step. destruct (d !! p); [|done].
  destruct (String.eqb p (destination dest p)); [done|].
  apply lookup_insert_ne. by apply destination_not_source.
Qed.

Lemma foldl_keeps_sources (dest : string) (l : list string) (d : gmap string string)
    (q : string) :
  destination dest q ≠ q → foldl (copy_step dest) d l !! q = d !! q.
Proof.
  intros Hq. revert d. induction l as [|p l IH]; intros d; simpl; [done|].
  by rewrite IH, copy_step_keeps_sources.
Qed.

Lemma foldl_other_keys (dest : string) (l : list string) (d : gmap string string)
    (x : string) :
  x ∉ destination dest <$> l → foldl (copy_step dest) d l !! x = d !! x.
Proof.
  revert d. induction l as [|p l IH]; intros d Hx; simpl; [done|].
  rewrite fmap_cons, not_elem_of_cons in Hx. destruct Hx as [Hp Hl].
  rewrite IH by done. unfold copy_step. destruct (d !! p); [|done].
  destruct (String.eqb p (destination dest p)); [done|].
  by apply lookup_insert_ne.
Qed.

Lemma foldl_as_inserts (dest : string) (d0 : gmap string string) (l : list string)
    (d : gmap string string) :
  (∀ q, destination dest q ≠ q → d !! q = d0 !! q) →
  foldl (copy_step dest) d l = inserts (omap (write_of dest d0) l) d.
Proof.
  revert d. induction l as [|p l IH]; intros d Hagree; simpl; [done|].
  unfold copy_step at 2, write_of at 1.
  destruct (String.eqb p (destination dest p)) eqn:Hp.
  - assert (copy_src : (match d !! p with Some _ => d | None => d end) = d)
      by by destruct (d !! p).
    rewrite copy_src.
    replace (match d0 !! p with Some _ => None | None => None end)
      with (@None (string * string)) by by destruct (d0 !! p).
    by apply IH.
  - apply String.eqb_neq in Hp. rewrite (Hagree p) by done.
    destruct (d0 !! p) as [c|]; [|by apply IH].
    simpl. apply IH. intros q Hq.
    rewrite lookup_insert_ne by by apply destination_not_source. by apply Hagree.
Qed.

Lemma inserts_absorb (k v : string) (kvs : list (string * string))
    (m : gmap string string) :
  <[k := v]> (inserts kvs (<[k := v]> m)) = <[k := v]> (inserts kvs m).
Proof.
  revert m. induction kvs as [|[k1 v1] kvs IH]; intros m; simpl.
  - apply insert_insert_eq.
  - destruct (decide (k1 = k)) as [->|Hne].
    + by rewrite insert_insert_eq.
    + rewrite insert_insert_ne by done. apply IH.
Qed.

Lemma inserts_idem (kvs : list (string * string)) (d : gmap string string) :
  inserts kvs (inserts kvs d) = inserts kvs d.
Proof.
  unfold inserts. induction kvs as [|[k v] kvs IH] using rev_ind; [done|].
  rewrite !foldl_app. simpl. fold (inserts kvs d).
  fold (inserts kvs (<[k:=v]> (inserts kvs d))).
  rewrite inserts_absorb. unfold inserts. by rewrite IH.
Qed.

Lemma foldl_copy_idem (dest : string) (l : list string) (d : gmap string string) :
  foldl (copy_step dest) (foldl (copy_step dest) d l) l = foldl (copy_step dest) d l.
Proof.
  rewrite (foldl_as_inserts dest d l (foldl (copy_step dest) d l))
    by (intros q Hq; by apply foldl_keeps_sources).
  rewrite (foldl_as_inserts dest d l d) by done.
  apply inserts_idem.
Qed.

Lemma destination_basename (dest p q : string) :
  destination dest q = destination dest p → Py.basename q = Py.basename p.
Proof.
  unfold destination. intros H.
  rewrite <- (basename_join dest (Py.basename q)) by apply basename_no_slash.
  rewrite H. apply basename_join, basename_no_slash.
Qed.

Lemma foldl_copy_lookup (dest : string) (l : list string) (d : gmap string string)
    (p c : string) :
  NoDup (Py.basename <$> l) → p ∈ l → d !! p = Some c → destination dest p ≠ p →
  foldl (copy_step dest) d l !! destination dest p = Some c.
Proof.
  revert d. induction l as [|q l IH]; intros d Hnd Hin Hp Hne; [by apply elem_of_nil in Hin|].
  rewrite fmap_cons, NoDup_cons in Hnd. destruct Hnd as [Hq Hnd]. simpl.
  apply elem_of_cons in Hin as [<-|Hin].
  - rewrite foldl_other_keys.
    + unfold copy_step. rewrite Hp.
      destruct (String.eqb_spec p (destination dest p)); [done|].
      apply lookup_insert_eq.
    + intros (q & Hd & Hq')%list_elem_of_fmap. apply Hq.
      rewrite (destination_basename dest q p) by done.
      by apply list_elem_of_fmap_2.
  - apply IH; try done. by rewrite copy_step_keeps_sources.
Qed.

(** ** The copy loop *)

Lemma copy_file_unfold (source_path : string) (st : state) :
  copy_file source_path st =
    match disk st !! source_path with
    | None =>
        (Ok false,
         logged st [Error_failed (Py.basename source_path) FileNotFoundError])
    | Some content =>
        if String.eqb source_path (destination (dest_dir (self st)) source_path)
        then (Ok false,
              logged st [Error_failed (Py.basename source_path) SameFileError])
        else (Ok true,
              logged (written st (destination (dest_dir (self st)) source_path) content)
                [Debug_copied (Py.basename source_path)])
    end.
Proof.
  unfold copy_file, try_except, mbind, M_bind, copy2, get_self, destination. simpl.
  destruct (disk st !! source_path); [|done].
  by destruct (String.eqb _ _).
Qed.

Lemma copy_file_spec (source_path : string) (st : state) :
  ∃ r st',
    copy_file source_path st = (Ok (copied r), st') ∧
    self st' = self st ∧
    disk st' = copy_step (dest_dir (self st)) (disk st) source_path ∧
    log st' = log st ++ [r] ∧ attempt source_path r.
Proof.
  rewrite copy_file_unfold. unfold copy_step, attempt.
  destruct (disk st !! source_path) as [c|];
    [destruct (String.eqb _ _)|].
  - exists (Error_failed (Py.basename source_path) SameFileError). eauto 10.
  - exists (Debug_copied (Py.basename source_path)). eauto 10.
  - exists (Error_failed (Py.basename source_path) FileNotFoundError). eauto 10.
Qed.

Lemma successes_cons (r : record) (rs : list record) :
  successes (r :: rs) = (if copied r then 1 else 0) + successes rs.
Proof.
  unfold successes, len. rewrite filter_cons.
  destruct (copied r); simpl; [|done]. lia.
Qed.


Lemma copy_files_spec (batch : list string) (n : Z) (st : state) :
  ∃ rs st',
    copy_files batch n st = (Ok (n + successes rs), st') ∧
    self st' = self st ∧
    disk st' = foldl (copy_step (dest_dir (self st))) (disk st) batch ∧
    log st' = log st ++ rs ∧ Forall2 attempt batch rs.
Proof.
  revert n st. induction batch as [|p batch IH]; intros n st.
  - exists [], st. simpl. rewrite app_nil_r. repeat split; try constructor.
    unfold mret, M_ret. f_equal. f_equal. unfold successes, len. simpl. lia.
  - destruct (copy_file_spec p st) as (r & st1 & Hr & Hself & Hdisk & Hlog & Hat).
    destruct (IH (if copied r then n + 1 else n) st1)
      as (rs & st2 & Hrs & Hself2 & Hdisk2 & Hlog2 & Hall).
    exists (r :: rs), st2. split.
    { simpl. unfold mbind, M_bind. rewrite Hr, Hrs. f_equal. f_equal.
      rewrite successes_cons. destruct (copied r); lia. }
    split; [congruence|]. split.
    { simpl. rewrite Hdisk2, Hself, Hdisk. done. }
    split; [|by constructor].
    rewrite Hlog2, Hlog, <- app_assoc. done.
Qed.

(** The three ways [dispatch] can go.  Which one is taken depends on the
    object and the batch only. *)
Lemma dispatch_cases (batch : list string) (st : state) :
  (batch = [] ∧ ∀ st2, dispatch batch st2 = (Ok false, logged st2 [Error_no_files])) ∨
  (batch ≠ [] ∧ ∃ e, ∀ st2, self st2 = self st → dispatch batch st2 = (Raise e, st2)) ∨
  (batch ≠ [] ∧ ∃ n d h, ∀ st2, self st2 = self st →
     ∃ rs st',
       dispatch batch st2 = (Ok (successes rs =? len batch), st') ∧
       self st' = self st2 ∧
       disk st' = foldl (copy_step (dest_dir (self st))) (disk st2) batch ∧
       log st' = log st2 ++ [Info_copying n d h] ++ rs
                 ++ [Info_completed (successes rs) (len batch)] ∧
       Forall2 attempt batch rs).
Proof.
  destruct batch as [|first rest]; [left; by split|]. right.
  unfold dispatch, mbind, M_bind, lift, get_self.
  destruct (Py.floordiv (current_index (self st)) (num_shops (self st))) as [n|e] eqn:Hn.
  2: { left. split; [done|]. exists e. intros st2 ->. by rewrite Hn. }
  destruct (Py.getitem _ 0%nat) as [d|e] eqn:Hd.
  2: { left. split; [done|]. exists e. intros st2 ->. by rewrite Hn. }
  destruct (Py.getitem _ 1%nat) as [h|e] eqn:Hh.
  2: { left. split; [done|]. exists e. intros st2 ->. by rewrite Hn. }
  right. split; [done|]. exists n, d, h. intros st2 Hst2. rewrite Hst2, Hn.
  destruct (copy_files_spec (first :: rest) 0 (logged st2 [Info_copying n d h]))
    as (rs & st3 & Hrs & Hself & Hdisk & Hlog & Hall).
  exists rs, (logged st3 [Info_completed (successes rs) (len (first :: rest))]).
  split.
  { unfold logger at 1. fold (logged st2 [Info_copying n d h]). rewrite Hrs. simpl.
    unfold logger, logged. simpl. reflexivity. }
  simpl in *. rewrite Hself, Hdisk, Hlog, Hst2, <- !app_assoc. done.
Qed.

(** C7.  Dispatching a batch a second time, right after the first, leaves
    the file system (sources and sink, a map from path to content) as the
    first dispatch left it.  A dispatch touches only the paths
    [dest_dir/filename] of the batch; and when the file names of the batch
    are distinct, each artifact that has a source (other than its own
    destination) is found under [dest_dir/filename] with the content of its
    source, after the first dispatch and after the second: the second copy
    overwrites the first with the same content under the same key. *)
Theorem dispatch_idempotent (batch : list string) (st : state) :
  let dest := dest_dir (self st) in
  let st1 := (dispatch batch st).2 in
  let st2 := (dispatch batch st1).2 in
  disk st2 = disk st1 ∧
  (∀ x, x ∉ destination dest <$> batch → disk st1 !! x = disk st !! x) ∧
  (is_ok (dispatch batch st).1 = true →
   NoDup (Py.basename <$> batch) →
   ∀ p c, p ∈ batch → disk st !! p = Some c → destination dest p ≠ p →
     disk st1 !! destination dest p = Some c ∧
     disk st2 !! destination dest p = Some c).
Proof.
  intros dest st1 st2. unfold st2, st1.
  destruct (dispatch_cases batch st)
    as [[-> H]|[[Hne [e H]]|[Hne (n & d & h & H)]]].
  - rewrite !H. simpl. split; [done|]. split; [done|].
    intros _ _ p c Hp. by apply elem_of_nil in Hp.
  - rewrite (H st eq_refl). simpl. rewrite (H st eq_refl). simpl.
    split; [done|]. split; [done|]. intros Hok. discriminate Hok.
  - destruct (H st eq_refl) as (rs & st' & Hrun & Hself & Hdisk & _).
    rewrite Hrun. simpl.
    destruct (H st' Hself) as (rs' & st'' & Hrun' & _ & Hdisk' & _).
    rewrite Hrun'. simpl. rewrite Hdisk', Hdisk. fold dest.
    split; [apply foldl_copy_idem|]. split; [intros x Hx; by apply foldl_other_keys|].
    intros _ Hnd p c Hp Hc Hne'. rewrite foldl_copy_idem.
    split; by apply foldl_copy_lookup.
Qed.

Lemma dispatch_idempotent_witness :
  let batch := ["/data/Shop-1-20210104-06.csv"; "/data/Shop-2-20210104-06.csv"] in
  let st1 := (dispatch batch one_missing).2 in
  let st2 := (dispatch batch st1).2 in
  disk st2 = disk st1 ∧
  disk st1 !! "/realtime/Shop-2-20210104-06.csv" = Some "OrderID,ProductID" ∧
  disk st2 !! "/realtime/Shop-2-20210104-06.csv" = Some "OrderID,ProductID".
Proof.
  intros batch st1 st2.
  destruct (dispatch_idempotent batch one_missing) as (Hidem & _ & Hcopy).
  split; [exact Hidem|].
  apply (Hcopy eq_refl) with (p := "/data/Shop-2-20210104-06.csv").
  - vm_compute. repeat constructor; rewrite ?list_elem_of_In; simpl; intuition congruence.
  - right. left.
  - reflexivity.
  - vm_compute. discriminate.
Defined.

(** ** [copy_batch] and the driver loop *)

Lemma slice_empty {A} (l : list A) (a : Z) : Py.slice l a a = [].
Proof. unfold Py.slice. by rewrite Z.sub_diag, take_0. Qed.



Lemma slice_paths_subseteq {A B} (f : A → B) (l : list A) (a b : Z) :
  f <$> Py.slice l a b ⊆ f <$> l.
Proof.
  intros y (x & -> & Hx)%list_elem_of_fmap.
  apply list_elem_of_fmap_2. by apply (slice_subseteq l a b).
Qed.

Lemma get_next_batch_total (st : state) :
  ∃ batch st',
    _get_next_batch st = (Ok batch, st') ∧ same_corpus st st' ∧
    batch ⊆ snd <$> all_files (self st) ∧
    (batch ≠ [] → num_shops (self st) ≠ 0) ∧
    ∃ extra, log st' = log st ++ extra.
Proof.
  rewrite get_next_batch_unfold.
  destruct (_ <? _); eexists _, _; (split; [reflexivity|]).
  - split; [by split|]. split; [apply slice_paths_subseteq|].
    split; [|by exists [Warning_restart]].
    intros Hne HN. apply Hne. by rewrite HN, slice_empty.
  - split; [by split|]. split; [apply slice_paths_subseteq|].
    split; [|exists []; simpl; by rewrite app_nil_r].
    intros Hne HN. apply Hne. by rewrite HN, Z.add_0_r, slice_empty.
Qed.





Lemma constructed_indexed (source dest : string) (N T : Z) (files : list string)
    (d : gmap string string) (l : list record) :
  indexed {| self := constructed source dest N T files; disk := d; log := l |}.
Proof. intros t p (_ & sid & Hp)%elem_of_corpus. simpl. by rewrite Hp. Qed.




(** * Further properties *)

(** ** The constructor *)



(** ** The scan accounts for every path *)

Lemma length_warnings (files : list string) :
  length (warnings files) =
  length (filter (λ fp, is_ok (parse_filename (Py.basename fp)) = false) files).
Proof.
  unfold warnings. induction files as [|fp files IH]; [done|].
  rewrite filter_cons. csimpl. rewrite length_app, IH. unfold warning_of.
  destruct (parse_filename (Py.basename fp)) as [[]|]; simpl; reflexivity.
Qed.

(** X2. Every scanned path is accounted for exactly once: it is either an
    entry of the corpus or the subject of one warning, so the size of the
    corpus and the number of warnings of a scan add up to the size of the
    listing; the warnings come in scan order, one per rejected name, each
    with the exception the parser raised on that name. *)
Theorem scan_partitions_listing (files : list string) (st : state) :
  let r := _get_sorted_files files st in
  ∃ corpus,
    r.1 = Ok corpus ∧
    (length corpus + length (warnings files) = length files)%nat ∧
    log r.2 = log st ++ warnings files ∧
    Forall2 (λ fp w, ∃ e, parse_filename (Py.basename fp) = Raise e ∧
                          w = Warning_skipping (Py.basename fp) e)
      (filter (λ fp, is_ok (parse_filename (Py.basename fp)) = false) files)
      (warnings files).
Proof.
  intros r. exists (corpus_of files). unfold r. rewrite get_sorted_files_spec. simpl.
  split; [done|]. split; [|split; [done|]].
  - unfold corpus_of.
    rewrite length_fmap, (Permutation_length (sort_by_perm key_lt sort_key _)).
    rewrite length_parsed, length_warnings.
    clear r. induction files as [|fp files IH]; [done|].
    rewrite !filter_cons.
    destruct (is_ok (parse_filename (Py.basename fp)));
      repeat case_decide; try done; simpl; lia.
  - clear r. unfold warnings. induction files as [|fp files IH]; [constructor|].
    rewrite filter_cons. csimpl. unfold warning_of at 1.
    destruct (parse_filename (Py.basename fp)) as [[]|e] eqn:Hp; simpl; [done|].
    constructor; [by exists e|done].
Qed.

(** ** The position of every call in the cycle *)

Lemma succ_mod (k q : Z) :
  0 ≤ k → 0 < q →
  (k + 1) mod q = if k mod q + 1 <? q then k mod q + 1 else 0.
Proof.
  intros Hk Hq. pose proof (Z.mod_pos_bound k q Hq) as Hb.
  pose proof (Z.div_mod k q) as Hdm.
  destruct (Z.ltb_spec (k mod q + 1) q).
  - symmetry. apply (Z.mod_unique_pos _ _ (k / q)); lia.
  - symmetry. apply (Z.mod_unique_pos _ _ (k / q + 1)); lia.
Qed.

Lemma fits_iff (j N M : Z) : 0 < N → 0 ≤ M → j * N ≤ M ↔ j ≤ M / N.
Proof.
  intros HN HM. split; intros H.
  - apply Z.div_le_lower_bound; lia.
  - pose proof (Z.mul_div_le M N HN). nia.
Qed.

Lemma next_batches_position (k : nat) (st0 : state) :
  let N := num_shops (self st0) in
  let corpus := all_files (self st0) in
  let q := len corpus / N in
  0 < N → N ≤ len corpus → current_index (self st0) = 0 →
  ∃ earlier st',
    next_batches (S k) st0 =
      (Ok (earlier ++ [snd <$> segment (Z.to_nat ((Z.of_nat k mod q) * N))
                                 (Z.to_nat N) corpus]), st') ∧
    length earlier = k ∧ same_corpus st0 st' ∧
    current_index (self st') = (Z.of_nat k mod q + 1) * N.
Proof.
  intros N corpus q HN HM H0.
  assert (1 ≤ q) as Hq by (apply Z.div_le_lower_bound; lia).
  assert (0 ≤ len corpus) as HM0 by (unfold len; lia).
  induction k as [|k IH].
  - rewrite next_batches_snoc. simpl.
    rewrite get_next_batch_advance by (fold N corpus; lia).
    exists [], (at_index st0 (current_index (self st0) + N)).
    fold N corpus. rewrite H0, Z.mod_0_l by lia. simpl.
    repeat split; try done. lia.
  - destruct IH as (earlier & st1 & Hrun & Hlen & Hsc & Hc).
    destruct (same_corpus_fields _ _ Hsc) as (HN1 & HF1 & _).
    rewrite next_batches_snoc, Hrun.
    pose proof (Z.mod_pos_bound (Z.of_nat k) q ltac:(lia)) as Hb.
    pose proof (succ_mod (Z.of_nat k) q ltac:(lia) ltac:(lia)) as Hs.
    replace (Z.of_nat k + 1) with (Z.of_nat (S k)) in Hs by lia.
    pose proof (fits_iff (Z.of_nat k mod q + 2) N (len corpus) HN HM0) as Hfit.
    fold q in Hfit.
    destruct (Z.ltb_spec (Z.of_nat k mod q + 1) q) as [Hin|Hout].
    + rewrite get_next_batch_advance by (rewrite ?HN1, ?HF1, ?Hc; fold N corpus; nia).
      rewrite HN1, HF1, Hc. fold N corpus. rewrite Hs.
      eexists _, _. split; [reflexivity|].
      split; [rewrite length_app; simpl; lia|].
      split; [|simpl; lia].
      eapply same_corpus_trans; [exact Hsc|]. by split.
    + rewrite get_next_batch_wrap by (rewrite ?HN1, ?HF1, ?Hc; fold N corpus; nia).
      rewrite HN1, HF1. fold N corpus. rewrite Hs. simpl.
      eexists _, _. split; [reflexivity|].
      split; [rewrite length_app; simpl; lia|].
      split; [|simpl; lia].
      eapply same_corpus_trans; [exact Hsc|]. by split.
Qed.

(** X3. The place of every call in the cycle.  With [0 < N <= M], the
    cursor at 0 and [q = floor(M/N)], call number [k+1] returns the
    segment [[j*N, (j+1)*N)] of the corpus with [j = k mod q], and leaves
    the cursor at [(j+1)*N]: the batches repeat with period [q]. *)
Theorem batches_are_periodic (st0 : state) (k : nat) :
  let N := num_shops (self st0) in
  let corpus := all_files (self st0) in
  let q := len corpus / N in
  0 < N → N ≤ len corpus → current_index (self st0) = 0 →
  ∃ earlier later,
    (next_batches (S k) st0).1 =
      Ok (earlier ++ [snd <$> segment (Z.to_nat ((Z.of_nat k mod q) * N))
                                (Z.to_nat N) corpus]) ∧
    length earlier = k ∧
    current_index (self (next_batches (S k) st0).2) = (Z.of_nat k mod q + 1) * N ∧
    (next_batches (S (k + Z.to_nat q)) st0).1 =
      Ok (later ++ [snd <$> segment (Z.to_nat ((Z.of_nat k mod q) * N))
                              (Z.to_nat N) corpus]) ∧
    length later = (k + Z.to_nat q)%nat.
Proof.
  intros N corpus q HN HM H0.
  assert (1 ≤ q) as Hq by (apply Z.div_le_lower_bound; lia).
  destruct (next_batches_position k st0 HN HM H0) as (earlier & st1 & Hrun & Hlen & _ & Hc).
  destruct (next_batches_position (k + Z.to_nat q) st0 HN HM H0)
    as (later & st2 & Hrun2 & Hlen2 & _ & _).
  fold N corpus q in Hrun, Hc, Hrun2.
  replace (Z.of_nat (k + Z.to_nat q) mod q) with (Z.of_nat k mod q) in Hrun2.
  2: { rewrite Nat2Z.inj_add, Z2Nat.id by lia.
       rewrite <- (Z.mul_1_l q) at 2. by rewrite Z.mod_add by lia. }
  exists earlier, later. rewrite Hrun, Hrun2. done.
Qed.

Lemma batches_are_periodic_witness :
  ∃ earlier,
    (next_batches 4 five_two).1 =
      Ok (earlier ++ [["/data/Shop-1-20210104-07.csv"; "/data/Shop-2-20210104-07.csv"]]) ∧
    current_index (self (next_batches 4 five_two).2) = 4.
Proof.
  destruct (batches_are_periodic five_two 3) as (earlier & _ & Hrun & _ & Hc & _).
  - reflexivity.
  - vm_compute. discriminate.
  - reflexivity.
  - exists earlier. split; [exact Hrun|exact Hc].
Defined.

(** X4. [total_batches], the value the constructor computes as
    [len(all_files) // num_shops], is the number of calls before the first
    restart: with [0 < N <= M] and the cursor at 0, the first
    [total_batches] calls log nothing and end with the cursor at
    [total_batches * N]; the call after them logs the restart warning. *)
Theorem total_batches_before_restart (st0 : state) :
  let N := num_shops (self st0) in
  let corpus := all_files (self st0) in
  let q := Z.to_nat (total_batches (self st0)) in
  0 < N → N ≤ len corpus → current_index (self st0) = 0 →
  total_batches (self st0) = len corpus / N →
  log (next_batches q st0).2 = log st0 ∧
  current_index (self (next_batches q st0).2) = total_batches (self st0) * N ∧
  log (next_batches (S q) st0).2 = log st0 ++ [Warning_restart].
Proof.
  intros N corpus q HN HM H0 Htb.
  assert (1 ≤ len corpus / N) as Hq by (apply Z.div_le_lower_bound; lia).
  assert (Z.of_nat q = len corpus / N) as Hqz by (unfold q; rewrite Htb; lia).
  pose proof (Z.mul_div_le (len corpus) N HN) as Hle.
  pose proof (Z.mod_pos_bound (len corpus) N HN) as Hmod.
  pose proof (Z.div_mod (len corpus) N ltac:(lia)) as Hdm.
  assert (next_batches q st0 =
            (Ok ((λ i, snd <$> segment (i * Z.to_nat N) (Z.to_nat N) corpus) <$> seq 0 q),
             at_index st0 ((Z.of_nat 0 + Z.of_nat q) * N))) as Hrun.
  { apply (next_batches_tiling q 0 st0); fold N corpus; try done. simpl. nia. }
  rewrite next_batches_snoc, Hrun. simpl.
  split; [done|]. split; [rewrite Htb; lia|].
  rewrite get_next_batch_wrap; simpl; fold N corpus; try lia. done.
Qed.

Lemma total_batches_before_restart_witness :
  log (next_batches 2 five_two).2 = [] ∧
  log (next_batches 3 five_two).2 = [Warning_restart].
Proof.
  destruct (total_batches_before_restart five_two) as (Hq & _ & HSq).
  - reflexivity.
  - vm_compute. discriminate.
  - reflexivity.
  - reflexivity.
  - split; [exact Hq|exact HSq].
Defined.

(** ** What a batch copy depends on *)








(** ** What a run leaves alone *)

Lemma only_writes_refl (ws : list string) (d : gmap string string) : only_writes ws d d.
Proof. by split. Qed.

Lemma only_writes_trans (ws : list string) (d1 d2 d3 : gmap string string) :
  only_writes ws d1 d2 → only_writes ws d2 d3 → only_writes ws d1 d3.
Proof.
  intros [H1 K1] [H2 K2]. split.
  - intros x Hx. by rewrite H2, H1.
  - intros x Hx. by apply K2, K1.
Qed.

Lemma copy_step_keeps_files (dest : string) (d : gmap string string) (p x : string) :
  is_Some (d !! x) → is_Some (copy_step dest d p !! x).
Proof.
  intros Hx. unfold copy_step. destruct (d !! p); [|done].
  destruct (String.eqb p (destination dest p)); [done|].
  apply lookup_insert_is_Some'. by right.
Qed.

Lemma foldl_only_writes (dest : string) (l ws : list string) (d : gmap string string) :
  destination dest <$> l ⊆ ws → only_writes ws d (foldl (copy_step dest) d l).
Proof.
  intros Hsub. split.
  - intros x Hx. apply foldl_other_keys. intros Hin. by apply Hx, Hsub.
  - clear Hsub. revert d. induction l as [|p l IH]; intros d x Hx; simpl; [done|].
    by apply IH, copy_step_keeps_files.
Qed.

Lemma frames_refl (st : state) : frames st st.
Proof. split; [by destruct st as [[] ? ?]|apply only_writes_refl]. Qed.

Lemma frames_trans (st1 st2 st3 : state) :
  frames st1 st2 → frames st2 st3 → frames st1 st3.
Proof.
  intros [H1 W1] [H2 W2]. split; [by rewrite H2, H1|].
  eapply only_writes_trans; [exact W1|]. by rewrite H1 in W2.
Qed.

Lemma frames_logged (st : state) (rs : list record) : frames st (logged st rs).
Proof. split; [by destruct st as [[] ? ?]|apply only_writes_refl]. Qed.

Lemma copy_batch_frames (st : state) : frames st (copy_batch st).2.
Proof.
  destruct (get_next_batch_total st) as (batch & st1 & Hb & Hsc & Hsub & _).
  assert (frames st st1) as Hf1.
  { destruct Hsc as [Hs Hd]. split; [done|]. rewrite Hd. apply only_writes_refl. }
  eapply frames_trans; [exact Hf1|].
  unfold copy_batch, mbind, M_bind. rewrite Hb.
  destruct (dispatch_cases batch st1)
    as [[-> H]|[[_ [e H]]|[_ (n & d & h & H)]]].
  - rewrite H. apply frames_logged.
  - rewrite (H st1 eq_refl). apply frames_refl.
  - destruct (H st1 eq_refl) as (rs & st' & -> & Hself & Hdisk & _). simpl.
    split; [rewrite Hself; by destruct (self st1)|].
    rewrite Hdisk. apply foldl_only_writes.
    destruct (same_corpus_fields _ _ Hsc) as (_ & HF & HD).
    unfold destinations. rewrite HF. intros x (p & -> & Hp)%list_elem_of_fmap.
    apply list_elem_of_fmap_2. by apply Hsub.
Qed.

Lemma loop_frames (ticks : nat) (batch_number : Z) (st : state) :
  frames st (loop ticks batch_number st).2.
Proof.
  revert batch_number st. induction ticks as [|ticks IH]; intros b st.
  - apply frames_refl.
  - simpl. unfold mbind, M_bind. unfold logger at 1.
    fold (logged st [Info_batch_number (b + 1)]).
    pose proof (copy_batch_frames (logged st [Info_batch_number (b + 1)])) as Hcb.
    destruct (copy_batch (logged st [Info_batch_number (b + 1)])) as [[ok|e] st1].
    + unfold get_self, logger, sleep, mret, M_ret.
      fold (logged st1 [Info_waiting (interval_seconds (self st1))]).
      eapply frames_trans; [exact Hcb|].
      eapply frames_trans; [apply (frames_logged st1)|apply IH].
    + exact Hcb.
Qed.

Lemma run_continuous_frames (ticks : nat) (st : state) :
  frames st (run_continuous ticks st).2.
Proof.
  unfold run_continuous, mbind, M_bind, get_self, try_except.
  unfold logger at 1.
  fold (logged st [Info_continuous (num_shops (self st)) (interval_seconds (self st))]).
  pose proof (loop_frames ticks 0
                (logged st [Info_continuous (num_shops (self st))
                              (interval_seconds (self st))])) as Hl.
  destruct (loop ticks 0 _) as [[[]|e] st1]; simpl in *; exact Hl.
Qed.

Lemma run_once_frames (st : state) : frames st (run_once st).2.
Proof.
  unfold run_once, mbind, M_bind. unfold logger at 1. fold (logged st [Info_starting]).
  pose proof (copy_batch_frames (logged st [Info_starting])) as Hcb.
  destruct (copy_batch (logged st [Info_starting])) as [[ok|e] st1]; simpl in *; exact Hcb.
Qed.

(** X6. What a run of the program can touch.  Whatever the arguments, the
    listing, the mode and the number of rounds, after [main] the file
    system differs from the one it started with only at paths
    [dest/filename] for files of the listing whose name parses; no file
    is removed; and every path that is not its own destination (so every
    source file outside the destination directory) has the content it
    had. *)
Theorem main_only_writes_destinations (args : arguments) (files : list string)
    (ticks : nat) (st : state) :
  let st' := (main args files ticks st).2 in
  (∀ x, x ∉ destination (dest args) <$> (snd <$> corpus_of files) →
        disk st' !! x = disk st !! x) ∧
  (∀ x, is_Some (disk st !! x) → is_Some (disk st' !! x)) ∧
  (∀ x, destination (dest args) x ≠ x → disk st' !! x = disk st !! x).
Proof.
  intros st'.
  assert (only_writes (destination (dest args) <$> (snd <$> corpus_of files))
            (disk st) (disk st')) as [Hw Hk].
  { unfold st', main, mbind, M_bind.
    destruct (Z.eq_dec (shops args) 0) as [H0|H0].
    - unfold __init__, mbind, M_bind. simpl. rewrite get_sorted_files_spec. simpl.
      rewrite H0. simpl. apply only_writes_refl.
    - rewrite init_spec by done.
      set (st0 := {| self := constructed (source args) (dest args) (shops args)
                               (interval args) files;
                     disk := disk st; log := _ |}).
      change (destination (dest args) <$> (corpus_of files).*2)
        with (destinations (self st0)).
      change (disk st) with (disk st0).
      destruct (once args).
      + pose proof (run_once_frames st0) as [_ Hf].
        destruct (run_once st0) as [[ok|e] st1]; exact Hf.
      + exact (proj2 (run_continuous_frames ticks st0)). }
  split; [done|]. split; [done|].
  intros x Hx. apply Hw. intros (p & -> & _)%list_elem_of_fmap.
  apply Hx, destination_idem.
Qed.

(** ** Single-shot and continuous mode *)



(** ** The order of the batches of a cycle *)

Lemma StronglySorted_lookup {A} (R : A → A → Prop) (l : list A) (a b : nat) (x y : A) :
  StronglySorted R l → (a < b)%nat → l !! a = Some x → l !! b = Some y → R x y.
Proof.
  intros Hs. revert a b. induction Hs as [|z l Hs IH Hz]; intros a b Hab Ha Hb; [done|].
  destruct b as [|b]; [lia|]. destruct a as [|a]; simpl in *.
  - injection Ha as ->. rewrite Forall_forall in Hz. apply Hz.
    by eapply list_elem_of_lookup_2.
  - apply (IH a b); [lia|done..].
Qed.

Lemma elem_of_segment {A} (i n : nat) (l : list A) (x : A) :
  x ∈ segment i n l → ∃ a, (a < n)%nat ∧ l !! (i + a)%nat = Some x.
Proof.
  unfold segment. intros (a & Ha & Hlt)%elem_of_take.
  exists a. split; [done|]. by rewrite lookup_drop in Ha.
Qed.

(** X8. Within a cycle the replay is chronological.  For a corpus produced
    by the indexer, [0 < N <= M] and the cursor at 0, take the batches of
    the first [floor(M/N)] calls: no artifact of a later batch has a
    timestamp before that of an artifact of an earlier batch. *)
Theorem cycle_is_chronological (files : list string) (st0 : state) :
  let N := num_shops (self st0) in
  let q := Z.to_nat (len (corpus_of files) / N) in
  all_files (self st0) = corpus_of files →
  0 < N → N ≤ len (corpus_of files) → current_index (self st0) = 0 →
  ∃ batches,
    (next_batches q st0).1 = Ok batches ∧ length batches = q ∧
    ∀ i j bi bj t t' p p',
      (i < j)%nat → batches !! i = Some bi → batches !! j = Some bj →
      (t, p) ∈ corpus_of files → (t', p') ∈ corpus_of files →
      p ∈ bi → p' ∈ bj →
      datetime_lt t' t = false.
Proof.
  intros N q Hfiles HN HM H0.
  assert (Z.of_nat q = len (corpus_of files) / N) as Hq.
  { unfold q. rewrite Z2Nat.id; [done|]. apply Z.div_pos; unfold len; lia. }
  pose proof (Z.mul_div_le (len (corpus_of files)) N HN) as Hle.
  rewrite (next_batches_tiling q 0 st0); fold N; rewrite ?Hfiles; try done; [|simpl; nia].
  eexists. split; [reflexivity|]. split; [by rewrite length_fmap, length_seq|].
  intros i j bi bj t t' p p' Hij Hi Hj Ht Ht' Hp Hp'.
  rewrite list_lookup_fmap in Hi, Hj.
  destruct (seq 0 q !! i) as [i'|] eqn:Hsi; [|done].
  destruct (seq 0 q !! j) as [j'|] eqn:Hsj; [|done].
  apply lookup_seq in Hsi as [-> _]. apply lookup_seq in Hsj as [-> _].
  simpl in Hi, Hj. injection Hi as <-. injection Hj as <-.
  apply list_elem_of_fmap in Hp as ([t0 p0] & -> & Hp).
  apply list_elem_of_fmap in Hp' as ([t0' p0'] & -> & Hp'). simpl in *.
  apply elem_of_segment in Hp as (a & Ha & Hla).
  apply elem_of_segment in Hp' as (b & Hb & Hlb).
  assert (t0 = t) as ->.
  { apply (corpus_timestamp_unique files _ _ p0); [|done].
    by eapply list_elem_of_lookup_2. }
  assert (t0' = t') as ->.
  { apply (corpus_timestamp_unique files _ _ p0'); [|done].
    by eapply list_elem_of_lookup_2. }
  apply (StronglySorted_lookup (λ x y, datetime_lt y x = false)
           (fst <$> corpus_of files) (i * Z.to_nat N + a) (j * Z.to_nat N + b)).
  - apply corpus_timestamps_sorted.
  - nia.
  - by rewrite list_lookup_fmap, Hla.
  - by rewrite list_lookup_fmap, Hlb.
Qed.

Lemma cycle_is_chronological_witness :
  ∃ batches,
    (next_batches 2 {| self := constructed "/data" "/realtime" 2 3600 four_files;
                       disk := ∅; log := [] |}).1 = Ok batches ∧
    length batches = 2%nat.
Proof.
  destruct (cycle_is_chronological four_files
              {| self := constructed "/data" "/realtime" 2 3600 four_files;
                 disk := ∅; log := [] |}) as (batches & Hrun & Hlen & _).
  - reflexivity.
  - reflexivity.
  - vm_compute. discriminate.
  - reflexivity.
  - exists batches. split; [exact Hrun|exact Hlen].
Defined.

(** ** What [int] and [strptime] accept *)

Lemma digit_is_plain (c : ascii) :
  Py.isdigit c = true →
  Py.isspace c = false ∧ 0 ≤ Py.digit_value c ≤ 9.
Proof.
  unfold Py.isdigit, Py.isspace, Py.digit_value.
  intros [H1 H2]%andb_prop. apply Nat.leb_le in H1, H2.
  split; [|lia].
  apply orb_false_intro; [apply andb_false_intro2|]; [apply Nat.leb_gt|apply Nat.eqb_neq]; lia.
Qed.

Lemma int_unfold (s : string) :
  Py.int s =
    let s1 := Py.lstrip s in
    let body (sign : Z) (s2 : string) : result Z :=
      match s2 with
      | EmptyString => Raise ValueError
      | String c _ =>
          if Py.isdigit c then
            '(n, rest) ← Py.scan_digits 0 false s2;
            match Py.lstrip rest with
            | EmptyString => Ok (sign * n)
            | String _ _ => Raise ValueError
            end
          else Raise ValueError
      end in
    match s1 with
    | EmptyString => Raise ValueError
    | String c r =>
        if Ascii.eqb c "+" then body 1 r
        else if Ascii.eqb c "-" then body (-1) r
        else body 1 s1
    end.
Proof.
  unfold Py.int. destruct (Py.lstrip s) as [|c r]; [reflexivity|].
  destruct c as [[] [] [] [] [] [] [] []]; reflexivity.
Qed.

Lemma digit_not_sign (c : ascii) :
  Py.isdigit c = true →
  Ascii.eqb c "+" = false ∧ Ascii.eqb c "-" = false ∧ Ascii.eqb c "_" = false.
Proof.
  intros H. repeat split.
  - destruct (Ascii.eqb_spec c "+") as [->|]; [discriminate H|done].
  - destruct (Ascii.eqb_spec c "-") as [->|]; [discriminate H|done].
  - destruct (Ascii.eqb_spec c "_") as [->|]; [discriminate H|done].
Qed.

Lemma scan_all_digits (s : string) (acc : Z) :
  all_digits s = true → Py.scan_digits acc false s = Ok (digits_value acc s, EmptyString).
Proof.
  revert acc. induction s as [|c s IH]; intros acc; simpl; [done|].
  intros [Hc Hs]%andb_prop. rewrite Hc. by apply IH.
Qed.

Lemma int_all_digits (c : ascii) (s : string) :
  Py.isdigit c = true → all_digits s = true →
  Py.int (String c s) = Ok (digits_value 0 (String c s)).
Proof.
  intros Hc Hs. rewrite int_unfold. cbv zeta. simpl Py.lstrip.
  destruct (digit_is_plain c Hc) as [Hsp _]. rewrite Hsp.
  destruct (digit_not_sign c Hc) as (Hp & Hm & _). rewrite Hp, Hm, Hc.
  rewrite scan_all_digits by (simpl; by rewrite Hc, Hs).
  simpl. f_equal. lia.
Qed.

Lemma digits_value_bounds (s : string) (acc : Z) :
  all_digits s = true → 0 ≤ acc →
  acc * 10 ^ Z.of_nat (String.length s) ≤ digits_value acc s
    < (acc + 1) * 10 ^ Z.of_nat (String.length s).
Proof.
  revert acc. induction s as [|c s IH]; intros acc; simpl String.length.
  - intros _ Hacc. simpl. lia.
  - intros [Hc Hs]%andb_prop Hacc. simpl digits_value.
    destruct (digit_is_plain c Hc) as [_ Hd].
    specialize (IH (10 * acc + Py.digit_value c) Hs ltac:(lia)).
    rewrite Nat2Z.inj_succ, Z.pow_succ_r by lia.
    assert (0 < 10 ^ Z.of_nat (String.length s)) by (apply Z.pow_pos_nonneg; lia).
    nia.
Qed.

Lemma match_seq_cons_inv (k : Strptime.cls) (p : list Strptime.cls) (s m r : string) :
  Strptime.match_seq (k :: p) s = Some (m, r) →
  ∃ c s' m', s = String c s' ∧ k c = true ∧
             Strptime.match_seq p s' = Some (m', r) ∧ m = String c m'.
Proof.
  destruct s as [|c s']; simpl; [done|].
  destruct (k c) eqn:Hk; [|done].
  destruct (Strptime.match_seq p s') as [[m' r']|] eqn:Hp; [|done].
  intros [= <- <-]. by exists c, s', m'.
Qed.

Lemma match_seq_nil_inv (s m r : string) :
  Strptime.match_seq [] s = Some (m, r) → m = EmptyString ∧ r = s.
Proof. simpl. by intros [= <- <-]. Qed.

Lemma group_inv (alts : list (list Strptime.cls)) (s m r : string) :
  (m, r) ∈ Strptime.group alts s →
  ∃ alt, alt ∈ alts ∧ Strptime.match_seq alt s = Some (m, r).
Proof. unfold Strptime.group. by intros ?%list_elem_of_omap. Qed.

Lemma rng_digit (lo hi c : ascii) (a b : Z) :
  Strptime.rng lo hi c = true →
  (48 ≤ nat_of_ascii lo)%nat → (nat_of_ascii hi ≤ 57)%nat →
  a = Z.of_nat (nat_of_ascii lo) - 48 → b = Z.of_nat (nat_of_ascii hi) - 48 →
  Py.isdigit c = true ∧ a ≤ Py.digit_value c ≤ b.
Proof.
  unfold Strptime.rng, Py.isdigit, Py.digit_value.
  intros [H1 H2]%andb_prop Hlo Hhi -> ->. apply Nat.leb_le in H1, H2.
  split; [|lia]. apply andb_true_intro. split; apply Nat.leb_le; lia.
Qed.

Lemma dig_digit (c : ascii) :
  Strptime.dig c = true → Py.isdigit c = true ∧ 0 ≤ Py.digit_value c ≤ 9.
Proof. intros H. split; [done|]. by apply digit_is_plain. Qed.

Lemma chr_inv (d c : ascii) : Strptime.chr d c = true → c = d.
Proof. unfold Strptime.chr. by intros ->%Ascii.eqb_eq. Qed.

Lemma int_skip_space (s : string) : Py.int (String " " s) = Py.int s.
Proof. reflexivity. Qed.

(** Turns a successful match of one alternative into facts about its
    characters. *)
Ltac invert_alternative H :=
  repeat
    (first
       [ apply match_seq_nil_inv in H as [-> ->]
       | let c := fresh "c" in
         let s := fresh "s" in
         let m := fresh "m" in
         let Hk := fresh "Hk" in
         apply match_seq_cons_inv in H as (c & s & m & -> & Hk & H & ->) ]).

Ltac class_facts :=
  repeat match goal with
  | H : Strptime.chr _ _ = true |- _ => apply chr_inv in H; subst
  | H : Strptime.rng _ _ _ = true |- _ =>
      eapply rng_digit in H as [? ?];
      [|vm_compute; lia|vm_compute; lia|vm_compute; reflexivity|vm_compute; reflexivity]
  | H : Strptime.dig _ = true |- _ => apply dig_digit in H as [? ?]
  end.

Ltac all_digits_goal :=
  repeat first [assumption | reflexivity | apply andb_true_intro; split | progress simpl].

(** The value [int] gives to the text a group has matched. *)
Ltac group_value Hv :=
  rewrite ?int_skip_space in Hv;
  rewrite int_all_digits in Hv by all_digits_goal;
  injection Hv as <-; simpl digits_value;
  repeat match goal with
  | |- context [Py.digit_value (Ascii ?a ?b ?c ?d ?e ?f ?g ?h)] =>
      let v := eval vm_compute in (Py.digit_value (Ascii a b c d e f g h)) in
      change (Py.digit_value (Ascii a b c d e f g h)) with v
  end;
  lia.

Ltac group_cases Halt Hm :=
  repeat (apply elem_of_cons in Halt as [->|Halt]); [..|by apply elem_of_nil in Halt];
  invert_alternative Hm; class_facts.

Lemma re_m_value (s m r : string) (v : Z) :
  (m, r) ∈ Strptime.group Strptime.re_m s → Py.int m = Ok v → 1 ≤ v ≤ 12.
Proof.
  intros (alt & Halt & Hm)%group_inv Hv. unfold Strptime.re_m in Halt.
  group_cases Halt Hm; group_value Hv.
Qed.

Lemma re_d_value (s m r : string) (v : Z) :
  (m, r) ∈ Strptime.group Strptime.re_d s → Py.int m = Ok v → 1 ≤ v ≤ 31.
Proof.
  intros (alt & Halt & Hm)%group_inv Hv. unfold Strptime.re_d in Halt.
  group_cases Halt Hm; group_value Hv.
Qed.

Lemma re_H_value (s m r : string) (v : Z) :
  (m, r) ∈ Strptime.group Strptime.re_H s → Py.int m = Ok v → 0 ≤ v ≤ 23.
Proof.
  intros (alt & Halt & Hm)%group_inv Hv. unfold Strptime.re_H in Halt.
  group_cases Halt Hm; group_value Hv.
Qed.

Lemma re_Y_value (s m r : string) (v : Z) :
  (m, r) ∈ Strptime.group Strptime.re_Y s → Py.int m = Ok v → 0 ≤ v ≤ 9999.
Proof.
  intros (alt & Halt & Hm)%group_inv Hv. unfold Strptime.re_Y in Halt.
  group_cases Halt Hm; group_value Hv.
Qed.

Lemma strptime_in_range (s : string) (t : datetime) :
  strptime s = Ok t →
  1 ≤ year t ≤ 9999 ∧ 1 ≤ month t ≤ 12 ∧
  1 ≤ day t ≤ days_in_month (year t) (month t) ∧ 0 ≤ hour t ≤ 23.
Proof.
  unfold strptime.
  destruct (Strptime.matches s) as [|[[[[Y m] d] H] rest] tl] eqn:Hm; [done|].
  destruct rest; [|done].
  assert ((Y, m, d, H, EmptyString) ∈ Strptime.matches s) as Hin by (rewrite Hm; left).
  unfold Strptime.matches in Hin.
  apply list_elem_of_bind in Hin as ([Y' r1] & Hin & HY).
  apply list_elem_of_bind in Hin as ([m' r2] & Hin & Hmo).
  apply list_elem_of_bind in Hin as ([d' r3] & Hin & Hd).
  apply list_elem_of_bind in Hin as ([? r4] & Hin & _).
  apply list_elem_of_bind in Hin as ([H' r5] & Hin & HH).
  apply list_elem_of_singleton in Hin. injection Hin as <- <- <- <- <-.
  unfold mbind, result_bind.
  destruct (Py.int Y) as [y|] eqn:Ey; [|done].
  destruct (Py.int m) as [mo|] eqn:Em; [|done].
  destruct (Py.int d) as [da|] eqn:Ed; [|done].
  destruct (Py.int H) as [h|] eqn:Eh; [|done].
  destruct ((1 <=? y) && (da <=? days_in_month y mo)) eqn:Hchk; [|done].
  intros [= <-]. simpl.
  apply andb_prop in Hchk as [Hy Hda]. apply Z.leb_le in Hy, Hda.
  pose proof (re_Y_value _ _ _ _ HY Ey). pose proof (re_m_value _ _ _ _ Hmo Em).
  pose proof (re_d_value _ _ _ _ Hd Ed). pose proof (re_H_value _ _ _ _ HH Eh).
  lia.
Qed.

Lemma scan_digits_nonneg (s : string) (acc : Z) (prev : bool) (n : Z) (rest : string) :
  0 ≤ acc → Py.scan_digits acc prev s = Ok (n, rest) → 0 ≤ n.
Proof.
  revert acc prev. induction s as [|c s IH]; intros acc prev Hacc; simpl.
  - destruct prev; [done|]. by intros [= <- _].
  - destruct (Py.isdigit c) eqn:Hc.
    + destruct (digit_is_plain c Hc) as [_ Hd]. apply IH. lia.
    + destruct (Ascii.eqb c "_"); destruct prev; try done; [by apply IH|].
      by intros [= <- _].
Qed.

Lemma lstrip_contains (c : ascii) (s : string) :
  contains c s = false → contains c (Py.lstrip s) = false.
Proof.
  induction s as [|d s IH]; [done|]. simpl.
  intros [Hd Hs]%orb_false_elim. destruct (Py.isspace d); [by apply IH|].
  simpl. by rewrite Hd, Hs.
Qed.

Lemma int_without_minus (s : string) (v : Z) :
  contains "-" s = false → Py.int s = Ok v → 0 ≤ v.
Proof.
  intros Hs%lstrip_contains. rewrite int_unfold. cbv zeta.
  destruct (Py.lstrip s) as [|c r]; [done|].
  change (contains "-" (String c r)) with (Ascii.eqb "-" c || contains "-" r) in Hs.
  apply orb_false_elim in Hs as [Hc Hr].
  rewrite Ascii.eqb_sym in Hc. rewrite Hc.
  assert (∀ s2, match s2 with
                | EmptyString => Raise ValueError
                | String c0 _ =>
                    if Py.isdigit c0 then
                      '(n, rest) ← Py.scan_digits 0 false s2;
                      match Py.lstrip rest with
                      | EmptyString => Ok (1 * n)
                      | String _ _ => Raise ValueError
                      end
                    else Raise ValueError
                end = Ok v → 0 ≤ v) as Hbody.
  { intros [|c0 s0]; [done|]. destruct (Py.isdigit c0); [|done].
    unfold mbind, result_bind.
    destruct (Py.scan_digits 0 false (String c0 s0)) as [[n rest]|] eqn:Hscan; [|done].
    apply scan_digits_nonneg in Hscan; [|lia].
    destruct (Py.lstrip rest); [|done]. intros [= <-]. lia. }
  destruct (Ascii.eqb c "+"); cbv beta; intros Hv;
    [exact (Hbody r Hv)|exact (Hbody (String c r) Hv)].
Qed.

(** X9. Every name the indexer's parser accepts denotes a real calendar
    hour and a shop number that is not negative: the year lies in 1..9999,
    the month in 1..12, the day in 1..(days of that month, leap years
    included), the hour in 0..23. *)
Theorem parsed_fields_in_range (filename : string) (t : datetime) (shop_id : Z) :
  parse_filename filename = Ok (t, shop_id) →
  1 ≤ year t ≤ 9999 ∧ 1 ≤ month t ≤ 12 ∧
  1 ≤ day t ≤ days_in_month (year t) (month t) ∧ 0 ≤ hour t ≤ 23 ∧
  0 ≤ shop_id.
Proof.
  unfold parse_filename.
  pose proof (split_without_sep "-" (Py.replace ".csv" EmptyString filename)) as Hparts.
  destruct (Py.split "-" (Py.replace ".csv" EmptyString filename))
    as [|p0 [|p1 [|p2 [|p3 rest]]]]; try done; simpl.
  - by destruct (Py.int p1).
  - by destruct (Py.int p1).
  - destruct (Py.int p1) as [sid|] eqn:Hint; [|done]. simpl.
    destruct (strptime (p2 +:+ "-" +:+ p3)) as [ts|] eqn:Htime; [|done]. simpl.
    intros [= <- <-].
    apply strptime_in_range in Htime.
    apply Forall_cons in Hparts as [_ Hparts]. apply Forall_cons in Hparts as [Hp1 _].
    apply (int_without_minus p1) in Hint; [|done]. tauto.
Qed.

Lemma parsed_fields_in_range_witness :
  parse_filename "Shop-6-20210104-06.csv" = Ok (Datetime 2021 1 4 6, 6) ∧
  1 ≤ 2021 ≤ 9999 ∧ 1 ≤ 1 ≤ 12 ∧ 1 ≤ 4 ≤ days_in_month 2021 1 ∧ 0 ≤ 6 ≤ 23 ∧
  0 ≤ 6.
Proof.
  split; [reflexivity|].
  exact (parsed_fields_in_range "Shop-6-20210104-06.csv" (Datetime 2021 1 4 6) 6
           eq_refl).
Defined.

(** * The data generator

    [generate_sample_data.py] writes the files that the simulator replays. *)

(** [str] on a number that is not negative: its decimal digits. *)
Lemma all_digits_of_uint (d : Decimal.uint) :
  all_digits (NilEmpty.string_of_uint d) = true.
Proof. induction d; simpl; done. Qed.

Ltac digit_values :=
  repeat match goal with
  | |- context [Py.digit_value (Ascii ?a ?b ?c ?d ?e ?f ?g ?h)] =>
      let v := eval vm_compute in (Py.digit_value (Ascii a b c d e f g h)) in
      change (Py.digit_value (Ascii a b c d e f g h)) with v
  end.

Lemma digits_value_of_uint_acc (d : Decimal.uint) (acc : positive) :
  digits_value (Z.pos acc) (NilEmpty.string_of_uint d) = Z.pos (Pos.of_uint_acc d acc).
Proof.
  revert acc. induction d; intros acc; simpl; [done|..];
    rewrite <- IHd; f_equal; digit_values; lia.
Qed.

Lemma digits_value_of_uint (d : Decimal.uint) :
  digits_value 0 (NilEmpty.string_of_uint d) = Z.of_N (Pos.of_uint d).
Proof.
  induction d; simpl; [done|exact IHd|..];
    rewrite <- digits_value_of_uint_acc; f_equal.
Qed.

Lemma to_uint_leading (p : positive) (u : Decimal.uint) :
  Pos.to_uint p ≠ Decimal.D0 u.
Proof.
  intros Hu. pose proof (Unsigned.to_of (Pos.to_uint p)) as Hnorm.
  rewrite Unsigned.of_to in Hnorm. simpl in Hnorm.
  rewrite Hu, DecimalFacts.unorm_D0 in Hnorm.
  destruct (Decimal.uint_eq_dec (Decimal.nzhead u) Decimal.Nil) as [Hnil|Hnil].
  - apply DecimalFacts.unorm_0 in Hnil. rewrite Hnil in Hnorm.
    apply (Unsigned.to_uint_nonzero p). by rewrite Hu, Hnorm.
  - rewrite DecimalFacts.unorm_nzhead in Hnorm by done.
    by apply (DecimalFacts.nzhead_nonzero u u).
Qed.

Lemma str_digits (n : Z) :
  0 ≤ n →
  ∃ c s, Format.str n = String c s ∧ Py.isdigit c = true ∧ all_digits s = true ∧
         digits_value 0 (String c s) = n ∧ (0 < n → 1 ≤ Py.digit_value c).
Proof.
  intros Hn. destruct n as [|p|p]; [by exists "0"%char, EmptyString| |lia].
  unfold Format.str. simpl Z.to_int. cbv iota beta delta [NilZero.string_of_int].
  pose proof (Unsigned.to_uint_nonnil p) as Hnil.
  pose proof (to_uint_leading p) as Hlead.
  pose proof (all_digits_of_uint (Pos.to_uint p)) as Hall.
  pose proof (digits_value_of_uint (Pos.to_uint p)) as Hval.
  rewrite Unsigned.of_to in Hval.
  unfold NilZero.string_of_uint.
  destruct (Pos.to_uint p) as [|u|u|u|u|u|u|u|u|u|u] eqn:Hu;
    [done|by destruct (Hlead u)|..];
    (eexists _, _; split; [reflexivity|]);
    simpl in Hall; (split; [reflexivity|]); (split; [exact Hall|]);
    (split; [exact Hval|]); intros _; digit_values; lia.
Qed.

Lemma int_str (n : Z) : 0 ≤ n → Py.int (Format.str n) = Ok n.
Proof.
  intros (c & s & -> & Hc & Hs & Hv & _)%str_digits.
  by rewrite int_all_digits, Hv.
Qed.

Lemma append_cons (c : ascii) (s t : string) : String c s +:+ t = String c (s +:+ t).
Proof. reflexivity. Qed.

Lemma append_nil_l (t : string) : EmptyString +:+ t = t.
Proof. reflexivity. Qed.

Lemma contains_app (c : ascii) (a b : string) :
  contains c (a +:+ b) = contains c a || contains c b.
Proof.
  induction a as [|d a IH]; [done|].
  rewrite append_cons. simpl. by rewrite IH, orb_assoc.
Qed.

Lemma all_digits_contains (c : ascii) (s : string) :
  Py.isdigit c = false → all_digits s = true → contains c s = false.
Proof.
  intros Hc. induction s as [|d s IH]; [done|]. simpl.
  intros [Hd Hs]%andb_prop. rewrite IH by done.
  destruct (Ascii.eqb_spec c d) as [->|]; [congruence|done].
Qed.

Lemma all_digits_app (a b : string) :
  all_digits (a +:+ b) = all_digits a && all_digits b.
Proof.
  induction a as [|d a IH]; [done|].
  rewrite append_cons. simpl. by rewrite IH, andb_assoc.
Qed.

Lemma replace_suffix (a : string) :
  contains "." a = false → Py.replace ".csv" EmptyString (a +:+ ".csv") = a.
Proof.
  unfold Py.replace. induction a as [|c a IH]; [done|].
  change (contains "." (String c a)) with (Ascii.eqb "." c || contains "." a).
  intros [Hc Ha]%orb_false_elim. apply Ascii.eqb_neq in Hc.
  rewrite append_cons.
  change (Py.replace_from ".csv" EmptyString 0 (String c (a +:+ ".csv")))
    with (if String.prefix ".csv" (String c (a +:+ ".csv"))
          then EmptyString +:+ Py.replace_from ".csv" EmptyString 3 (a +:+ ".csv")
          else String c (Py.replace_from ".csv" EmptyString 0 (a +:+ ".csv"))).
  replace (String.prefix ".csv" (String c (a +:+ ".csv"))) with false.
  - by rewrite IH.
  - cbn [String.prefix]. by destruct (Ascii.ascii_dec "." c).
Qed.

Lemma range_cases (P : Z → Prop) (lo : Z) (n : nat) :
  Forall P ((λ i, lo + Z.of_nat i) <$> seq 0 n) →
  ∀ m, lo ≤ m < lo + Z.of_nat n → P m.
Proof.
  rewrite Forall_fmap, Forall_forall. intros H m Hm.
  replace m with (lo + Z.of_nat (Z.to_nat (m - lo))) by lia.
  apply H, elem_of_seq. lia.
Qed.

(** Settles a property of the two-digit texts of a range by running the
    matcher on each of them. *)
Ltac by_cases lo n :=
  let m := fresh "m" in
  let Hm := fresh "Hm" in
  intros m Hm; pattern m; apply (range_cases _ lo n); [|lia];
  repeat (constructor;
          [intros ?; vm_compute; split; [reflexivity|eexists; reflexivity]|]);
  constructor.

Lemma month_text (m : Z) :
  1 ≤ m ≤ 12 →
  ∀ rest, Py.int (Format.zero_padded 2 m) = Ok m ∧
    ∃ tl, Strptime.group Strptime.re_m (Format.zero_padded 2 m +:+ rest)
          = (Format.zero_padded 2 m, rest) :: tl.
Proof. revert m. by_cases 1 12%nat. Qed.

Lemma day_text (d : Z) :
  1 ≤ d ≤ 31 →
  ∀ rest, Py.int (Format.zero_padded 2 d) = Ok d ∧
    ∃ tl, Strptime.group Strptime.re_d (Format.zero_padded 2 d +:+ rest)
          = (Format.zero_padded 2 d, rest) :: tl.
Proof. revert d. by_cases 1 31%nat. Qed.

Lemma hour_text (h : Z) :
  0 ≤ h ≤ 23 →
  ∀ rest, Py.int (Format.zero_padded 2 h) = Ok h ∧
    ∃ tl, Strptime.group Strptime.re_H (Format.zero_padded 2 h +:+ rest)
          = (Format.zero_padded 2 h, rest) :: tl.
Proof. revert h. by_cases 0 24%nat. Qed.

Lemma year_text_length (y : Z) :
  1000 ≤ y ≤ 9999 → String.length (Format.str y) = 4%nat.
Proof.
  intros Hy. destruct (str_digits y) as (c & s & -> & Hc & Hs & Hv & Hlead); [lia|].
  specialize (Hlead ltac:(lia)). destruct (digit_is_plain c Hc) as [_ Hd].
  simpl in Hv. replace (10 * 0 + Py.digit_value c) with (Py.digit_value c) in Hv by lia.
  pose proof (digits_value_bounds s (Py.digit_value c) Hs ltac:(lia)) as Hb.
  rewrite Hv in Hb. simpl String.length. f_equal.
  destruct (decide (String.length s ≤ 2)%nat) as [Hle|Hgt].
  - assert (10 ^ Z.of_nat (String.length s) ≤ 10 ^ 2)
      by (apply Z.pow_le_mono_r; lia). nia.
  - destruct (decide (4 ≤ String.length s)%nat) as [Hge|]; [|lia].
    assert (10 ^ 4 ≤ 10 ^ Z.of_nat (String.length s))
      by (apply Z.pow_le_mono_r; lia). nia.
Qed.

Lemma year_text (y : Z) :
  1000 ≤ y ≤ 9999 →
  ∀ rest, Py.int (Format.str y) = Ok y ∧
    Strptime.group Strptime.re_Y (Format.str y +:+ rest) = [(Format.str y, rest)].
Proof.
  intros Hy rest. split; [apply int_str; lia|].
  pose proof (year_text_length y Hy) as Hlen.
  destruct (str_digits y) as (c1 & s & Hs & H1 & Hall & _ & _); [lia|].
  rewrite Hs in *. clear Hs.
  destruct s as [|c2 [|c3 [|c4 [|c5 s]]]]; try discriminate Hlen.
  simpl in Hall.
  apply andb_prop in Hall as [H2 Hall]. apply andb_prop in Hall as [H3 Hall].
  apply andb_prop in Hall as [H4 _].
  rewrite !append_cons, append_nil_l.
  unfold Strptime.group, Strptime.re_Y, Strptime.dig. simpl.
  by rewrite H1, H2, H3, H4.
Qed.

Lemma matches_head (s Y m d H r1 r2 r4 r5 : string)
    (tl_m tl_d tl_H : list (string * string)) :
  Strptime.group Strptime.re_Y s = [(Y, r1)] →
  Strptime.group Strptime.re_m r1 = (m, r2) :: tl_m →
  Strptime.group Strptime.re_d r2 = (d, String "-" r4) :: tl_d →
  Strptime.group Strptime.re_H r4 = (H, r5) :: tl_H →
  ∃ tl, Strptime.matches s = (Y, m, d, H, r5) :: tl.
Proof.
  intros HY Hm Hd HH. unfold Strptime.matches.
  rewrite HY. cbn [mbind list_bind]. rewrite Hm. cbn [mbind list_bind].
  rewrite Hd. cbn [mbind list_bind].
  change (Strptime.group Strptime.re_dash (String "-" r4)) with [("-", r4)].
  cbn [mbind list_bind]. rewrite HH. cbn [mbind list_bind app].
  eexists. reflexivity.
Qed.

(** The text the generator writes for a date and an hour is read back by
    the indexer's [strptime]. *)
Lemma strptime_strftime (t : datetime) (h : Z) :
  valid_date t → 1000 ≤ year t → 0 ≤ h ≤ 23 →
  strptime (Format.strftime t +:+ "-" +:+ Format.zero_padded 2 h)
    = Ok (Datetime (year t) (month t) (day t) h).
Proof.
  intros (Hy & Hm & Hd) Hy' Hh. unfold Format.strftime.
  assert (day t ≤ 31) as Hd31.
  { unfold days_in_month in Hd. repeat case_match; lia. }
  rewrite !append_assoc, append_cons, append_nil_l.
  set (hh := Format.zero_padded 2 h).
  destruct (year_text (year t) ltac:(lia)
              (Format.zero_padded 2 (month t) +:+ Format.zero_padded 2 (day t)
                 +:+ String "-" hh)) as [HiY HY].
  destruct (month_text (month t) Hm (Format.zero_padded 2 (day t) +:+ String "-" hh))
    as [Him [tl_m HM]].
  destruct (day_text (day t) ltac:(lia) (String "-" hh)) as [Hid [tl_d HD]].
  destruct (hour_text h Hh EmptyString) as [Hih [tl_H HH]].
  fold hh in HH, Hih.
  assert (hh +:+ EmptyString = hh) as Hnil.
  { clear. induction hh as [|c s IH]; [done|]. by rewrite append_cons, IH. }
  rewrite Hnil in HH.
  destruct (matches_head _ _ _ _ _ _ _ _ _ _ _ _ HY HM HD HH) as [tl Hmatch].
  unfold strptime. rewrite Hmatch.
  rewrite HiY, Him, Hid, Hih. cbn [mbind result_bind].
  replace ((1 <=? year t) && (day t <=? days_in_month (year t) (month t))) with true;
    [done|].
  symmetry. apply andb_true_intro. split; apply Z.leb_le; lia.
Qed.

Lemma all_digits_str (n : Z) : 0 ≤ n → all_digits (Format.str n) = true.
Proof.
  intros (c & s & -> & Hc & Hs & _)%str_digits. simpl. by rewrite Hc, Hs.
Qed.

Lemma all_digits_zeros (n : nat) : all_digits (Format.zeros n) = true.
Proof. induction n; simpl; done. Qed.

Lemma all_digits_zero_padded (w : nat) (n : Z) :
  0 ≤ n → all_digits (Format.zero_padded w n) = true.
Proof.
  intros Hn. unfold Format.zero_padded.
  replace (n <? 0) with false by (symmetry; apply Z.ltb_ge; lia).
  rewrite append_nil_l, all_digits_app, all_digits_zeros, Z.abs_eq by done.
  by apply all_digits_str.
Qed.

Lemma all_digits_strftime (t : datetime) :
  valid_date t → all_digits (Format.strftime t) = true.
Proof.
  intros (Hy & Hm & Hd). unfold Format.strftime.
  rewrite !all_digits_app, all_digits_str, !all_digits_zero_padded by lia. done.
Qed.

Lemma endswith_app (suffix a : string) : endswith suffix (a +:+ suffix) = true.
Proof.
  induction a as [|c a IH].
  - rewrite append_nil_l. destruct suffix; simpl; [done|].
    by rewrite Ascii.eqb_refl, String.eqb_refl.
  - rewrite append_cons. simpl. rewrite IH. apply orb_true_r.
Qed.

Lemma length_append (a b : string) :
  String.length (a +:+ b) = (String.length a + String.length b)%nat.
Proof. induction a as [|c a IH]; [done|]. rewrite append_cons. simpl. by rewrite IH. Qed.

Lemma substring_append (a b : string) :
  String.substring 0 (String.length a) (a +:+ b) = a.
Proof.
  induction a as [|c a IH]; [by destruct b|].
  rewrite append_cons. simpl. by rewrite IH.
Qed.

(** The stem of a generated name and its four segments. *)
Lemma filename_stem (k h : Z) (t : datetime) :
  Generator.filename k t h =
    ("Shop" +:+ String "-" (Format.str k +:+ String "-" (Format.strftime t
       +:+ String "-" (Format.zero_padded 2 h)))) +:+ ".csv".
Proof.
  unfold Generator.filename.
  repeat first [rewrite append_assoc|rewrite append_cons|rewrite append_nil_l].
  reflexivity.
Qed.

Lemma filename_segments (k h : Z) (t : datetime) :
  0 ≤ k → valid_date t → 0 ≤ h →
  segments (Generator.filename k t h) =
    ["Shop"; Format.str k; Format.strftime t; Format.zero_padded 2 h].
Proof.
  intros Hk Ht Hh. unfold segments.
  pose proof (all_digits_str k Hk) as Hdk.
  pose proof (all_digits_strftime t Ht) as Hdt.
  pose proof (all_digits_zero_padded 2 h Hh) as Hdh.
  rewrite filename_stem, replace_suffix.
  - rewrite !split_app_sep.
    rewrite !split_no_sep by first [reflexivity|by apply all_digits_contains]. done.
  - rewrite !contains_app. simpl. rewrite !contains_app. simpl.
    rewrite !contains_app. simpl.
    by rewrite !(all_digits_contains ".") by done.
Qed.

Lemma filename_globbed (k h : Z) (t : datetime) :
  0 ≤ k → valid_date t → 0 ≤ h →
  contains "/" (Generator.filename k t h) = false ∧
  glob_match (Generator.filename k t h) = true.
Proof.
  intros Hk Ht Hh.
  pose proof (all_digits_str k Hk) as Hdk.
  pose proof (all_digits_strftime t Ht) as Hdt.
  pose proof (all_digits_zero_padded 2 h Hh) as Hdh.
  assert (contains "/" (Generator.filename k t h) = false) as Hslash.
  { unfold Generator.filename. rewrite !contains_app.
    by rewrite (all_digits_contains "/" (Format.str k)),
      (all_digits_contains "/" (Format.strftime t)),
      (all_digits_contains "/" (Format.zero_padded 2 h)) by done. }
  split; [done|]. unfold glob_match. rewrite Hslash.
  rewrite filename_stem, !append_cons, append_nil_l.
  set (stem := Format.str k +:+ _).
  rewrite append_cons. cbv iota beta.
  rewrite endswith_app, length_append.
  replace (String.length stem + String.length ".csv" - 4)%nat
    with (String.length stem) by (simpl; lia).
  rewrite substring_append. unfold stem. rewrite contains_app. simpl.
  by rewrite orb_true_r.
Qed.

Lemma parse_generated_name (k h : Z) (t : datetime) :
  0 ≤ k → valid_date t → 1000 ≤ year t → 0 ≤ h ≤ 23 →
  parse_filename (Generator.filename k t h)
    = Ok (Datetime (year t) (month t) (day t) h, k).
Proof.
  intros Hk Ht Hy Hh. unfold parse_filename.
  change (Py.split "-" (Py.replace ".csv" EmptyString (Generator.filename k t h)))
    with (segments (Generator.filename k t h)).
  rewrite filename_segments by (done || lia).
  cbn [Py.getitem lookup list_lookup mbind result_bind].
  rewrite int_str by done. cbn [mbind result_bind].
  by rewrite strptime_strftime.
Qed.

(** X10. The generator and the indexer agree on file names.  For a shop
    number that is not negative, a calendar date of a year from 1000 on and
    an hour in 0..23, the path the generator writes has a name that the
    pattern [Shop-*-*.csv] matches and that the indexer reads back as that
    date, hour and shop. *)
Theorem generated_file_is_indexed (self : Generator.DataGenerator)
    (shop_id hour : Z) (current_date : datetime) :
  0 ≤ shop_id → valid_date current_date → 1000 ≤ year current_date →
  0 ≤ hour ≤ 23 →
  let filepath := Generator.filepath self shop_id current_date hour in
  glob_match (Py.basename filepath) = true ∧
  parse_filename (Py.basename filepath)
    = Ok (Datetime (year current_date) (month current_date) (day current_date) hour,
          shop_id).
Proof.
  intros Hk Ht Hy Hh filepath. unfold filepath, Generator.filepath.
  destruct (filename_globbed shop_id hour current_date) as [Hslash Hglob];
    [done|done|lia|].
  rewrite basename_join by done. split; [done|].
  by apply parse_generated_name.
Qed.

Lemma generated_file_is_indexed_witness :
  Generator.filepath new_year_generator 2 (Datetime 2022 1 1 0) 5
    = "/data/Shop-2-20220101-05.csv" ∧
  parse_filename "Shop-2-20220101-05.csv" = Ok (Datetime 2022 1 1 5, 2).
Proof.
  split; [reflexivity|].
  destruct (generated_file_is_indexed new_year_generator 2 5 (Datetime 2022 1 1 0))
    as [_ Hparse].
  - lia.
  - unfold valid_date. cbn [year month day].
    change (days_in_month 2022 1) with 31. lia.
  - cbn [year]. lia.
  - lia.
  - exact Hparse.
Defined.

(** ** The calendar *)

Lemma days_in_month_bounds (y m : Z) : 28 ≤ days_in_month y m ≤ 31.
Proof. unfold days_in_month. repeat case_match; lia. Qed.

Lemma next_day_valid (t t' : datetime) :
  valid_date t → next_day t = Some t' →
  valid_date t' ∧ hour t' = hour t ∧ year t ≤ year t'.
Proof.
  unfold valid_date, next_day. intros (Hy & Hm & Hd).
  destruct (day t <? days_in_month (year t) (month t)) eqn:E1.
  { apply Z.ltb_lt in E1. intros [= <-]. simpl. lia. }
  destruct (month t <? 12) eqn:E2.
  { apply Z.ltb_lt in E2. intros [= <-]. simpl.
    pose proof (days_in_month_bounds (year t) (month t + 1)). lia. }
  destruct (year t <? 9999) eqn:E3; [|done].
  apply Z.ltb_lt in E3. intros [= <-]. simpl.
  pose proof (days_in_month_bounds (year t + 1) 1). lia.
Qed.

Lemma next_day_later (t t' : datetime) (h h' : Z) :
  valid_date t → next_day t = Some t' →
  datetime_lt (at_hour t h) (at_hour t' h') = true.
Proof.
  unfold valid_date, next_day, at_hour, datetime_lt. intros (Hy & Hm & Hd).
  destruct (day t <? days_in_month (year t) (month t)) eqn:E1.
  { apply Z.ltb_lt in E1. intros [= <-]. simpl. bool_to_Z. lia. }
  destruct (month t <? 12) eqn:E2.
  { apply Z.ltb_lt in E2. intros [= <-]. simpl. bool_to_Z. lia. }
  destruct (year t <? 9999) eqn:E3; [|done].
  apply Z.ltb_lt in E3. intros [= <-]. simpl. bool_to_Z. lia.
Qed.

Lemma add_days_front (t : datetime) (n : nat) :
  add_days t (S n) = t' ← next_day t; add_days t' n.
Proof.
  induction n as [|n IH]; [simpl; by destruct (next_day t)|].
  change (add_days t (S (S n))) with (add_days t (S n) ≫= next_day).
  rewrite IH. destruct (next_day t) as [t'|]; [done|done].
Qed.

Lemma add_days_valid (t u : datetime) (n : nat) :
  valid_date t → add_days t n = Some u →
  valid_date u ∧ hour u = hour t ∧ year t ≤ year u.
Proof.
  intros Ht. revert u. induction n as [|n IH]; intros u; simpl.
  - intros [= <-]. split; [done|]. split; [done|lia].
  - destruct (add_days t n) as [v|]; [|done]. simpl.
    destruct (IH v eq_refl) as (Hv & Hh & Hy).
    intros (Hu & Hh' & Hy')%next_day_valid; [|done].
    split; [done|]. split; [congruence|lia].
Qed.


Lemma add_days_later (t u v : datetime) (n m : nat) (h h' : Z) :
  valid_date t → (n < m)%nat →
  add_days t n = Some u → add_days t m = Some v →
  datetime_lt (at_hour u h) (at_hour v h') = true.
Proof.
  intros Ht Hnm Hu. revert v h'. induction Hnm as [|m Hle IH]; intros v h'; simpl.
  - rewrite Hu. simpl. apply next_day_later. by eapply add_days_valid.
  - destruct (add_days t m) as [w|] eqn:Hw; [|done]. simpl. intros Hv.
    apply (datetime_lt_trans _ (at_hour w 0)); [by apply IH|].
    apply next_day_later; [|done]. by eapply add_days_valid.
Qed.

(** ** [range] *)

Lemma range_nil (a b : Z) : b ≤ a → range a b = [].
Proof. intros H. unfold range. by replace (Z.to_nat (b - a)) with 0%nat by lia. Qed.

Lemma range_cons (a b : Z) : a < b → range a b = a :: range (a + 1) b.
Proof.
  intros H. unfold range.
  replace (Z.to_nat (b - a)) with (S (Z.to_nat (b - (a + 1)))) by lia.
  cbn [seq fmap list_fmap]. f_equal; [lia|].
  rewrite <- fmap_S_seq, <- list_fmap_compose.
  apply list_fmap_ext. intros _ i _. simpl. lia.
Qed.

Lemma range_singleton (a : Z) : range a (a + 1) = [a].
Proof. rewrite range_cons by lia. by rewrite range_nil by lia. Qed.

Lemma elem_of_range (x a b : Z) : x ∈ range a b ↔ a ≤ x < b.
Proof.
  unfold range. rewrite list_elem_of_fmap. split.
  - intros (i & -> & Hi%elem_of_seq). lia.
  - intros H. exists (Z.to_nat (x - a)). split; [lia|]. apply elem_of_seq. lia.
Qed.

Lemma length_range (a b : Z) : length (range a b) = Z.to_nat (b - a).
Proof. unfold range. by rewrite length_fmap, length_seq. Qed.

Lemma range_from_zero (n : nat) : range 0 (Z.of_nat n) = Z.of_nat <$> seq 0 n.
Proof. unfold range. by replace (Z.to_nat (Z.of_nat n - 0)) with n by lia. Qed.

(** ** The runs of the generator *)

Lemma after_nil (run : list string * Generator.outcome) : Generator.after [] run = run.
Proof. by destruct run. Qed.

Lemma after_app (a b : list string) (run : list string * Generator.outcome) :
  Generator.after (a ++ b) run = Generator.after a (Generator.after b run).
Proof. unfold Generator.after. simpl. by rewrite app_assoc. Qed.

(** The rest of an hour: the files of the shops from [k] on, then the next
    hour or the next day. *)
Lemma sample_shops (self : Generator.DataGenerator) (c m : nat) (k h : Z)
    (d : datetime) :
  k + Z.of_nat c = Generator.num_shops self →
  Generator.sample_loop self (S c + m) k h d =
    Generator.after
      ((λ shop_id, Generator.filepath self shop_id d h)
         <$> range k (Generator.num_shops self + 1))
      (if 24 <=? h + 1 then
         match next_day d with
         | None => ([], Generator.OverflowError)
         | Some d' => Generator.sample_loop self m 1 0 d'
         end
       else Generator.sample_loop self m 1 (h + 1) d).
Proof.
  revert k. induction c as [|c IH]; intros k Hk.
  - change (1 + m)%nat with (S m). cbn [Generator.sample_loop].
    replace (Generator.num_shops self <? k + 1) with true
      by (symmetry; apply Z.ltb_lt; lia).
    replace (Generator.num_shops self + 1) with (k + 1) by lia.
    rewrite range_singleton. cbn [fmap list_fmap].
    destruct (24 <=? h + 1); [|done]. by destruct (next_day d).
  - change (S (S c) + m)%nat with (S (S c + m)). cbn [Generator.sample_loop].
    replace (Generator.num_shops self <? k + 1) with false
      by (symmetry; apply Z.ltb_ge; lia).
    rewrite IH by lia. rewrite (range_cons k) by lia. cbn [fmap list_fmap].
    by rewrite <- after_app.
Qed.

(** The rest of a day: the files of the hours from [h] on, then the next
    day. *)
Lemma sample_hours (self : Generator.DataGenerator) (c m : nat) (h : Z)
    (d : datetime) :
  1 ≤ Generator.num_shops self → h + Z.of_nat c = 23 →
  Generator.sample_loop self
      (S c * Z.to_nat (Generator.num_shops self) + m) 1 h d =
    Generator.after (range h 24 ≫= Generator.hour_files self d)
      match next_day d with
      | None => ([], Generator.OverflowError)
      | Some d' => Generator.sample_loop self m 1 0 d'
      end.
Proof.
  intros HN. revert h. induction c as [|c IH]; intros h Hh.
  - replace (1 * Z.to_nat (Generator.num_shops self) + m)%nat
      with (S (Z.to_nat (Generator.num_shops self - 1)) + m)%nat by lia.
    rewrite sample_shops by lia.
    replace (24 <=? h + 1) with true by (symmetry; apply Z.leb_le; lia).
    replace 24 with (h + 1) at 1 by lia. rewrite range_singleton.
    by rewrite bind_singleton.
  - replace (S (S c) * Z.to_nat (Generator.num_shops self) + m)%nat
      with (S (Z.to_nat (Generator.num_shops self - 1))
            + (S c * Z.to_nat (Generator.num_shops self) + m))%nat by lia.
    rewrite sample_shops by lia.
    replace (24 <=? h + 1) with false by (symmetry; apply Z.leb_gt; lia).
    rewrite IH by lia. rewrite (range_cons h) by lia.
    by rewrite bind_cons, after_app.
Qed.

Lemma omap_add_days_shift (d d' : datetime) (n : nat) :
  next_day d = Some d' →
  omap (add_days d) (seq 1 n) = omap (add_days d') (seq 0 n).
Proof.
  intros Hd. rewrite <- fmap_S_seq. generalize (seq 0 n) as l.
  induction l as [|i l IH]; [done|].
  rewrite fmap_cons. cbn [omap list_omap]. fold (omap (add_days d) (S <$> l)).
  fold (omap (add_days d') l).
  rewrite IH, add_days_front, Hd. done.
Qed.


Lemma all_loop_run (self : Generator.DataGenerator) (l : list nat) :
  Forall (λ i, is_Some (add_days (Generator.start_date self) i)) l →
  Generator.all_loop self (Z.of_nat <$> l) =
    (omap (add_days (Generator.start_date self)) l ≫= Generator.day_files self,
     Generator.Returned).
Proof.
  induction 1 as [|i l [d Hd] _ IH]; [done|].
  rewrite fmap_cons. cbn [Generator.all_loop]. rewrite Nat2Z.id, Hd, IH.
  cbn [omap list_omap]. fold (omap (add_days (Generator.start_date self)) l).
  rewrite Hd. by rewrite bind_cons.
Qed.

Lemma generate_all_run (self : Generator.DataGenerator) :
  (∀ i, (i < Z.to_nat (Generator.days self))%nat →
        is_Some (add_days (Generator.start_date self) i)) →
  Generator.generate_all self =
    (omap (add_days (Generator.start_date self)) (seq 0 (Z.to_nat (Generator.days self)))
       ≫= Generator.day_files self,
     Generator.Returned).
Proof.
  intros Hdays. unfold Generator.generate_all.
  destruct (decide (0 ≤ Generator.days self)) as [Hd|Hd].
  - rewrite <- (Z2Nat.id (Generator.days self)) at 1 by done.
    rewrite range_from_zero. apply all_loop_run.
    apply Forall_forall. intros i Hi%elem_of_seq. apply Hdays. lia.
  - rewrite range_nil by lia. by replace (Z.to_nat (Generator.days self)) with 0%nat by lia.
Qed.

Lemma strptime_date_valid (s : string) (t : datetime) :
  strptime_date s = Ok t → valid_date t ∧ hour t = 0.
Proof.
  unfold strptime_date.
  destruct (matches_date s) as [|[[[Y m] d] rest] tl] eqn:Hm; [done|].
  destruct rest; [|done].
  assert ((Y, m, d, EmptyString) ∈ matches_date s) as Hin by (rewrite Hm; left).
  unfold matches_date in Hin.
  apply list_elem_of_bind in Hin as ([Y' r1] & Hin & HY).
  apply list_elem_of_bind in Hin as ([? r2] & Hin & _).
  apply list_elem_of_bind in Hin as ([m' r3] & Hin & Hmo).
  apply list_elem_of_bind in Hin as ([? r4] & Hin & _).
  apply list_elem_of_bind in Hin as ([d' r5] & Hin & Hd).
  apply list_elem_of_singleton in Hin. injection Hin as <- <- <- <-.
  unfold mbind, result_bind.
  destruct (Py.int Y) as [y|] eqn:Ey; [|done].
  destruct (Py.int m) as [mo|] eqn:Em; [|done].
  destruct (Py.int d) as [da|] eqn:Ed; [|done].
  destruct ((1 <=? y) && (da <=? days_in_month y mo)) eqn:Hchk; [|done].
  intros [= <-]. unfold valid_date. simpl.
  apply andb_prop in Hchk as [Hy Hda]. apply Z.leb_le in Hy, Hda.
  pose proof (re_Y_value _ _ _ _ HY Ey). pose proof (re_m_value _ _ _ _ Hmo Em).
  pose proof (re_d_value _ _ _ _ Hd Ed). lia.
Qed.

Lemma generator_init (output_dir start_date : string) (num_shops days : Z)
    (self : Generator.DataGenerator) :
  Generator.__init__ output_dir num_shops start_date days = Ok self →
  Generator.output_dir self = output_dir ∧ Generator.num_shops self = num_shops ∧
  Generator.days self = days ∧ Generator.total_files self = num_shops * 24 * days ∧
  valid_date (Generator.start_date self) ∧ hour (Generator.start_date self) = 0.
Proof.
  unfold Generator.__init__, mbind, result_bind.
  destruct (strptime_date start_date) as [t|] eqn:Ht; [|done].
  intros [= <-]. simpl. apply strptime_date_valid in Ht. tauto.
Qed.

Lemma hour_files_none (self : Generator.DataGenerator) (d : datetime) (h : Z) :
  Generator.num_shops self ≤ 0 → Generator.hour_files self d h = [].
Proof. intros H. unfold Generator.hour_files. by rewrite range_nil by lia. Qed.

Lemma length_bind_const {A B} (f : A → list B) (c : nat) (l : list A) :
  (∀ x, x ∈ l → length (f x) = c) → length (l ≫= f) = (length l * c)%nat.
Proof.
  induction l as [|x l IH]; intros Hf; [done|].
  rewrite bind_cons, length_app, Hf, IH; [simpl; lia| |left].
  intros y Hy. apply Hf. by right.
Qed.

Lemma length_hour_files (self : Generator.DataGenerator) (d : datetime) (h : Z) :
  length (Generator.hour_files self d h) = Z.to_nat (Generator.num_shops self).
Proof.
  unfold Generator.hour_files. rewrite length_fmap, length_range. lia.
Qed.

Lemma length_day_files (self : Generator.DataGenerator) (d : datetime) :
  length (Generator.day_files self d) = (24 * Z.to_nat (Generator.num_shops self))%nat.
Proof.
  unfold Generator.day_files.
  rewrite (length_bind_const _ (Z.to_nat (Generator.num_shops self))).
  - by rewrite length_range.
  - intros h _. apply length_hour_files.
Qed.

Lemma all_loop_returned (self : Generator.DataGenerator) (l : list Z) :
  (Generator.all_loop self l).2 = Generator.Returned →
  Forall (λ day, is_Some (add_days (Generator.start_date self) (Z.to_nat day))) l.
Proof.
  induction l as [|day l IH]; [by constructor|]. cbn [Generator.all_loop].
  destruct (add_days (Generator.start_date self) (Z.to_nat day)) as [d|] eqn:Hd;
    [|done].
  intros Hr. constructor; [by rewrite Hd|]. by apply IH.
Qed.

Lemma generate_all_returned (self : Generator.DataGenerator) :
  (Generator.generate_all self).2 = Generator.Returned →
  ∀ i, (i < Z.to_nat (Generator.days self))%nat →
       is_Some (add_days (Generator.start_date self) i).
Proof.
  intros Hr%all_loop_returned i Hi. rewrite Forall_forall in Hr.
  specialize (Hr (Z.of_nat i)). rewrite Nat2Z.id in Hr. apply Hr.
  apply elem_of_range. lia.
Qed.

Lemma length_omap_total {A B} (f : A → option B) (l : list A) :
  (∀ x, x ∈ l → is_Some (f x)) → length (omap f l) = length l.
Proof.
  induction l as [|x l IH]; intros Hf; [done|]. cbn [omap list_omap].
  destruct (Hf x) as [y Hy]; [left|]. rewrite Hy. simpl. f_equal. apply IH.
  intros z Hz. apply Hf. by right.
Qed.



(** X12. A run of [generate_all] that returns, with shop and day counts
    that are not negative, has written [total_files] files, the number the
    constructor announces. *)
Theorem generate_all_writes_total_files (output_dir start_date : string)
    (num_shops days : Z) (self : Generator.DataGenerator) :
  Generator.__init__ output_dir num_shops start_date days = Ok self →
  0 ≤ num_shops → 0 ≤ days →
  (Generator.generate_all self).2 = Generator.Returned →
  len (Generator.generate_all self).1 = Generator.total_files self.
Proof.
  intros (_ & HN & HD & HT & _)%generator_init HN0 HD0 Hret.
  pose proof (generate_all_returned self Hret) as Hdays.
  rewrite (generate_all_run self Hdays). unfold len. simpl.
  rewrite (length_bind_const _ (24 * Z.to_nat (Generator.num_shops self))).
  - rewrite length_omap_total, length_seq; [rewrite HT, HN, HD; nia|].
    intros i Hi%elem_of_seq. apply Hdays. lia.
  - intros d _. apply length_day_files.
Qed.

Lemma generate_all_writes_total_files_witness : len new_year_files = 96.
Proof.
  apply (generate_all_writes_total_files "/data" "2021-12-31" 2 2 new_year_generator).
  - reflexivity.
  - lia.
  - lia.
  - vm_compute. reflexivity.
Defined.

(** ** The generated files in the indexer *)

Lemma parsed_bind {A} (f : A → list string) (l : list A) :
  parsed (l ≫= f) = l ≫= (λ x, parsed (f x)).
Proof.
  unfold parsed. induction l as [|x l IH]; [done|].
  by rewrite !bind_cons, bind_app, IH.
Qed.

Lemma fmap_bind_list {A B C} (g : B → C) (f : A → list B) (l : list A) :
  g <$> (l ≫= f) = l ≫= (λ x, g <$> f x).
Proof.
  induction l as [|x l IH]; [done|]. by rewrite !bind_cons, fmap_app, IH.
Qed.

Lemma parsed_hour (self : Generator.DataGenerator) (d : datetime) (h : Z) :
  valid_date d → 1000 ≤ year d → 0 ≤ h ≤ 23 →
  parsed (Generator.hour_files self d h) = stamped_hour self d h.
Proof.
  intros Hd Hy Hh. unfold parsed, Generator.hour_files, stamped_hour.
  rewrite list_fmap_bind.
  assert (∀ k, k ∈ range 1 (Generator.num_shops self + 1) → 0 ≤ k) as Hk
    by (intros k Hk%elem_of_range; lia).
  induction (range 1 (Generator.num_shops self + 1)) as [|k l IH]; [done|].
  rewrite bind_cons, fmap_cons, IH by (intros; apply Hk; by right).
  simpl. unfold entry_of, Generator.filepath.
  destruct (filename_globbed k h d) as [Hslash _]; [apply Hk; left|done|lia|].
  rewrite basename_join by done.
  rewrite parse_generated_name; [done|apply Hk; left|done|done|done].
Qed.

Lemma parsed_day (self : Generator.DataGenerator) (d : datetime) :
  valid_date d → 1000 ≤ year d →
  parsed (Generator.day_files self d) = stamped_day self d.
Proof.
  intros Hd Hy. unfold Generator.day_files, stamped_day. rewrite parsed_bind.
  apply Forall_bind_ext, Forall_forall. intros h Hh%elem_of_range.
  apply parsed_hour; [done|done|lia].
Qed.

Lemma generated_dates_valid (self : Generator.DataGenerator) (d : datetime) :
  valid_date (Generator.start_date self) → d ∈ generated_dates self →
  valid_date d ∧ year (Generator.start_date self) ≤ year d.
Proof.
  intros Hs (i & _ & Hd)%list_elem_of_omap.
  destruct (add_days_valid _ _ _ Hs Hd) as (? & _ & ?). done.
Qed.

Lemma parsed_generated (self : Generator.DataGenerator) :
  valid_date (Generator.start_date self) → 1000 ≤ year (Generator.start_date self) →
  parsed (generated_dates self ≫= Generator.day_files self)
    = generated_dates self ≫= stamped_day self.
Proof.
  intros Hs Hy. rewrite parsed_bind.
  apply Forall_bind_ext, Forall_forall. intros d [Hd Hyd]%generated_dates_valid; [|done].
  apply parsed_day; [done|lia].
Qed.

(** The paths of the entries are the generated paths. *)
Lemma stamped_paths (self : Generator.DataGenerator) (dates : list datetime) :
  (snd ∘ strip) <$> (dates ≫= stamped_day self) = dates ≫= Generator.day_files self.
Proof.
  rewrite fmap_bind_list. apply list_bind_ext; [|done]. intros d.
  unfold stamped_day, Generator.day_files. rewrite fmap_bind_list.
  apply list_bind_ext; [|done]. intros h.
  unfold stamped_hour, Generator.hour_files. rewrite <- list_fmap_compose. done.
Qed.

(** *** The generation order is the order of the keys *)

Lemma sorted_bind {A B} (S : A → A → Prop) (R : B → B → Prop) (f : A → list B)
    (l : list A) :
  StronglySorted S l →
  (∀ x, x ∈ l → StronglySorted R (f x)) →
  (∀ x y a b, x ∈ l → y ∈ l → S x y → a ∈ f x → b ∈ f y → R a b) →
  StronglySorted R (l ≫= f).
Proof.
  induction 1 as [|x l Hs IH Hx]; intros Hin Hcross; [constructor|].
  rewrite bind_cons. apply StronglySorted_app_2.
  - intros a b Ha (y & Hb & Hy)%list_elem_of_bind.
    rewrite Forall_forall in Hx.
    apply (Hcross x y); [left|by right|by apply Hx|done|done].
  - apply Hin. left.
  - apply IH; [intros; apply Hin; by right|].
    intros y z a b Hy Hz. apply Hcross; by right.
Qed.

Lemma sorted_range (a b : Z) : StronglySorted Z.lt (range a b).
Proof.
  unfold range. generalize (Z.to_nat (b - a)) as n. intros n.
  apply (StronglySorted_fmap _ lt); [intros; lia|].
  generalize 0%nat as s. induction n as [|n IH]; intros s; [constructor|].
  simpl. constructor; [apply IH|].
  apply Forall_forall. intros i Hi%elem_of_seq. lia.
Qed.

Lemma sorted_omap {A B} (S : A → A → Prop) (R : B → B → Prop) (f : A → option B)
    (l : list A) :
  StronglySorted S l →
  (∀ x y a b, S x y → f x = Some a → f y = Some b → R a b) →
  StronglySorted R (omap f l).
Proof.
  intros Hs HR. induction Hs as [|x l Hs IH Hx]; [constructor|].
  cbn [omap list_omap]. fold (omap f l).
  destruct (f x) as [a|] eqn:Ha; [|done].
  constructor; [done|]. apply Forall_forall.
  intros b (y & Hy & Hb)%list_elem_of_omap.
  rewrite Forall_forall in Hx. apply (HR x y); [by apply Hx|done|done].
Qed.

Lemma key_lt_of_time (t t' : datetime) (k k' : Z) :
  datetime_lt t t' = true → key_lt (t, k) (t', k') = true.
Proof.
  intros Hlt. unfold key_lt. simpl.
  destruct (datetime_eq t t') eqn:Heq; [|done].
  apply datetime_eq_spec in Heq as ->. by rewrite datetime_lt_irrefl in Hlt.
Qed.

Lemma key_lt_of_shop (t : datetime) (k k' : Z) :
  k < k' → key_lt (t, k) (t, k') = true.
Proof.
  intros Hlt. unfold key_lt. simpl.
  replace (datetime_eq t t) with true by (symmetry; by apply datetime_eq_spec).
  by apply Z.ltb_lt.
Qed.

Lemma at_hour_later (d : datetime) (h h' : Z) :
  h < h' → datetime_lt (at_hour d h) (at_hour d h') = true.
Proof. intros Hlt. unfold datetime_lt, at_hour. simpl. bool_to_Z. lia. Qed.

Lemma elem_of_stamped_hour (self : Generator.DataGenerator) (d : datetime) (h : Z)
    (x : datetime * Z * string) :
  x ∈ stamped_hour self d h → x.1.1 = at_hour d h.
Proof. unfold stamped_hour. by intros (k & -> & _)%list_elem_of_fmap. Qed.

Lemma elem_of_stamped_day (self : Generator.DataGenerator) (d : datetime)
    (x : datetime * Z * string) :
  x ∈ stamped_day self d → ∃ h, x.1.1 = at_hour d h.
Proof.
  unfold stamped_day. intros (h & Hx%elem_of_stamped_hour & _)%list_elem_of_bind.
  by exists h.
Qed.

Lemma sorted_stamped_day (self : Generator.DataGenerator) (d : datetime) :
  StronglySorted before (stamped_day self d).
Proof.
  unfold stamped_day. apply (sorted_bind Z.lt); [apply sorted_range| |].
  - intros h _. unfold stamped_hour.
    apply (StronglySorted_fmap _ Z.lt); [|apply sorted_range].
    intros k k' Hk. by apply key_lt_of_shop.
  - intros h h' x y _ _ Hh Hx%elem_of_stamped_hour Hy%elem_of_stamped_hour.
    unfold before, sort_key. rewrite Hx, Hy.
    by apply key_lt_of_time, at_hour_later.
Qed.

Lemma sorted_generated_dates (self : Generator.DataGenerator) :
  valid_date (Generator.start_date self) →
  StronglySorted (λ d d', ∀ h h', datetime_lt (at_hour d h) (at_hour d' h') = true)
    (generated_dates self).
Proof.
  intros Hs. unfold generated_dates. apply (sorted_omap lt).
  - generalize 0%nat as s. induction (Z.to_nat (Generator.days self)) as [|n IH];
      intros s; [constructor|].
    simpl. constructor; [apply IH|].
    apply Forall_forall. intros i Hi%elem_of_seq. lia.
  - intros i j d d' Hij Hd Hd' h h'.
    by apply (add_days_later (Generator.start_date self) d d' i j).
Qed.

Lemma sorted_stamped (self : Generator.DataGenerator) :
  valid_date (Generator.start_date self) →
  StronglySorted before (generated_dates self ≫= stamped_day self).
Proof.
  intros Hs. eapply sorted_bind; [by apply sorted_generated_dates| |].
  - intros d _. apply sorted_stamped_day.
  - intros d d' x y _ _ Hdd' [h Hx]%elem_of_stamped_day [h' Hy]%elem_of_stamped_day.
    unfold before, sort_key. rewrite Hx, Hy. apply key_lt_of_time, Hdd'.
Qed.

Lemma before_asym (x y : datetime * Z * string) :
  before x y → ascending_by key_lt sort_key x y.
Proof.
  unfold before, ascending_by. intros Hxy.
  destruct (key_lt (sort_key y) (sort_key x)) eqn:Hyx; [|done].
  pose proof (key_lt_trans _ _ _ Hxy Hyx) as Hxx.
  by rewrite key_lt_irrefl in Hxx.
Qed.

Lemma sorted_before_ascending (l : list (datetime * Z * string)) :
  StronglySorted before l → StronglySorted (ascending_by key_lt sort_key) l.
Proof.
  induction 1 as [|x l Hs IH Hx]; constructor; [done|].
  eapply Forall_impl; [exact Hx|]. intros y. apply before_asym.
Qed.

Lemma sorted_before_NoDup (l : list (datetime * Z * string)) :
  StronglySorted before l → NoDup (sort_key <$> l).
Proof.
  induction 1 as [|x l Hs IH Hx]; [constructor|].
  rewrite fmap_cons. constructor; [|done].
  intros (y & Heq & Hy)%list_elem_of_fmap. rewrite Forall_forall in Hx.
  specialize (Hx y Hy). unfold before in Hx.
  by rewrite Heq, key_lt_irrefl in Hx.
Qed.

(** A listing of files whose entries have strictly ascending keys in some
    order is indexed in that order. *)
Lemma corpus_of_sorted (files listing : list string) :
  StronglySorted before (parsed files) → listing ≡ₚ files →
  corpus_of listing = strip <$> parsed files.
Proof.
  intros Hs Hperm. unfold corpus_of. f_equal.
  assert (parsed listing ≡ₚ parsed files) as Hpp
    by (unfold parsed; by rewrite Hperm).
  apply (sorted_stable_unique key_lt sort_key key_lt_irrefl key_lt_connex).
  - apply sort_by_sorted; [apply key_lt_irrefl|apply key_lt_trans|apply key_lt_connex].
  - by apply sorted_before_ascending.
  - intros k. rewrite (sort_by_stable _ _ key_lt_irrefl).
    symmetry. apply Permutation_short_eq; [by rewrite Hpp|].
    by apply filter_key_short, sorted_before_NoDup.
Qed.

Lemma warnings_none (files : list string) :
  (∀ fp, fp ∈ files → is_ok (parse_filename (Py.basename fp)) = true) →
  warnings files = [].
Proof.
  unfold warnings. induction files as [|fp files IH]; intros Hok; [done|].
  rewrite bind_cons, IH by (intros; apply Hok; by right).
  unfold warning_of. specialize (Hok fp ltac:(left)).
  by destruct (parse_filename (Py.basename fp)).
Qed.

Lemma logged_nil (st : state) : logged st [] = st.
Proof. destruct st. unfold logged. simpl. by rewrite app_nil_r. Qed.

Lemma corpus_of_generated (self : Generator.DataGenerator) (listing : list string) :
  valid_date (Generator.start_date self) → 1000 ≤ year (Generator.start_date self) →
  listing ≡ₚ generated_dates self ≫= Generator.day_files self →
  corpus_of listing = strip <$> (generated_dates self ≫= stamped_day self) ∧
  warnings listing = [].
Proof.
  intros Hvalid Hyear Hperm.
  pose proof (parsed_generated self Hvalid Hyear) as Hparsed.
  split.
  - rewrite <- Hparsed. apply corpus_of_sorted; [|done].
    rewrite Hparsed. by apply sorted_stamped.
  - apply warnings_none. intros fp Hfp.
    rewrite Hperm, <- stamped_paths, <- Hparsed in Hfp.
    apply list_elem_of_fmap in Hfp as ([[ts sid] fp'] & -> & Hin).
    apply elem_of_parsed in Hin as [_ Hok]. simpl. by rewrite Hok.
Qed.

(** X13. The indexer puts the files of a full generator run back into the
    order in which they were written.  When [main] of the generator, run
    without [--sample] from a start date of a year from 1000 on, returns
    after writing [files], the simulator's [_get_sorted_files] on any listing
    of these files, in whatever order, skips none (it logs nothing) and
    returns a corpus whose paths are [files] in generation order. *)
Theorem generated_corpus_in_generation_order (args : Generator.arguments)
    (files listing : list string) (st : state) :
  Generator.main args = Ok (files, Generator.Returned) →
  Generator.sample args ≤ 0 →
  (∀ d, strptime_date (Generator.start args) = Ok d → 1000 ≤ year d) →
  listing ≡ₚ files →
  ∃ corpus,
    _get_sorted_files listing st = (Ok corpus, st) ∧ snd <$> corpus = files.
Proof.
  unfold Generator.main. intros Hmain Hsample Hyear Hperm.
  destruct (Generator.__init__ _ _ _ _) as [gen|] eqn:Hinit; [|done].
  cbn [mbind result_bind] in Hmain.
  replace (0 <? Generator.sample args) with false in Hmain
    by (symmetry; apply Z.ltb_ge; lia).
  injection Hmain as Hrun.
  assert (1000 ≤ year (Generator.start_date gen)) as Hy.
  { apply Hyear. unfold Generator.__init__, mbind, result_bind in Hinit.
    destruct (strptime_date (Generator.start args)); [|done].
    by injection Hinit as <-. }
  apply generator_init in Hinit as (_ & _ & _ & _ & Hvalid & _).
  assert ((Generator.generate_all gen).2 = Generator.Returned) as Hret
    by (by rewrite Hrun).
  pose proof (generate_all_returned gen Hret) as Hdays.
  rewrite (generate_all_run gen Hdays) in Hrun. injection Hrun as <-.
  fold (generated_dates gen) in Hperm |- *.
  destruct (corpus_of_generated gen listing Hvalid Hy Hperm) as [Hcorpus Hwarn].
  exists (corpus_of listing). split.
  - by rewrite get_sorted_files_spec, Hwarn, logged_nil.
  - by rewrite Hcorpus, <- list_fmap_compose, stamped_paths.
Qed.

Lemma generated_corpus_in_generation_order_witness :
  ∃ corpus,
    _get_sorted_files (reverse new_year_files) (boot ∅) = (Ok corpus, boot ∅) ∧
    snd <$> corpus = new_year_files.
Proof.
  apply (generated_corpus_in_generation_order new_year_args).
  - vm_compute. reflexivity.
  - simpl. lia.
  - intros d Hd. vm_compute in Hd. injection Hd as <-. simpl. lia.
  - apply reverse_Permutation.
Defined.

(** ** The replay of the generated files *)

Lemma segment_of_concat {A} (n : nat) (blocks : list (list A)) (i : nat) (b : list A) :
  Forall (λ b, length b = n) blocks → blocks !! i = Some b →
  segment (i * n) n (concat blocks) = b.
Proof.
  intros Hall. revert i. induction Hall as [|c blocks Hc Hall IH]; intros i; [done|].
  destruct i as [|i]; simpl.
  - intros [= ->]. unfold segment. rewrite drop_0. by rewrite take_app_length'.
  - intros Hi. unfold segment. rewrite drop_app_add' by done. by apply IH.
Qed.

Lemma concat_generated_hours (self : Generator.DataGenerator) :
  concat (generated_hours self) = generated_dates self ≫= Generator.day_files self.
Proof.
  unfold generated_hours. induction (generated_dates self) as [|d l IH]; [done|].
  rewrite !bind_cons, concat_app, IH. by f_equal.
Qed.

Lemma generated_hours_length (self : Generator.DataGenerator) :
  Forall (λ b, length b = Z.to_nat (Generator.num_shops self)) (generated_hours self).
Proof.
  apply Forall_forall. unfold generated_hours.
  intros b (d & (h & -> & _)%list_elem_of_fmap & _)%list_elem_of_bind.
  apply length_hour_files.
Qed.

Lemma length_generated_hours (self : Generator.DataGenerator) :
  length (generated_hours self) = (length (generated_dates self) * 24)%nat.
Proof.
  unfold generated_hours. apply length_bind_const.
  intros d _. by rewrite length_fmap, length_range.
Qed.

(** X14. The simulator replays a generated data set hour by hour.  With
    the shop count of the generator (at least one) and the cursor at 0, the
    first [24 * days] calls of [_get_next_batch] return, one after the
    other, the files the generator wrote in each pass of its loop over the
    shops: one hour of one day, all shops, in generation order. *)
Theorem replay_is_hour_by_hour (output_dir start_date : string)
    (shops days : Z) (gen : Generator.DataGenerator) (listing : list string)
    (st0 : state) :
  Generator.__init__ output_dir shops start_date days = Ok gen →
  1000 ≤ year (Generator.start_date gen) → 1 ≤ shops →
  (Generator.generate_all gen).2 = Generator.Returned →
  listing ≡ₚ (Generator.generate_all gen).1 →
  all_files (self st0) = corpus_of listing → num_shops (self st0) = shops →
  current_index (self st0) = 0 →
  (next_batches (Z.to_nat (24 * days)) st0).1 = Ok (generated_hours gen).
Proof.
  intros (_ & HN & HD & _ & Hvalid & _)%generator_init Hyear Hshops Hret Hperm
    Hfiles Hnum Hidx.
  pose proof (generate_all_returned gen Hret) as Hdays.
  rewrite (generate_all_run gen Hdays) in Hperm. simpl in Hperm.
  fold (generated_dates gen) in Hperm.
  destruct (corpus_of_generated gen listing Hvalid Hyear Hperm) as [Hcorpus _].
  assert (snd <$> corpus_of listing = concat (generated_hours gen)) as Hpaths
    by (by rewrite Hcorpus, <- list_fmap_compose, stamped_paths, concat_generated_hours).
  pose proof (generated_hours_length gen) as Hlen. rewrite HN in Hlen.
  assert (length (corpus_of listing)
          = (length (generated_hours gen) * Z.to_nat shops)%nat) as Hsize.
  { rewrite <- (length_fmap snd), Hpaths.
    clear -Hlen. induction Hlen as [|b bs Hb _ IH]; [done|].
    simpl. rewrite length_app, IH, Hb. lia. }
  assert (Z.to_nat (24 * days) = length (generated_hours gen)) as ->.
  { rewrite length_generated_hours. unfold generated_dates.
    rewrite length_omap_total, length_seq; [lia|].
    intros i Hi%elem_of_seq. apply Hdays. lia. }
  rewrite (next_batches_tiling _ 0 st0);
    rewrite ?Hnum, ?Hfiles; [|lia|by rewrite Hidx|unfold len; rewrite Hsize; lia].
  simpl. f_equal. apply list_eq. intros i. rewrite list_lookup_fmap.
  destruct (generated_hours gen !! i) as [b|] eqn:Hb.
  - rewrite (lookup_seq_lt _ _ _ (lookup_lt_Some _ _ _ Hb)). simpl. f_equal.
    rewrite fmap_segment, Hpaths. by apply segment_of_concat.
  - rewrite lookup_seq_ge; [done|]. by apply lookup_ge_None.
Qed.

Lemma replay_is_hour_by_hour_witness :
  (next_batches 48
     {| self := constructed "/data" "/realtime" 2 3600 (reverse new_year_files);
        disk := ∅; log := [] |}).1
    = Ok (generated_hours new_year_generator).
Proof.
  apply (replay_is_hour_by_hour "/data" "2021-12-31" 2 2 new_year_generator
           (reverse new_year_files)).
  - reflexivity.
  - simpl. lia.
  - lia.
  - vm_compute. reflexivity.
  - apply reverse_Permutation.
  - reflexivity.
  - reflexivity.
  - reflexivity.
Defined.

(** ** [generate_sample] against [generate_all] *)

Lemma length_sample_loop (self : Generator.DataGenerator) (n : nat) (k h : Z)
    (d : datetime) :
  (length (Generator.sample_loop self n k h d).1 ≤ n)%nat.
Proof.
  revert k h d. induction n as [|n IH]; intros k h d; [done|].
  cbn [Generator.sample_loop].
  repeat case_match; unfold Generator.after; simpl; try lia;
    match goal with |- context [Generator.sample_loop self n ?k ?h ?d] =>
      specialize (IH k h d); lia end.
Qed.

(** A shorter run writes the first files of a longer one. *)
Lemma sample_loop_prefix (self : Generator.DataGenerator) (n m : nat) (k h : Z)
    (d : datetime) :
  (Generator.sample_loop self n k h d).1
    = take n (Generator.sample_loop self (n + m) k h d).1.
Proof.
  revert k h d. induction n as [|n IH]; intros k h d; [done|].
  change (S n + m)%nat with (S (n + m)). cbn [Generator.sample_loop].
  repeat case_match; unfold Generator.after; simpl;
    first [by rewrite IH|by rewrite take_nil].
Qed.

(** A run that a longer run outgrows has returned. *)
Lemma sample_loop_returned (self : Generator.DataGenerator) (n m : nat) (k h : Z)
    (d : datetime) :
  (n < length (Generator.sample_loop self (n + m) k h d).1)%nat →
  (Generator.sample_loop self n k h d).2 = Generator.Returned.
Proof.
  revert k h d. induction n as [|n IH]; intros k h d; [done|].
  change (S n + m)%nat with (S (n + m)). cbn [Generator.sample_loop].
  repeat case_match; unfold Generator.after; simpl; try lia;
    intros Hlen; apply IH; lia.
Qed.

Lemma sample_days_files (self : Generator.DataGenerator) (D : nat) (d : datetime) :
  1 ≤ Generator.num_shops self →
  (∀ i, (i < D)%nat → is_Some (add_days d i)) →
  (Generator.sample_loop self (D * (24 * Z.to_nat (Generator.num_shops self))) 1 0 d).1 =
    omap (add_days d) (seq 0 D) ≫= Generator.day_files self.
Proof.
  intros HN. revert d. induction D as [|D IH]; intros d Hd; [done|].
  replace (S D * (24 * Z.to_nat (Generator.num_shops self)))%nat
    with (24 * Z.to_nat (Generator.num_shops self)
          + D * (24 * Z.to_nat (Generator.num_shops self)))%nat by lia.
  rewrite (sample_hours self 23) by (done || lia).
  cbn [seq omap list_omap add_days]. fold (omap (add_days d) (seq 1 D)).
  rewrite bind_cons.
  destruct (next_day d) as [d'|] eqn:Hnext.
  - rewrite (omap_add_days_shift d d') by done. unfold Generator.after. simpl.
    rewrite IH; [done|]. intros i Hi.
    specialize (Hd (S i) ltac:(lia)). by rewrite add_days_front, Hnext in Hd.
  - destruct D as [|D]; [done|].
    specialize (Hd 1%nat ltac:(lia)). simpl in Hd. rewrite Hnext in Hd.
    by destruct Hd.
Qed.

(** X15. With at least one shop, [generate_sample(n)] for [n] below the
    number of files of a returning [generate_all] writes the first [n] of
    those files and returns ([n <= 0] writes nothing). *)
Theorem sample_writes_first_files (self : Generator.DataGenerator) (num_files : Z) :
  1 ≤ Generator.num_shops self →
  (Generator.generate_all self).2 = Generator.Returned →
  num_files < len (Generator.generate_all self).1 →
  Generator.generate_sample self num_files =
    (take (Z.to_nat num_files) (Generator.generate_all self).1, Generator.Returned).
Proof.
  intros HN Hret Hn. unfold Generator.generate_sample.
  destruct (decide (num_files ≤ 0)) as [Hneg|Hpos].
  { by replace (Z.to_nat num_files) with 0%nat by lia. }
  pose proof (generate_all_returned self Hret) as Hdays.
  pose proof (sample_days_files self _ _ HN Hdays) as Hfiles.
  rewrite (generate_all_run self Hdays) in Hn |- *. simpl in Hn |- *.
  rewrite <- Hfiles in Hn |- *. unfold len in Hn.
  pose proof (length_sample_loop self
                (Z.to_nat (Generator.days self)
                 * (24 * Z.to_nat (Generator.num_shops self)))
                1 0 (Generator.start_date self)) as Hle.
  set (total := (Z.to_nat (Generator.days self)
                 * (24 * Z.to_nat (Generator.num_shops self)))%nat) in *.
  replace total with (Z.to_nat num_files + (total - Z.to_nat num_files))%nat by lia.
  rewrite <- sample_loop_prefix.
  rewrite <- (sample_loop_returned self (Z.to_nat num_files)
                (total - Z.to_nat num_files) 1 0 (Generator.start_date self)).
  - apply surjective_pairing.
  - replace (Z.to_nat num_files + (total - Z.to_nat num_files))%nat with total by lia.
    lia.
Qed.

Lemma sample_writes_first_files_witness :
  Generator.generate_sample new_year_generator 5
    = (take 5 new_year_files, Generator.Returned).
Proof.
  apply (sample_writes_first_files new_year_generator 5).
  - simpl. lia.
  - vm_compute. reflexivity.
  - vm_compute. reflexivity.
Defined.

Lemma sample_one_shop (self other : Generator.DataGenerator) (n : nat) (h : Z)
    (d : datetime) :
  Generator.num_shops self ≤ 1 → Generator.num_shops other = 1 →
  Generator.output_dir other = Generator.output_dir self →
  Generator.sample_loop self n 1 h d = Generator.sample_loop other n 1 h d.
Proof.
  intros HN H1 Hout. revert h d. induction n as [|n IH]; intros h d; [done|].
  cbn [Generator.sample_loop]. rewrite H1.
  replace (Generator.num_shops self <? 1 + 1) with true
    by (symmetry; apply Z.ltb_lt; lia).
  change (1 <? 1 + 1) with true. cbv iota.
  unfold Generator.filepath. rewrite Hout.
  destruct (24 <=? h + 1); [|by rewrite IH].
  destruct (next_day d); [by rewrite IH|done].
Qed.

(** X16. A shop count that is not positive: [generate_all] writes no file
    at all, while [generate_sample] behaves as with exactly one shop (its
    first file is written before the count is looked at). *)
Theorem shops_below_one (self : Generator.DataGenerator) (num_files : Z) :
  Generator.num_shops self ≤ 0 →
  (Generator.generate_all self).1 = [] ∧
  Generator.generate_sample self num_files =
    Generator.generate_sample
      {| Generator.output_dir := Generator.output_dir self;
         Generator.num_shops := 1;
         Generator.start_date := Generator.start_date self;
         Generator.days := Generator.days self;
         Generator.total_files := Generator.total_files self |} num_files.
Proof.
  intros HN. split.
  - unfold Generator.generate_all.
    induction (range 0 (Generator.days self)) as [|day l IH]; [done|].
    cbn [Generator.all_loop]. destruct (add_days _ _) as [d|]; [|done].
    unfold Generator.after. simpl. rewrite IH, app_nil_r.
    apply length_zero_iff_nil. rewrite length_day_files. lia.
  - unfold Generator.generate_sample. apply sample_one_shop; [lia|done|done].
Qed.

Lemma shops_below_one_witness :
  (Generator.generate_all
     {| Generator.output_dir := "/data"; Generator.num_shops := 0;
        Generator.start_date := Datetime 2021 12 31 0; Generator.days := 2;
        Generator.total_files := 0 |}).1 = [] ∧
  Generator.generate_sample
    {| Generator.output_dir := "/data"; Generator.num_shops := 0;
       Generator.start_date := Datetime 2021 12 31 0; Generator.days := 2;
       Generator.total_files := 0 |} 3
  = Generator.generate_sample
      {| Generator.output_dir := "/data"; Generator.num_shops := 1;
         Generator.start_date := Datetime 2021 12 31 0; Generator.days := 2;
         Generator.total_files := 0 |} 3.
Proof.
  apply (shops_below_one
           {| Generator.output_dir := "/data"; Generator.num_shops := 0;
              Generator.start_date := Datetime 2021 12 31 0; Generator.days := 2;
              Generator.total_files := 0 |} 3).
  simpl. lia.
Defined.
